(** * The delivery pipeline of bot.py

    A shallow embedding of [src/bot.py]: the module-level settings, the
    history table, [send_file] with its flood-control retry,
    [split_and_send_zip], [process_file] and the scheduling loop of [main],
    followed by the properties the specification states about them.

    What is modelled and how:
    - the dictionaries [file_history] and [error_messages] are finite maps
      keyed by path; [file_size_cache] is an association list, because the
      scan order is the dictionary's insertion order;
    - the file system is a finite map from paths to contents;
    - the Telegram client is an oracle: the reply to the n-th call of each
      API method is given by the environment, so every deterministic
      transport is covered by some oracle;
    - Python exceptions are an outcome of a state-and-trace monad; state
      changes made before a [raise] are kept, as in Python;
    - [send_file] retries without a ceiling, and [main] loops forever: both
      take fuel, and running out of it is the outcome [Diverge], which no
      handler catches.

    [clean_old_logs] touches only [logs/]: it is modelled on its own, after
    the pipeline, as a function of the clock and of the directory.

    Left out: logging calls, the two rate limiters (they only delay a call),
    the wall-clock fields of a history record ([last_sent],
    [processing_time], [upload_speed]) and [KeyboardInterrupt]. *)

From Stdlib Require Import ZArith String Ascii List Lia DecimalString Sorted.
From stdpp Require Import base option list gmap strings.

Local Open Scope string_scope.
Local Open Scope list_scope.
Local Open Scope Z_scope.

(** ** Strings and paths *)

Abbreviation bytes := (list Byte.byte).

Definition nl : string := String (ascii_of_nat 10) EmptyString.

(** [str.lower()] on ASCII letters. *)
Definition lower_ascii (c : ascii) : ascii :=
  let n := nat_of_ascii c in
  if ((65 <=? n)%nat && (n <=? 90)%nat)%bool then ascii_of_nat (n + 32) else c.

Fixpoint lower (s : string) : string :=
  match s with
  | EmptyString => EmptyString
  | String c rest => String (lower_ascii c) (lower rest)
  end.

(** [s.endswith(suffix)]. *)
Definition endswith (s suffix : string) : bool :=
  let n := String.length s in
  let m := String.length suffix in
  ((m <=? n)%nat && String.eqb (substring (n - m) m s) suffix)%bool.

(** [os.path.basename]: what follows the last slash. *)
Fixpoint basename_from (acc p : string) : string :=
  match p with
  | EmptyString => acc
  | String c rest =>
      if Ascii.eqb c "/" then basename_from EmptyString rest
      else basename_from (acc +:+ String c EmptyString) rest
  end.

Definition basename (p : string) : string := basename_from EmptyString p.

(** [os.path.join] of a directory and one component. *)
Definition path_join (dir name : string) : string :=
  if String.prefix "/" name then name
  else if (String.eqb dir "" || endswith dir "/")%bool then dir +:+ name
  else dir +:+ "/" +:+ name.

(** [str(n)] and the format [{n:03d}] of an integer. *)
Definition str (n : Z) : string := NilZero.string_of_int (Z.to_int n).

Fixpoint zeros (k : nat) : string :=
  match k with
  | O => EmptyString
  | S k' => String "0" (zeros k')
  end.

Definition format_03d (n : Z) : string :=
  if n <? 0 then "-" +:+ zeros (2 - String.length (str (- n))) +:+ str (- n)
  else zeros (3 - String.length (str n)) +:+ str n.

(** [needle in haystack] for strings. *)
Fixpoint contains (needle haystack : string) : bool :=
  (String.prefix needle haystack ||
   match haystack with
   | EmptyString => false
   | String _ rest => contains needle rest
   end)%bool.

(** ** Module-level settings *)

Record Config := {
  CHAT_ID : Z;
  FORWARD_CHAT_ID : Z;
  ENABLE_FORWARD : bool;
  FOLDERS_TO_MONITOR : list string;
  CHECK_INTERVAL : Z;
  (** fixed at [45 * 1024 * 1024] in the source; a field here so that the
      split can also be run on small artifacts *)
  MAX_FILE_SIZE : Z;
  ENABLE_ENCRYPTION : bool;
  ZIP_PASSWORD : string;
  ALLOWED_EXTENSIONS : list string;
  ENABLE_CACHE : bool;
  (** the raw [compression_level] option of the ini file, if present *)
  compression_level : option string
}.

Definition MAX_FILE_SIZE_45MB : Z := 45 * 1024 * 1024.

Definition COMPRESSION_LEVEL (cfg : Config) : string :=
  lower (default "default" (compression_level cfg)).

(** ** Exceptions *)

(** The attributes of [e.response] that [send_file] reads. *)
Record HttpResponse := {
  status_code : Z;
  (** [int(headers['Retry-After'])] when the header is present *)
  retry_after_header : option Z
}.

(** A [TelegramError]; [response] is [None] when the exception object has no
    such attribute ([hasattr(e, 'response')] is false). *)
Record TelegramError := {
  response : option HttpResponse;
  message : string
}.

Inductive Exception :=
| TelegramErr (e : TelegramError)
| FileNotFoundError (path : string)
| ZeroDivisionError
| ValueError (msg : string).

(** ** The transport *)

Inductive Method :=
| send_document | send_message | delete_message
| get_me | get_chat_member | forward_message_.

#[global] Instance Method_eq_dec : EqDecision Method.
Proof. solve_decision. Defined.

Inductive Request :=
| SendDocument (chat_id : Z) (file_path : string) (document : bytes) (caption : string)
| SendMessage (chat_id : Z) (text : string)
| DeleteMessage (chat_id : Z) (message_id : Z)
| GetMe
| GetChatMember (chat_id user_id : Z)
| ForwardMessage (chat_id from_chat_id message_id : Z).

Definition method_of (rq : Request) : Method :=
  match rq with
  | SendDocument _ _ _ _ => send_document
  | SendMessage _ _ => send_message
  | DeleteMessage _ _ => delete_message
  | GetMe => get_me
  | GetChatMember _ _ => get_chat_member
  | ForwardMessage _ _ _ => forward_message_
  end.

(** What the bot reads of a returned object: [message.message_id] or
    [bot_user.id], and [chat_member.status]. *)
Record Response := {
  id : Z;
  status : string
}.

Inductive Reply :=
| Ok (r : Response)
| Fails (e : TelegramError).

(** ** History records *)

Record FileRecord := {
  hash : string;
  send_success : bool;
  encrypted : bool;
  encryption_algorithm : string;
  (** [None] for a record of the history file that has no ['file_id'] *)
  file_id : option Z;
  file_size : Z;
  processed_size : Z
}.

(** [x.get('file_id', 0)]. *)
Definition get_file_id (r : FileRecord) : Z := default 0 (file_id r).

(** ** Events *)

Inductive Event :=
| Api (rq : Request) (rp : Reply)
| Sleep (seconds : Z)
| PostEvent (type file : string) (fid : Z) (file_hash : string) (size : Z)
| PostFileHistory (history : gmap string FileRecord).

(** ** The environment *)

Inductive Compression := ZIP_DEFLATED | ZIP_STORED.

Record Env := {
  (** the reply to the n-th call of a method *)
  reply : Method -> nat -> Reply;
  md5 : bytes -> string;
  (** the archive [zipfile]/[pyzipper] writes for one entry: compression,
      password if encrypted, entry name, content *)
  zip_write : Compression -> option string -> string -> bytes -> bytes;
  (** [telegram.helpers.escape_markdown(_, version=2)] *)
  escape_markdown : string -> string;
  (** the name of the n-th temporary directory *)
  mkdtemp : nat -> string;
  (** the files [os.walk] lists under a folder *)
  os_walk : gmap string bytes -> string -> list string
}.

(** ** Program state *)

Record World := {
  fs : gmap string bytes;
  file_history : gmap string FileRecord;
  file_counter : Z;
  file_size_cache : list (string * Z);
  error_messages : gmap string Z;
  (** the contents of data/bot_file_history.json *)
  disk_history : gmap string FileRecord;
  (** the contents of data/file_size_cache.json *)
  disk_size_cache : list (string * Z);
  (** how often each API method has been called *)
  calls : Method -> nat;
  (** how many temporary directories have been created *)
  temp_count : nat
}.

Definition set_fs (f : gmap string bytes -> gmap string bytes) (w : World) : World :=
  {| fs := f (fs w); file_history := file_history w; file_counter := file_counter w;
     file_size_cache := file_size_cache w; error_messages := error_messages w;
     disk_history := disk_history w; disk_size_cache := disk_size_cache w;
     calls := calls w; temp_count := temp_count w |}.

Definition set_file_history (f : gmap string FileRecord -> gmap string FileRecord)
    (w : World) : World :=
  {| fs := fs w; file_history := f (file_history w); file_counter := file_counter w;
     file_size_cache := file_size_cache w; error_messages := error_messages w;
     disk_history := disk_history w; disk_size_cache := disk_size_cache w;
     calls := calls w; temp_count := temp_count w |}.

Definition set_file_counter (f : Z -> Z) (w : World) : World :=
  {| fs := fs w; file_history := file_history w; file_counter := f (file_counter w);
     file_size_cache := file_size_cache w; error_messages := error_messages w;
     disk_history := disk_history w; disk_size_cache := disk_size_cache w;
     calls := calls w; temp_count := temp_count w |}.

Definition set_file_size_cache (f : list (string * Z) -> list (string * Z))
    (w : World) : World :=
  {| fs := fs w; file_history := file_history w; file_counter := file_counter w;
     file_size_cache := f (file_size_cache w); error_messages := error_messages w;
     disk_history := disk_history w; disk_size_cache := disk_size_cache w;
     calls := calls w; temp_count := temp_count w |}.

Definition set_error_messages (f : gmap string Z -> gmap string Z) (w : World) : World :=
  {| fs := fs w; file_history := file_history w; file_counter := file_counter w;
     file_size_cache := file_size_cache w; error_messages := f (error_messages w);
     disk_history := disk_history w; disk_size_cache := disk_size_cache w;
     calls := calls w; temp_count := temp_count w |}.

Definition set_disk_history (h : gmap string FileRecord) (w : World) : World :=
  {| fs := fs w; file_history := file_history w; file_counter := file_counter w;
     file_size_cache := file_size_cache w; error_messages := error_messages w;
     disk_history := h; disk_size_cache := disk_size_cache w;
     calls := calls w; temp_count := temp_count w |}.

Definition set_disk_size_cache (c : list (string * Z)) (w : World) : World :=
  {| fs := fs w; file_history := file_history w; file_counter := file_counter w;
     file_size_cache := file_size_cache w; error_messages := error_messages w;
     disk_history := disk_history w; disk_size_cache := c;
     calls := calls w; temp_count := temp_count w |}.

Definition tick (m : Method) (w : World) : World :=
  {| fs := fs w; file_history := file_history w; file_counter := file_counter w;
     file_size_cache := file_size_cache w; error_messages := error_messages w;
     disk_history := disk_history w; disk_size_cache := disk_size_cache w;
     calls := fun m' => if decide (m' = m) then S (calls w m') else calls w m';
     temp_count := temp_count w |}.

Definition next_temp (w : World) : World :=
  {| fs := fs w; file_history := file_history w; file_counter := file_counter w;
     file_size_cache := file_size_cache w; error_messages := error_messages w;
     disk_history := disk_history w; disk_size_cache := disk_size_cache w;
     calls := calls w; temp_count := S (temp_count w) |}.

(** ** The monad: state, a trace of events, and exceptions *)

Inductive Outcome (A : Type) :=
| Ret (a : A)
| Raise (e : Exception)
| Diverge.
Arguments Ret {A} a.
Arguments Raise {A} e.
Arguments Diverge {A}.

Definition M (A : Type) : Type := World -> list Event * World * Outcome A.

Definition ret {A} (a : A) : M A := fun w => ([], w, Ret a).

Definition raise {A} (e : Exception) : M A := fun w => ([], w, Raise e).

Definition bind {A B} (m : M A) (k : A -> M B) : M B := fun w =>
  match m w with
  | (evs, w1, Ret a) =>
      let '(evs2, w2, r) := k a w1 in (evs ++ evs2, w2, r)
  | (evs, w1, Raise e) => (evs, w1, Raise e)
  | (evs, w1, Diverge) => (evs, w1, Diverge)
  end.

(** [try: m  except Exception as e: h e]; a handler re-raises what its
    [except] clause does not match. *)
Definition try_except {A} (m : M A) (h : Exception -> M A) : M A := fun w =>
  match m w with
  | (evs, w1, Raise e) =>
      let '(evs2, w2, r) := h e w1 in (evs ++ evs2, w2, r)
  | r => r
  end.

Definition get {A} (f : World -> A) : M A := fun w => ([], w, Ret (f w)).
Definition modify (f : World -> World) : M unit := fun w => ([], f w, Ret tt).
Definition emit (ev : Event) : M unit := fun w => ([ev], w, Ret tt).

Declare Scope monad_scope.
Delimit Scope monad_scope with monad.
Notation "x <- m ;; k" := (bind m (fun x => k))
  (at level 100, m at next level, right associativity) : monad_scope.
Notation "m ;;; k" := (bind m (fun _ => k))
  (at level 100, right associativity) : monad_scope.
Local Open Scope monad_scope.

(** ** The program *)

Section Bot.

Variable cfg : Config.
Variable env : Env.

(** One call of the Telegram client: the oracle answers, the call and its
    reply are recorded, and a failure is raised as a [TelegramError]. *)
Definition api (rq : Request) : M Response := fun w =>
  let rp := reply env (method_of rq) (calls w (method_of rq)) in
  ([Api rq rp], tick (method_of rq) w,
   match rp with
   | Ok r => Ret r
   | Fails e => Raise (TelegramErr e)
   end).

(** [asyncio.sleep]. *)
Definition sleep (seconds : Z) : M unit := emit (Sleep seconds).

(** [open(path, 'rb').read()]. *)
Definition read_file (path : string) : M bytes := fun w =>
  match fs w !! path with
  | Some content => ([], w, Ret content)
  | None => ([], w, Raise (FileNotFoundError path))
  end.

(** [os.path.getsize]. *)
Definition getsize (path : string) : M Z :=
  content <- read_file path ;; ret (Z.of_nat (length content)).

Definition write_file (path : string) (content : bytes) : M unit :=
  modify (set_fs (insert path content)).

(** [os.remove]. *)
Definition os_remove (path : string) : M unit :=
  _ <- read_file path ;; modify (set_fs (delete path)).

Definition is_under (dir path : string) : Prop :=
  String.prefix (dir +:+ "/") path = true.

#[global] Instance is_under_dec dir path : Decision (is_under dir path).
Proof. unfold is_under. apply _. Defined.

(** [with tempfile.TemporaryDirectory() as temp_dir: body]: the directory and
    what was written into it are removed however the body ends. *)
Definition with_temp_dir {A} (body : string -> M A) : M A := fun w =>
  let temp_dir := mkdtemp env (temp_count w) in
  let '(evs, w1, r) := body temp_dir (next_temp w) in
  (evs, set_fs (filter (fun kv => ¬ is_under temp_dir kv.1)) w1, r).

(** [save_data(file_history, FILE_HISTORY_PATH)]. *)
Definition save_history : M unit :=
  modify (fun w => set_disk_history (file_history w) w).

(** [calculate_md5]. *)
Definition calculate_md5 (file_path : string) : M string :=
  content <- read_file file_path ;; ret (md5 env content).

(** *** forward_message *)

(** [except TelegramError] around the whole body: the error is logged. *)
Definition swallow_telegram_error (m : M unit) : M unit :=
  try_except m (fun e =>
    match e with
    | TelegramErr _ => ret tt
    | _ => raise e
    end).

Definition forward_message (msg : Response) : M unit :=
  swallow_telegram_error (
    bot_user <- api GetMe ;;
    chat_member <- api (GetChatMember (FORWARD_CHAT_ID cfg) (id bot_user)) ;;
    if String.eqb (status chat_member) "kicked" then ret tt
    else
      _ <- api (ForwardMessage (FORWARD_CHAT_ID cfg) (CHAT_ID cfg) (id msg)) ;;
      ret tt).

(** *** send_file *)

Definition part_suffix (part_number total_parts : option Z) : string :=
  match part_number, total_parts with
  | Some i, Some n => nl +:+ "\(Part " +:+ str i +:+ "/" +:+ str n +:+ "\)"
  | _, _ => ""
  end.

Definition escaped_caption (caption : string) (part_number total_parts : option Z) : string :=
  escape_markdown env caption +:+ part_suffix part_number total_parts.

(** The body of the [try] block. *)
Definition send_file_try (file_path caption : string) (part_number total_parts : option Z)
    : M bool :=
  file <- read_file file_path ;;
  msg <- api (SendDocument (CHAT_ID cfg) file_path file
                (escaped_caption caption part_number total_parts)) ;;
  (if ENABLE_FORWARD cfg then forward_message msg else ret tt) ;;;
  tracked <- get (fun w => error_messages w !! file_path) ;;
  match tracked with
  | Some notice =>
      _ <- api (DeleteMessage (CHAT_ID cfg) notice) ;;
      modify (set_error_messages (delete file_path)) ;;;
      ret true
  | None => ret true
  end.

(** [hasattr(e, 'response') and e.response.status_code == 429]. *)
Definition is_flood_control (e : TelegramError) : bool :=
  match response e with
  | Some r => status_code r =? 429
  | None => false
  end.

(** [int(e.response.headers.get('Retry-After', 1))]. *)
Definition retry_after (e : TelegramError) : Z :=
  match response e with
  | Some r => default 1 (retry_after_header r)
  | None => 1
  end.

(** The [else] branch of the handler: the notice and its tracking. *)
Definition report_send_error (file_path : string) : M bool :=
  error_message <- api (SendMessage (CHAT_ID cfg)
                          ("Error sending file: " +:+ file_path +:+ ". Check logs.")) ;;
  modify (set_error_messages (insert file_path (id error_message))) ;;;
  ret false.

Fixpoint send_file (fuel : nat) (file_path caption : string)
    (part_number total_parts : option Z) : M bool :=
  match fuel with
  | O => fun w => ([], w, Diverge)
  | S fuel' =>
      try_except (send_file_try file_path caption part_number total_parts)
        (fun exc =>
           match exc with
           | TelegramErr e =>
               if is_flood_control e then
                 sleep (retry_after e) ;;;
                 send_file fuel' file_path caption part_number total_parts
               else report_send_error file_path
           | _ => raise exc
           end)
  end.

(** *** Notices *)

Definition encryption_note : string :=
  if ENABLE_ENCRYPTION cfg
  then "The ZIP file is encrypted. You'll need the password to extract it."
  else "The ZIP file is not encrypted.".

Definition reassembly_instructions (base_name : string) (file_number : Z) : string :=
  "```" +:+ nl +:+
  "To reassemble the file:" +:+ nl +:+
  "1. Download all parts (" +:+ str (file_number - 1) +:+ " in total)" +:+ nl +:+
  "2. Use one of the following commands:" +:+ nl +:+
  "   # Windows" +:+ nl +:+
  "   copy /b " +:+ base_name +:+ ".zip.* " +:+ base_name +:+ ".zip" +:+ nl +:+
  nl +:+
  "   # Linux/Mac" +:+ nl +:+
  "   cat " +:+ base_name +:+ ".zip.* > " +:+ base_name +:+ ".zip" +:+ nl +:+
  "3. Extract " +:+ base_name +:+ ".zip" +:+ nl +:+
  nl +:+
  encryption_note +:+ nl +:+
  "```".

Definition send_reassembly_instructions (base_name : string) (file_number : Z) : M unit :=
  let instructions := reassembly_instructions base_name file_number in
  _ <- api (SendMessage (CHAT_ID cfg) instructions) ;;
  if (negb (FORWARD_CHAT_ID cfg =? 0) && ENABLE_FORWARD cfg)%bool then
    _ <- api (SendMessage (FORWARD_CHAT_ID cfg) instructions) ;; ret tt
  else ret tt.

Definition send_error_message (base_name : string) : M unit :=
  _ <- api (SendMessage (CHAT_ID cfg)
              ("Error processing file: " +:+ base_name +:+ ". Check logs.")) ;;
  ret tt.

(** [send_event_to_backend]: a [RequestException] is logged and dropped. *)
Definition send_event_to_backend (event_type file_name : string) (fid : Z)
    (file_hash : string) (size : Z) : M unit :=
  emit (PostEvent event_type file_name fid file_hash size).

(** *** Archives *)

Definition compression : Compression :=
  if String.eqb (COMPRESSION_LEVEL cfg) "default" then ZIP_DEFLATED else ZIP_STORED.

(** The [if ENABLE_ENCRYPTION: pyzipper... else: zipfile...] block. *)
Definition write_zip (zip_path file_path base_name : string) : M unit :=
  content <- read_file file_path ;;
  write_file zip_path
    (zip_write env compression
       (if ENABLE_ENCRYPTION cfg then Some (ZIP_PASSWORD cfg) else None)
       base_name content).

(** The condition shared by [create_zip_archive] and the final [os.remove]. *)
Definition zips_here (file_path : string) (skip_zip : bool) : bool :=
  (negb skip_zip && negb (String.eqb (COMPRESSION_LEVEL cfg) "none")
   && negb (endswith (lower file_path) ".zip"))%bool.

Definition create_zip_archive (file_path base_name temp_dir : string) (skip_zip : bool)
    : M string :=
  if zips_here file_path skip_zip then
    let zip_path := path_join temp_dir (base_name +:+ ".zip") in
    write_zip zip_path file_path base_name ;;;
    ret zip_path
  else ret file_path.

(** *** split_and_send_zip *)

(** [zip_file.read(chunk_size)]: the block read and what is left of the
    file; a negative size reads to the end. *)
Definition read (chunk_size : Z) (rest : bytes) : bytes * bytes :=
  if chunk_size <? 0 then (rest, [])
  else (take (Z.to_nat chunk_size) rest, drop (Z.to_nat chunk_size) rest).

(** [size // chunk_size + (1 if size % chunk_size else 0)]. *)
Definition count_parts (size chunk_size : Z) : M Z :=
  if chunk_size =? 0 then raise ZeroDivisionError
  else ret (size / chunk_size + (if size mod chunk_size =? 0 then 0 else 1)).

Definition chunk_name (temp_dir base_name : string) (file_number : Z) : string :=
  path_join temp_dir (base_name +:+ "." +:+ format_03d file_number).

Definition part_caption (base_name : string) (file_number : Z) : string :=
  "Part " +:+ str file_number +:+ " of " +:+ base_name.

(** How the [while True] loop is left. *)
Inductive LoopExit :=
| Break (file_number : Z)
| ReturnFalse.

(** The [while True] loop over the open archive; [iters] bounds the number
    of iterations and is never the reason to stop. *)
Fixpoint split_loop (iters fuel : nat) (temp_dir base_name : string)
    (chunk_size total_parts : Z) (zip_file : bytes) (file_number : Z) : M LoopExit :=
  match iters with
  | O => fun w => ([], w, Diverge)
  | S iters' =>
      let (chunk, rest) := read chunk_size zip_file in
      match chunk with
      | [] => ret (Break file_number)
      | _ :: _ =>
          write_file (chunk_name temp_dir base_name file_number) chunk ;;;
          success <- send_file fuel (chunk_name temp_dir base_name file_number)
                       (part_caption base_name file_number)
                       (Some file_number) (Some total_parts) ;;
          if success : bool then
            modify (set_file_counter (Z.add 1)) ;;;
            split_loop iters' fuel temp_dir base_name chunk_size total_parts rest
              (file_number + 1)
          else ret ReturnFalse
      end
  end.

(** The body of the [try] block. *)
Definition split_and_send_zip_try (fuel : nat) (file_path base_name : string)
    (skip_zip : bool) : M (bool * Z) :=
  original_size <- getsize file_path ;;
  with_temp_dir (fun temp_dir =>
    zip_path <- create_zip_archive file_path base_name temp_dir skip_zip ;;
    let chunk_size := MAX_FILE_SIZE cfg in
    zip_size <- getsize zip_path ;;
    total_parts <- count_parts zip_size chunk_size ;;
    zip_file <- read_file zip_path ;;
    exit <- split_loop (S (length zip_file)) fuel temp_dir base_name
              chunk_size total_parts zip_file 1 ;;
    match exit with
    | ReturnFalse => ret (false, 0)
    | Break file_number =>
        send_reassembly_instructions base_name file_number ;;;
        (if zips_here file_path skip_zip then os_remove zip_path else ret tt) ;;;
        ret (true, original_size)
    end).

Definition split_and_send_zip (fuel : nat) (file_path : string) (skip_zip : bool)
    : M (bool * Z) :=
  let base_name := basename file_path in
  try_except (split_and_send_zip_try fuel file_path base_name skip_zip)
    (fun _ => send_error_message base_name ;;; ret (false, 0)).

(** *** process_file *)

(** [any(file_data['hash'] == file_hash for file_data in file_history.values())]. *)
Definition any_hash_match (history : gmap string FileRecord) (file_hash : string) : bool :=
  existsb (fun file_data => String.eqb (hash file_data) file_hash) (map_to_list history).*2.

(** [ALLOWED_EXTENSIONS and not any(base_name.lower().endswith(ext) ...)]. *)
Definition extension_rejected (base_name : string) : bool :=
  match ALLOWED_EXTENSIONS cfg with
  | [] => false
  | exts => negb (existsb (endswith (lower base_name)) exts)
  end.

(** [file_path not in file_history or file_history[file_path]['hash'] != file_hash]. *)
Definition new_or_modified (history : gmap string FileRecord) (file_path file_hash : string)
    : bool :=
  match history !! file_path with
  | None => true
  | Some file_data => negb (String.eqb (hash file_data) file_hash)
  end.

(** [COMPRESSION_LEVEL == 'none' or (file_path.lower().endswith('.zip') and
    not ENABLE_ENCRYPTION)]. *)
Definition sent_as_is (file_path : string) : bool :=
  (String.eqb (COMPRESSION_LEVEL cfg) "none"
   || (endswith (lower file_path) ".zip" && negb (ENABLE_ENCRYPTION cfg)))%bool.

Definition encryption_status : string :=
  if ENABLE_ENCRYPTION cfg then "🔒 Encrypted" else "🔓 Not encrypted".

Definition new_record (file_hash : string) (fid original_size sent_size : Z) : FileRecord :=
  {| hash := file_hash;
     send_success := true;
     encrypted := ENABLE_ENCRYPTION cfg;
     encryption_algorithm := if ENABLE_ENCRYPTION cfg then "AES" else "None";
     file_id := Some fid;
     file_size := original_size;
     processed_size := sent_size |}.

(** The send itself: the [if]/[else] on the size of the artifact, which
    yields [success] and [file_size]. *)
Definition send_artifact (fuel : nat) (send_path base_name : string) : M (bool * Z) :=
  send_size <- getsize send_path ;;
  if send_size >? MAX_FILE_SIZE cfg then
    if endswith (lower send_path) ".zip"
    then split_and_send_zip fuel send_path true
    else split_and_send_zip fuel send_path false
  else
    let caption := "File: " +:+ base_name +:+ nl +:+ encryption_status in
    success <- send_file fuel send_path caption None None ;;
    sent_size <- getsize send_path ;;
    ret (success, sent_size).

(** The [if success:] branch: the counter, the record, the history file
    and the event for the backend. *)
Definition record_success (file_path base_name file_hash : string)
    (original_size sent_size : Z) : M unit :=
  modify (set_file_counter (Z.add 1)) ;;;
  fid <- get file_counter ;;
  modify (set_file_history (insert file_path
            (new_record file_hash fid original_size sent_size))) ;;;
  save_history ;;;
  send_event_to_backend "success" base_name fid file_hash original_size.

(** The [else:] branch. *)
Definition record_failure (base_name file_hash : string) (original_size : Z) : M unit :=
  fid <- get file_counter ;;
  send_event_to_backend "failure" base_name fid file_hash original_size.

(** The delivery: the body of the [if] at the per-path check. *)
Definition deliver (fuel : nat) (file_path send_path base_name file_hash : string)
    (original_size : Z) : M unit :=
  sent <- send_artifact fuel send_path base_name ;;
  if sent.1 : bool
  then record_success file_path base_name file_hash original_size sent.2
  else record_failure base_name file_hash original_size.

(** The [if]/[else] that chooses [send_path], writing the archive if one is
    needed. *)
Definition build_send_path (file_path base_name temp_dir : string) : M string :=
  if sent_as_is file_path then ret file_path
  else
    let send_path := path_join temp_dir (base_name +:+ ".zip") in
    write_zip send_path file_path base_name ;;;
    ret send_path.

Definition process_file (fuel : nat) (file_path : string) : M unit :=
  file_hash <- calculate_md5 file_path ;;
  original_size <- getsize file_path ;;
  let base_name := basename file_path in
  history <- get file_history ;;
  if any_hash_match history file_hash then ret tt
  else if extension_rejected base_name then ret tt
  else
    with_temp_dir (fun temp_dir =>
      send_path <- build_send_path file_path base_name temp_dir ;;
      history <- get file_history ;;
      if new_or_modified history file_path file_hash
      then deliver fuel file_path send_path base_name file_hash original_size
      else ret tt).

(** *** Start-up and the scheduling loop *)

(** The configuration check at import time. *)
Definition validate_config : M unit :=
  if (ENABLE_ENCRYPTION cfg && String.eqb (COMPRESSION_LEVEL cfg) "none")%bool
  then raise (ValueError
         "Error: Encryption cannot be enabled when compression is set to 'none'.")
  else ret tt.

(** [max(file_history.values(), key=lambda x: x.get('file_id', 0),
    default={}).get('file_id', 0)]. *)
Definition initial_counter (history : gmap string FileRecord) : Z :=
  match (map_to_list history).*2 with
  | [] => 0
  | r :: rs => foldr (fun x acc => Z.max (get_file_id x) acc) (get_file_id r) rs
  end.

Definition startup : M unit :=
  modify (fun w => set_file_history (fun _ => disk_history w) w) ;;;
  modify (fun w => set_file_counter (fun _ => initial_counter (file_history w)) w) ;;;
  (if ENABLE_CACHE cfg
   then modify (fun w => set_file_size_cache (fun _ => disk_size_cache w) w)
   else ret tt) ;;;
  history <- get file_history ;;
  emit (PostFileHistory history).

(** [for x in xs: body x]. *)
Fixpoint for_each {A} (xs : list A) (body : A -> M unit) : M unit :=
  match xs with
  | [] => ret tt
  | x :: rest => body x ;;; for_each rest body
  end.

(** [d[k] = v] on a dictionary kept in insertion order. *)
Fixpoint dict_set (k : string) (v : Z) (d : list (string * Z)) : list (string * Z) :=
  match d with
  | [] => [(k, v)]
  | (k', v') :: rest =>
      if String.eqb k' k then (k, v) :: rest else (k', v') :: dict_set k v rest
  end.

(** Python's stable sort by an integer key. *)
Fixpoint insert_by_size (x : string * Z) (sorted : list (string * Z)) : list (string * Z) :=
  match sorted with
  | [] => [x]
  | y :: rest => if x.2 <=? y.2 then x :: y :: rest else y :: insert_by_size x rest
  end.

Definition sort_by_size (l : list (string * Z)) : list (string * Z) :=
  foldr insert_by_size [] l.

(** The paths [os.walk] yields over all monitored folders. *)
Definition walk_folders : M (list string) :=
  files <- get fs ;;
  ret (flat_map (os_walk env files) (FOLDERS_TO_MONITOR cfg)).

Definition build_file_size_cache : M unit :=
  paths <- walk_folders ;;
  for_each paths (fun file_path =>
    size <- getsize file_path ;;
    modify (set_file_size_cache (dict_set file_path size))) ;;;
  modify (fun w => set_disk_size_cache (file_size_cache w) w).

(** [mapM]: the sizes [sort(key=os.path.getsize)] reads. *)
Fixpoint with_sizes (paths : list string) : M (list (string * Z)) :=
  match paths with
  | [] => ret []
  | p :: rest =>
      size <- getsize p ;;
      sized <- with_sizes rest ;;
      ret ((p, size) :: sized)
  end.

Definition sorted_files : M (list string) :=
  if ENABLE_CACHE cfg then
    build_file_size_cache ;;;
    cache <- get file_size_cache ;;
    ret (sort_by_size cache).*1
  else
    paths <- walk_folders ;;
    sized <- with_sizes paths ;;
    ret (sort_by_size sized).*1.

(** The body of the [try] inside [while True]. *)
Definition cycle (fuel : nat) : M unit :=
  files <- sorted_files ;;
  for_each files (process_file fuel) ;;;
  sleep (CHECK_INTERVAL cfg).

(** [while True], run for at most [cycles] rounds. *)
Fixpoint main_loop (cycles fuel : nat) : M unit :=
  match cycles with
  | O => fun w => ([], w, Diverge)
  | S cycles' =>
      try_except (cycle fuel) (fun _ => sleep (CHECK_INTERVAL cfg)) ;;;
      main_loop cycles' fuel
  end.

Definition main (cycles fuel : nat) : M unit :=
  startup ;;; main_loop cycles fuel.

(** The module as a script: the settings are checked, then [main] runs. *)
Definition program (cycles fuel : nat) : M unit :=
  validate_config ;;; main cycles fuel.

End Bot.

(** * The log directory *)

(** clean_old_logs works on the directory [logs] alone, with the clock and
    the creation times of the files: it is modelled on its own, as a
    function of what it reads. A [datetime] is the number of microseconds
    since [datetime.min]; the directory maps the path of each file to its
    creation time, [datetime.fromtimestamp(os.path.getctime(path))]. *)

Inductive LogsError :=
| LogNotFound (path : string)
| OverflowError.

(** [datetime.max], 9999-12-31 23:59:59.999999. *)
Definition MAX_DATETIME : Z := 3652059 * 86400 * 1000000 - 1.

(** [timedelta(days=days)]. *)
Definition timedelta_days (days : Z) : option Z :=
  if Z.abs days <=? 999999999 then Some (days * 86400 * 1000000) else None.

(** [t - delta] on a [datetime]. *)
Definition datetime_sub (t delta : Z) : option Z :=
  let r := t - delta in
  if ((0 <=? r) && (r <=? MAX_DATETIME))%bool then Some r else None.

(** [filename.endswith('.txt') and filename.startswith('bot_log')]. *)
Definition is_bot_log (filename : string) : bool :=
  (endswith filename ".txt" && String.prefix "bot_log" filename)%bool.

(** The loop over [os.listdir('logs')]. *)
Fixpoint clean_listed (deletion_time : Z) (listing : list string) (logs : gmap string Z)
    : gmap string Z * option LogsError :=
  match listing with
  | [] => (logs, None)
  | filename :: rest =>
      if is_bot_log filename then
        let file_path := path_join "logs" filename in
        match logs !! file_path with
        | None => (logs, Some (LogNotFound file_path))
        | Some file_time =>
            if file_time <? deletion_time
            then clean_listed deletion_time rest (delete file_path logs)
            else clean_listed deletion_time rest logs
        end
      else clean_listed deletion_time rest logs
  end.

(** [clean_old_logs()], given [LOG_RETENTION_DAYS], [datetime.now()] and
    the names [os.listdir('logs')] returns: the directory afterwards, and
    the exception if one is raised. *)
Definition clean_old_logs (LOG_RETENTION_DAYS current_time : Z) (listing : list string)
    (logs : gmap string Z) : gmap string Z * option LogsError :=
  match timedelta_days LOG_RETENTION_DAYS with
  | None => (logs, Some OverflowError)
  | Some delta =>
      match datetime_sub current_time delta with
      | None => (logs, Some OverflowError)
      | Some deletion_time => clean_listed deletion_time listing logs
      end
  end.

(** * The vocabulary of the statements *)

Definition is_document (rq : Request) : Prop :=
  match rq with
  | SendDocument _ _ _ _ => True
  | _ => False
  end.

(** The relation between the states around a send: the history table and
    its copy on disk are the same, and the counter has not gone down. *)
Definition history_untouched (w w' : World) : Prop :=
  file_history w' = file_history w /\ disk_history w' = disk_history w
  /\ file_counter w <= file_counter w'.

(** The files are the same. *)
Definition same_files (w w' : World) : Prop := fs w' = fs w.

(** A relation between the two states alone. *)
Definition on_states (Q : World -> World -> Prop) : World -> list Event -> World -> Prop :=
  fun w _ w' => Q w w'.

(** The delays slept and the documents requested in a trace. *)
Definition sleeps (evs : list Event) : list Z :=
  omap (fun ev => match ev with Sleep d => Some d | _ => None end) evs.

Definition send_requests (evs : list Event) : list Request :=
  omap (fun ev => match ev with
                  | Api (SendDocument c p d cap) _ => Some (SendDocument c p d cap)
                  | _ => None
                  end) evs.

Definition document_request cfg env (file_path caption : string)
    (part_number total_parts : option Z) (content : bytes) : Request :=
  SendDocument (CHAT_ID cfg) file_path content
    (escaped_caption env caption part_number total_parts).

Definition error_notice (file_path : string) : string :=
  "Error sending file: " +:+ file_path +:+ ". Check logs.".

(** The artifact handed to the transport for a file. *)
Definition artifact cfg env (file_path : string) (content : bytes) : bytes :=
  if sent_as_is cfg file_path then content
  else zip_write env (compression cfg)
         (if ENABLE_ENCRYPTION cfg then Some (ZIP_PASSWORD cfg) else None)
         (basename file_path) content.

(** What deliver does with the result of the send. *)
Definition recorded cfg (file_path file_hash : string) (original_size sent_size : Z)
    (ws w' : World) : Prop :=
  file_history w'
  = <[file_path := new_record cfg file_hash (file_counter ws + 1) original_size sent_size]>
      (file_history ws)
  /\ disk_history w' = file_history w'
  /\ file_counter w' = file_counter ws + 1.

(** No record has an id above the counter. *)
Definition counter_dominates (w : World) : Prop :=
  forall path r, file_history w !! path = Some r -> get_file_id r <= file_counter w.

(** No two paths share an id. *)
Definition unique_ids (history : gmap string FileRecord) : Prop :=
  forall p q r s,
    history !! p = Some r -> history !! q = Some s ->
    get_file_id r = get_file_id s -> p = q.

(** The two facts carried through a whole run. *)
Definition ids_in_order (w : World) : Prop :=
  counter_dominates w /\ unique_ids (file_history w).

(** The blocks the loop of split_and_send_zip reads from an archive, in
    order: blocks of [chunk_size] bytes, the last one possibly shorter. *)
Fixpoint chunks_from (iters : nat) (chunk_size : Z) (rest : bytes) : list bytes :=
  match iters with
  | O => []
  | S iters' =>
      let (chunk, rest') := read chunk_size rest in
      match chunk with
      | [] => []
      | _ :: _ => chunk :: chunks_from iters' chunk_size rest'
      end
  end.

Definition chunks (chunk_size : Z) (data : bytes) : list bytes :=
  chunks_from (S (length data)) chunk_size data.

(** The value of [total_parts]. *)
Definition total_parts_of (size chunk_size : Z) : Z :=
  size / chunk_size + (if size mod chunk_size =? 0 then 0 else 1).

Definition is_send_attempt (ev : Event) : Prop :=
  match ev with
  | Api rq _ => is_document rq
  | _ => False
  end.

(** A document the transport refused with an error other than flood
    control. *)
Definition is_terminal_failure (ev : Event) : Prop :=
  match ev with
  | Api (SendDocument _ _ _ _) (Fails e) => is_flood_control e = false
  | _ => False
  end.

(** No document is sent. *)
Definition quiet (evs : list Event) : Prop := Forall (fun ev => ~ is_send_attempt ev) evs.

(** No send fails terminally. *)
Definition clean (evs : list Event) : Prop :=
  Forall (fun ev => ~ is_terminal_failure ev) evs.

(** A terminal failure, if there is one, is the last send attempt. *)
Definition disciplined (evs : list Event) : Prop :=
  clean evs
  \/ exists pre ev post,
       evs = pre ++ ev :: post /\ clean pre /\ is_terminal_failure ev /\ quiet post.

(** Steps that send no document are quiet. *)
Definition quietly : World -> list Event -> World -> Prop := fun _ evs _ => quiet evs.

Definition sent_ok (evs : list Event) (rq : Request) : Prop :=
  exists r, Api rq (Ok r) ∈ evs.

(** The request that sends part [i] of [n]. *)
Definition part_request cfg env (temp_dir base_name : string) (total_parts i : Z)
    (chunk : bytes) : Request :=
  document_request cfg env (chunk_name temp_dir base_name i)
    (part_caption base_name i) (Some i) (Some total_parts) chunk.

(** The archive that is split: the file itself, or its zip when
    split_and_send_zip makes one. *)
Definition split_input cfg env (file_path : string) (skip_zip : bool) (content : bytes)
    : bytes :=
  if zips_here cfg file_path skip_zip
  then zip_write env (compression cfg)
         (if ENABLE_ENCRYPTION cfg then Some (ZIP_PASSWORD cfg) else None)
         (basename file_path) content
  else content.

(** What a successful split has delivered. *)
Definition parts_delivered cfg env (file_path : string) (skip_zip : bool) (w : World)
    (evs : list Event) (size : Z) : Prop :=
  exists content,
    fs w !! file_path = Some content
    /\ size = Z.of_nat (length content)
    /\ MAX_FILE_SIZE cfg <> 0
    /\ forall i chunk,
         chunks (MAX_FILE_SIZE cfg) (split_input cfg env file_path skip_zip content) !! i
         = Some chunk ->
         sent_ok evs
           (part_request cfg env (mkdtemp env (temp_count w)) (basename file_path)
              (total_parts_of
                 (Z.of_nat (length (split_input cfg env file_path skip_zip content)))
                 (MAX_FILE_SIZE cfg))
              (1 + Z.of_nat i) chunk).

(** What a successful send of an artifact has delivered: the artifact in
    one document, or every block of it when it is larger than
    [MAX_FILE_SIZE]. *)
Definition artifact_delivered cfg env (send_path base_name : string) (w : World)
    (evs : list Event) : Prop :=
  exists art,
    fs w !! send_path = Some art
    /\ if Z.of_nat (length art) >? MAX_FILE_SIZE cfg
       then parts_delivered cfg env send_path (endswith (lower send_path) ".zip") w evs
              (Z.of_nat (length art))
       else sent_ok evs
              (document_request cfg env send_path
                 ("File: " +:+ base_name +:+ nl +:+ encryption_status cfg)
                 None None art).

(** The artifact of a file has been accepted by the transport: whole, or
    block by block, each block under its part number and the total. *)
Definition fully_delivered cfg env (file_path : string) (content : bytes)
    (evs : list Event) : Prop :=
  let art := artifact cfg env file_path content in
  if Z.of_nat (length art) >? MAX_FILE_SIZE cfg then
    MAX_FILE_SIZE cfg <> 0
    /\ exists temp_dir send_path,
         forall i chunk,
           chunks (MAX_FILE_SIZE cfg) art !! i = Some chunk ->
           sent_ok evs
             (part_request cfg env temp_dir (basename send_path)
                (total_parts_of (Z.of_nat (length art)) (MAX_FILE_SIZE cfg))
                (1 + Z.of_nat i) chunk)
  else
    exists send_path,
      sent_ok evs
        (document_request cfg env send_path
           ("File: " +:+ basename file_path +:+ nl +:+ encryption_status cfg)
           None None art).

Definition accepting (env : Env) : Prop := forall m n, exists r, reply env m n = Ok r.

(** The text messages of a trace, with the chat they went to. *)
Definition text_messages (evs : list Event) : list (Z * string) :=
  omap (fun ev => match ev with
                  | Api (SendMessage chat_id text) _ => Some (chat_id, text)
                  | _ => None
                  end) evs.

(** The requests for the parts, numbered from [first]. *)
Fixpoint part_requests cfg env (temp_dir base_name : string) (total_parts first : Z)
    (blocks : list bytes) : list Request :=
  match blocks with
  | [] => []
  | block :: rest =>
      part_request cfg env temp_dir base_name total_parts first block
      :: part_requests cfg env temp_dir base_name total_parts (first + 1) rest
  end.

(** ** Further vocabulary *)

(** The documents handed to the transport in a trace, and all its
    requests. *)
Definition documents (evs : list Event) : list bytes :=
  omap (fun ev => match ev with
                  | Api (SendDocument _ _ document _) _ => Some document
                  | _ => None
                  end) evs.

(** What send_file may ask of the transport when it is to send
    [file_path] from the state [w]. *)
Definition may_request cfg env (w : World) (file_path caption : string)
    (part_number total_parts : option Z) (rq : Request) : Prop :=
  match rq with
  | SendDocument chat_id path document text =>
      chat_id = CHAT_ID cfg /\ path = file_path
      /\ fs w !! file_path = Some document
      /\ text = escaped_caption env caption part_number total_parts
  | SendMessage chat_id text =>
      chat_id = CHAT_ID cfg /\ text = error_notice file_path
  | DeleteMessage chat_id notice =>
      chat_id = CHAT_ID cfg /\ error_messages w !! file_path = Some notice
  | GetMe => ENABLE_FORWARD cfg = true
  | GetChatMember chat_id _ =>
      ENABLE_FORWARD cfg = true /\ chat_id = FORWARD_CHAT_ID cfg
  | ForwardMessage chat_id from_chat_id _ =>
      ENABLE_FORWARD cfg = true /\ chat_id = FORWARD_CHAT_ID cfg
      /\ from_chat_id = CHAT_ID cfg
  end.

(** The notice of split_and_send_zip's handler. *)
Definition processing_notice (base_name : string) : string :=
  "Error processing file: " +:+ base_name +:+ ". Check logs.".

(** No document of the trace is larger than [MAX_FILE_SIZE]. *)
Definition within_limit cfg (evs : list Event) : Prop :=
  Forall (fun document => Z.of_nat (length document) <= MAX_FILE_SIZE cfg) (documents evs).

(** The text messages of a send_reassembly_instructions that returns. *)
Definition instruction_messages cfg (base_name : string) (file_number : Z)
    : list (Z * string) :=
  (CHAT_ID cfg, reassembly_instructions cfg base_name file_number)
  :: (if (negb (FORWARD_CHAT_ID cfg =? 0) && ENABLE_FORWARD cfg)%bool
      then [(FORWARD_CHAT_ID cfg, reassembly_instructions cfg base_name file_number)]
      else []).

(** The number of parts an artifact is sent in; none when it goes out as
    one document. *)
Definition parts_of cfg (art : bytes) : Z :=
  if Z.of_nat (length art) >? MAX_FILE_SIZE cfg
  then Z.of_nat (length (chunks (MAX_FILE_SIZE cfg) art))
  else 0.

(** A path under no temporary directory. *)
Definition temp_free env (path : string) : Prop :=
  forall n, ¬ is_under (mkdtemp env n) path.

(** The names [tempfile] gives: not empty, and without a slash at the end. *)
Definition tidy_temp env : Prop :=
  forall n, mkdtemp env n <> "" /\ endswith (mkdtemp env n) "/" = false.

(** What is new in [w'] lies under the n-th temporary directory, and what
    lies under no temporary directory is as it was. *)
Definition confined env (n : nat) (w w' : World) : Prop :=
  (forall path content,
      fs w' !! path = Some content ->
      is_under (mkdtemp env n) path \/ fs w !! path = Some content)
  /\ (forall path, temp_free env path -> fs w' !! path = fs w !! path).

(** Nothing is new in [w'], and what lies under no temporary directory is
    as it was. *)
Definition unlittered env (w w' : World) : Prop :=
  (forall path content, fs w' !! path = Some content -> fs w !! path = Some content)
  /\ (forall path, temp_free env path -> fs w' !! path = fs w !! path).

(** No character of the string is a slash. *)
Definition slash_free (s : string) : Prop :=
  Forall (fun c => c <> "/"%char) (list_ascii_of_string s).

(** [d.get(k)] on a dictionary kept in insertion order. *)
Fixpoint dict_get (k : string) (d : list (string * Z)) : option Z :=
  match d with
  | [] => None
  | (k', v) :: rest => if String.eqb k' k then Some v else dict_get k rest
  end.

(** The paths a scan finds: what [os.walk] lists under the monitored
    folders, in order. *)
Definition walked cfg env (w : World) : list string :=
  flat_map (os_walk env (fs w)) (FOLDERS_TO_MONITOR cfg).

(** Smaller first. *)
Definition by_size (a b : string * Z) : Prop := a.2 <= b.2.

(** A path with the size of its file. *)
Definition sized_as (w : World) (path : string) (entry : string * Z) : Prop :=
  entry.1 = path
  /\ exists content, fs w !! path = Some content /\ entry.2 = Z.of_nat (length content).

(** A file of the log directory that clean_old_logs is to delete: a bot
    log of the listing, created before the deletion time. *)
Definition expired (deletion_time : Z) (listing : list string) (logs : gmap string Z)
    (path : string) : Prop :=
  exists filename file_time,
    filename ∈ listing /\ is_bot_log filename = true
    /\ path = path_join "logs" filename
    /\ logs !! path = Some file_time /\ file_time < deletion_time.

(** The transport takes every call but, possibly, a [send_message]. *)
Definition documents_taken (env : Env) : Prop :=
  forall m n, m <> send_message -> exists r, reply env m n = Ok r.

(** * Test data: small configurations, transports and file systems *)

Definition test_config : Config :=
  {| CHAT_ID := 7; FORWARD_CHAT_ID := 0; ENABLE_FORWARD := false;
     FOLDERS_TO_MONITOR := ["/watch"]; CHECK_INTERVAL := 60; MAX_FILE_SIZE := 4;
     ENABLE_ENCRYPTION := false; ZIP_PASSWORD := ""; ALLOWED_EXTENSIONS := [];
     ENABLE_CACHE := true; compression_level := Some "Default" |}.

Definition accepted (n : Z) : Reply := Ok {| id := n; status := "member" |}.

Definition flood_control (seconds : Z) : TelegramError :=
  {| response := Some {| status_code := 429; retry_after_header := Some seconds |};
     message := "Too Many Requests" |}.

Definition bad_request : TelegramError :=
  {| response := Some {| status_code := 400; retry_after_header := None |};
     message := "Bad Request" |}.

(** A transport that accepts every call. *)
Definition test_env : Env :=
  {| reply := fun _ n => accepted (Z.of_nat n + 100);
     md5 := fun content => str (Z.of_nat (length content)) +:+ ":" +:+ string_of_list_byte content;
     zip_write := fun _ _ _ content => Byte.x50 :: Byte.x4b :: content;
     escape_markdown := fun s => s;
     mkdtemp := fun n => "/tmp/tmp" +:+ str (Z.of_nat n);
     os_walk := fun files folder =>
       filter (fun p => is_under folder p) (map_to_list files).*1 |}.

Definition with_reply (env : Env) (r : Method -> nat -> Reply) : Env :=
  {| reply := r; md5 := md5 env; zip_write := zip_write env;
     escape_markdown := escape_markdown env; mkdtemp := mkdtemp env;
     os_walk := os_walk env |}.

Definition abc : bytes := [Byte.x61; Byte.x62; Byte.x63].
Definition abcdefgh : bytes :=
  [Byte.x61; Byte.x62; Byte.x63; Byte.x64; Byte.x65; Byte.x66; Byte.x67; Byte.x68].

Definition empty_world : World :=
  {| fs := ∅; file_history := ∅; file_counter := 0; file_size_cache := [];
     error_messages := ∅; disk_history := ∅; disk_size_cache := [];
     calls := fun _ => 0%nat; temp_count := 0 |}.

Definition encrypting_without_compression : Config :=
  {| CHAT_ID := 7; FORWARD_CHAT_ID := 0; ENABLE_FORWARD := false;
     FOLDERS_TO_MONITOR := ["/watch"]; CHECK_INTERVAL := 60; MAX_FILE_SIZE := 4;
     ENABLE_ENCRYPTION := true; ZIP_PASSWORD := "secret"; ALLOWED_EXTENSIONS := [];
     ENABLE_CACHE := true; compression_level := Some "None" |}.

(** The same three bytes under two paths, one of them already delivered. *)
Definition world_with_copy : World :=
  {| fs := {[ "/watch/a.txt" := abc; "/watch/copy.txt" := abc ]};
     file_history := {[ "/watch/a.txt" := new_record test_config "3:abc" 1 3 5 ]};
     file_counter := 1; file_size_cache := []; error_messages := ∅;
     disk_history := ∅; disk_size_cache := [];
     calls := fun _ => 0%nat; temp_count := 0 |}.


Definition world_with_file : World :=
  {| fs := {[ "/watch/a.txt" := abc ]};
     file_history := ∅; file_counter := 0; file_size_cache := [];
     error_messages := ∅; disk_history := ∅; disk_size_cache := [];
     calls := fun _ => 0%nat; temp_count := 0 |}.

(** The first document is refused with a terminal error, the second taken. *)
Definition refusing_once_env : Env :=
  with_reply test_env (fun m n =>
    match m, n with
    | send_document, O => Fails bad_request
    | _, _ => accepted (Z.of_nat n + 100)
    end).

Definition world_after_refusal : World :=
  {| fs := {[ "/watch/a.txt" := abc ]};
     file_history := ∅; file_counter := 0; file_size_cache := [];
     error_messages := {[ "/watch/a.txt" := 100 ]};
     disk_history := ∅; disk_size_cache := [];
     calls := fun m => match m with
                       | send_document | send_message => 1%nat
                       | _ => 0%nat
                       end;
     temp_count := 0 |}.

(** One file delivered as record 1, and a new file beside it. *)
Definition world_with_new_file : World :=
  {| fs := {[ "/watch/a.txt" := abc; "/watch/b.txt" := abcdefgh ]};
     file_history := {[ "/watch/a.txt" := new_record test_config "3:abc" 1 3 5 ]};
     file_counter := 1; file_size_cache := []; error_messages := ∅;
     disk_history := {[ "/watch/a.txt" := new_record test_config "3:abc" 1 3 5 ]};
     disk_size_cache := [];
     calls := fun _ => 0%nat; temp_count := 0 |}.

Definition ten_bytes : bytes := abcdefgh ++ [Byte.x69; Byte.x6a].

Definition world_with_archive : World :=
  {| fs := {[ "/watch/big.zip" := ten_bytes ]};
     file_history := ∅; file_counter := 0; file_size_cache := [];
     error_messages := ∅; disk_history := ∅; disk_size_cache := [];
     calls := fun _ => 0%nat; temp_count := 0 |}.

(** The document of part 2 is refused with a terminal error. *)
Definition refusing_second_env : Env :=
  with_reply test_env (fun m n =>
    match m, n with
    | send_document, S O => Fails bad_request
    | _, _ => accepted (Z.of_nat n + 100)
    end).

Definition production_config : Config :=
  {| CHAT_ID := 7; FORWARD_CHAT_ID := 0; ENABLE_FORWARD := false;
     FOLDERS_TO_MONITOR := ["/watch"]; CHECK_INTERVAL := 60;
     MAX_FILE_SIZE := MAX_FILE_SIZE_45MB;
     ENABLE_ENCRYPTION := false; ZIP_PASSWORD := ""; ALLOWED_EXTENSIONS := [];
     ENABLE_CACHE := true; compression_level := Some "default" |}.

(** An accepting transport whose archiver yields [zipped]. *)
Definition archive_env (zipped : bytes) : Env :=
  {| reply := fun _ n => accepted (Z.of_nat n + 100);
     md5 := fun _ => "2f282b84e7e608d5852449ed940bfc51";
     zip_write := fun _ _ _ _ => zipped;
     escape_markdown := fun s => s;
     mkdtemp := fun n => "/tmp/tmp" +:+ str (Z.of_nat n);
     os_walk := fun _ _ => [] |}.

Definition world_holding (file_path : string) (content : bytes) : World :=
  {| fs := {[ file_path := content ]};
     file_history := ∅; file_counter := 0; file_size_cache := [];
     error_messages := ∅; disk_history := ∅; disk_size_cache := [];
     calls := fun _ => 0%nat; temp_count := 0 |}.

Definition hundred_mib : bytes := replicate (Z.to_nat (100 * 1024 * 1024)) Byte.x00.
Definition sixty_mib : bytes := replicate (Z.to_nat (60 * 1024 * 1024)) Byte.x50.

(** A size cache left by an earlier run still lists a file that is gone;
    a larger, new file waits behind it in the sorted order. *)
Definition world_with_stale_cache : World :=
  {| fs := {[ "/watch/b.txt" := abcdefgh ]};
     file_history := ∅; file_counter := 0;
     file_size_cache := [("/watch/gone.txt", 1)];
     error_messages := ∅; disk_history := ∅;
     disk_size_cache := [("/watch/gone.txt", 1)];
     calls := fun _ => 0%nat; temp_count := 0 |}.

(** Forwarding switched on, to chat 9. *)
Definition forwarding_config : Config :=
  {| CHAT_ID := 7; FORWARD_CHAT_ID := 9; ENABLE_FORWARD := true;
     FOLDERS_TO_MONITOR := ["/watch"]; CHECK_INTERVAL := 60; MAX_FILE_SIZE := 4;
     ENABLE_ENCRYPTION := false; ZIP_PASSWORD := ""; ALLOWED_EXTENSIONS := [];
     ENABLE_CACHE := true; compression_level := Some "Default" |}.

(** The transport takes documents and messages but fails on [get_me]. *)
Definition no_forward_env : Env :=
  with_reply test_env (fun m n =>
    match m with
    | get_me => Fails bad_request
    | _ => accepted (Z.of_nat n + 100)
    end).

(** Every document is answered by flood control. *)
Definition always_flooding_env : Env :=
  with_reply test_env (fun m n =>
    match m with
    | send_document => Fails (flood_control 2)
    | _ => accepted (Z.of_nat n + 100)
    end).

(** No message can be deleted. *)
Definition delete_refusing_env : Env :=
  with_reply test_env (fun m n =>
    match m with
    | delete_message => Fails bad_request
    | _ => accepted (Z.of_nat n + 100)
    end).

(** The first deletion is answered by flood control. *)
Definition delete_flooding_env : Env :=
  with_reply test_env (fun m n =>
    match m, n with
    | delete_message, O => Fails (flood_control 3)
    | _, _ => accepted (Z.of_nat n + 100)
    end).

(** No message can be sent, documents apart. *)
Definition message_refusing_env : Env :=
  with_reply test_env (fun m n =>
    match m with
    | send_document | send_message => Fails bad_request
    | _ => accepted (Z.of_nat n + 100)
    end).

(** Only [.TXT] is allowed, written in capitals. *)
Definition capitals_config : Config :=
  {| CHAT_ID := 7; FORWARD_CHAT_ID := 0; ENABLE_FORWARD := false;
     FOLDERS_TO_MONITOR := ["/watch"]; CHECK_INTERVAL := 60; MAX_FILE_SIZE := 4;
     ENABLE_ENCRYPTION := false; ZIP_PASSWORD := ""; ALLOWED_EXTENSIONS := [".TXT"];
     ENABLE_CACHE := true; compression_level := Some "Default" |}.


(** An accepting transport with two temporary directories. *)
Definition two_dirs_env : Env :=
  {| reply := fun _ n => accepted (Z.of_nat n + 100);
     md5 := md5 test_env;
     zip_write := zip_write test_env;
     escape_markdown := fun s => s;
     mkdtemp := fun n => match n with
                         | O => "/tmp/tmp0"
                         | S O => "/tmp/tmp1"
                         | _ => "/tmp/tmp2"
                         end;
     os_walk := os_walk test_env |}.

(** A log directory: an old and a recent bot log, and the log of the
    backend, older than both; times in microseconds. *)
Definition test_logs : gmap string Z :=
  {[ "logs/bot_log.txt" := 63900000000000000;
     "logs/bot_log_old.txt" := 63800000000000000;
     "logs/flask_backend_log.txt" := 63700000000000000 ]}.

(** The first text message is refused, everything else is taken. *)
Definition instructions_refusing_env : Env :=
  with_reply test_env (fun m n =>
    match m, n with
    | send_message, O => Fails bad_request
    | _, _ => accepted (Z.of_nat n + 100)
    end).

(** * Reasoning about runs *)

(** ** Inversion of the monad's combinators *)

Lemma bind_inv {A B} (m : M A) (k : A -> M B) w evs w' out :
  bind m k w = (evs, w', out) ->
  (exists evs1 w1 a evs2,
      m w = (evs1, w1, Ret a) /\ k a w1 = (evs2, w', out) /\ evs = evs1 ++ evs2)
  \/ (exists e, m w = (evs, w', Raise e) /\ out = Raise e)
  \/ (m w = (evs, w', Diverge) /\ out = Diverge).
Proof.
  unfold bind. destruct (m w) as [[evs1 w1] [a | e |]].
  - destruct (k a w1) as [[evs2 w2] r] eqn:Hk. intros [= <- <- <-].
    left. exists evs1, w1, a, evs2. auto.
  - intros [= <- <- <-]. right. left. eauto.
  - intros [= <- <- <-]. right. right. auto.
Qed.

Lemma try_except_inv {A} (m : M A) (h : Exception -> M A) w evs w' out :
  try_except m h w = (evs, w', out) ->
  (exists evs1 w1 e evs2,
      m w = (evs1, w1, Raise e) /\ h e w1 = (evs2, w', out) /\ evs = evs1 ++ evs2)
  \/ (exists a, m w = (evs, w', Ret a) /\ out = Ret a)
  \/ (m w = (evs, w', Diverge) /\ out = Diverge).
Proof.
  unfold try_except. destruct (m w) as [[evs1 w1] [a | e |]].
  - intros [= <- <- <-]. right. left. eauto.
  - destruct (h e w1) as [[evs2 w2] r] eqn:Hh. intros [= <- <- <-].
    left. exists evs1, w1, e, evs2. auto.
  - intros [= <- <- <-]. right. right. auto.
Qed.

Lemma bind_ret_run {A B} (m : M A) (k : A -> M B) w evs1 w1 a :
  m w = (evs1, w1, Ret a) ->
  bind m k w = (let '(evs2, w2, r) := k a w1 in (evs1 ++ evs2, w2, r)).
Proof. intros H. unfold bind. now rewrite H. Qed.

Lemma bind_raise_run {A B} (m : M A) (k : A -> M B) w evs1 w1 e :
  m w = (evs1, w1, Raise e) -> bind m k w = (evs1, w1, Raise e).
Proof. intros H. unfold bind. now rewrite H. Qed.

Lemma bind_diverge_run {A B} (m : M A) (k : A -> M B) w evs1 w1 :
  m w = (evs1, w1, Diverge) -> bind m k w = (evs1, w1, Diverge).
Proof. intros H. unfold bind. now rewrite H. Qed.

(** One step of inversion on a hypothesis [H : m w = (evs, w', out)]. *)
Ltac minv H :=
  lazymatch type of H with
  | bind _ _ _ = _ =>
      let evs1 := fresh "evs" in let w1 := fresh "w" in let a := fresh "a" in
      let evs2 := fresh "evs" in let e := fresh "e" in
      let H1 := fresh "Hm" in let H2 := fresh "Hk" in
      apply bind_inv in H as
          [(evs1 & w1 & a & evs2 & H1 & H2 & ->)
          | [(e & H1 & ->) | (H1 & ->)]]
  | try_except _ _ _ = _ =>
      let evs1 := fresh "evs" in let w1 := fresh "w" in let a := fresh "a" in
      let evs2 := fresh "evs" in let e := fresh "e" in
      let H1 := fresh "Hm" in let H2 := fresh "Hh" in
      apply try_except_inv in H as
          [(evs1 & w1 & e & evs2 & H1 & H2 & ->)
          | [(a & H1 & ->) | (H1 & ->)]]
  | ret _ _ = _ => unfold ret in H; injection H as <- <- <-
  | raise _ _ = _ => unfold raise in H; injection H as <- <- <-
  | get _ _ = _ => unfold get in H; injection H as <- <- <-
  | modify _ _ = _ => unfold modify in H; injection H as <- <- <-
  | emit _ _ = _ => unfold emit in H; injection H as <- <- <-
  end.

(** ** What every run satisfies

    [keeps R m]: every run of [m] relates the state before, the events of
    the run and the state after by [R], where [R] holds of a run that does
    nothing and of two runs in sequence whenever it holds of each. The
    lemmas below carry such an [R] through the combinators and, given that
    the primitive steps satisfy it, through the program. *)

Section Keeps.

Variable R : World -> list Event -> World -> Prop.
Hypothesis R_nil : forall w, R w [] w.
Hypothesis R_app :
  forall w1 evs1 w2 evs2 w3, R w1 evs1 w2 -> R w2 evs2 w3 -> R w1 (evs1 ++ evs2) w3.

Definition keeps {A} (m : M A) : Prop :=
  forall w evs w' out, m w = (evs, w', out) -> R w evs w'.

Lemma keeps_ret {A} (a : A) : keeps (ret a).
Proof. intros w evs w' out H. minv H. apply R_nil. Qed.

Lemma keeps_raise {A} e : keeps (@raise A e).
Proof. intros w evs w' out H. minv H. apply R_nil. Qed.

Lemma keeps_get {A} (f : World -> A) : keeps (get f).
Proof. intros w evs w' out H. minv H. apply R_nil. Qed.

Lemma keeps_diverge {A} : keeps (fun w => ([], w, @Diverge A)).
Proof. intros w evs w' out [= <- <- <-]. apply R_nil. Qed.

Lemma keeps_emit ev : (forall w, R w [ev] w) -> keeps (emit ev).
Proof. intros Hev w evs w' out H. minv H. apply Hev. Qed.

Lemma keeps_modify f : (forall w, R w [] (f w)) -> keeps (modify f).
Proof. intros Hf w evs w' out H. minv H. apply Hf. Qed.

Lemma keeps_bind {A B} (m : M A) (k : A -> M B) :
  keeps m -> (forall a, keeps (k a)) -> keeps (bind m k).
Proof.
  intros Hm Hk w evs w' out H. minv H.
  - eapply R_app; [eapply Hm | eapply Hk]; eassumption.
  - eapply Hm; eassumption.
  - eapply Hm; eassumption.
Qed.

Lemma keeps_try_except {A} (m : M A) h :
  keeps m -> (forall e, keeps (h e)) -> keeps (try_except m h).
Proof.
  intros Hm Hh w evs w' out H. minv H.
  - eapply R_app; [eapply Hm | eapply Hh]; eassumption.
  - eapply Hm; eassumption.
  - eapply Hm; eassumption.
Qed.

Lemma keeps_for_each {A} (xs : list A) body :
  (forall x, keeps (body x)) -> keeps (for_each xs body).
Proof.
  intros Hbody. induction xs as [| x xs IH]; simpl.
  - apply keeps_ret.
  - apply keeps_bind; auto.
Qed.

(** *** Steps that send no document *)

Variable cfg : Config.
Variable env : Env.

Hypothesis R_call :
  forall rq rp w, ~ is_document rq -> R w [Api rq rp] (tick (method_of rq) w).
Hypothesis R_sleep : forall seconds w, R w [Sleep seconds] w.
Hypothesis R_error_messages : forall f w, R w [] (set_error_messages f w).
Hypothesis R_fs : forall f w, R w [] (set_fs f w).
Hypothesis R_next_temp : forall w, R w [] (next_temp w).

Lemma keeps_api rq : ~ is_document rq -> keeps (api env rq).
Proof. intros Hrq w evs w' out [= <- <- <-]. now apply R_call. Qed.

Lemma keeps_read_file path : keeps (read_file path).
Proof.
  intros w evs w' out H. unfold read_file in H.
  destruct (fs w !! path); injection H as <- <- <-; apply R_nil.
Qed.

Lemma keeps_getsize path : keeps (getsize path).
Proof.
  apply keeps_bind; [apply keeps_read_file | intros; apply keeps_ret].
Qed.

Lemma keeps_sleep seconds : keeps (sleep seconds).
Proof. apply keeps_emit. intros w. apply R_sleep. Qed.

Lemma keeps_forward_message msg : keeps (forward_message cfg env msg).
Proof.
  apply keeps_try_except.
  - apply keeps_bind; [now apply keeps_api | intros bot_user].
    apply keeps_bind; [now apply keeps_api | intros chat_member].
    destruct (String.eqb _ _); [apply keeps_ret |].
    apply keeps_bind; [now apply keeps_api | intros; apply keeps_ret].
  - intros [e | | |]; first [apply keeps_ret | apply keeps_raise].
Qed.

Lemma keeps_report_send_error file_path : keeps (report_send_error cfg env file_path).
Proof.
  apply keeps_bind; [now apply keeps_api | intros msg].
  apply keeps_bind; [now apply keeps_modify | intros; apply keeps_ret].
Qed.

Lemma keeps_send_reassembly_instructions base_name file_number :
  keeps (send_reassembly_instructions cfg env base_name file_number).
Proof.
  apply keeps_bind; [now apply keeps_api | intros _].
  destruct (_ && _)%bool; [| apply keeps_ret].
  apply keeps_bind; [now apply keeps_api | intros; apply keeps_ret].
Qed.

Lemma keeps_send_error_message base_name :
  keeps (send_error_message cfg env base_name).
Proof.
  apply keeps_bind; [now apply keeps_api | intros; apply keeps_ret].
Qed.

Lemma keeps_write_file path content : keeps (write_file path content).
Proof. now apply keeps_modify. Qed.

Lemma keeps_os_remove path : keeps (os_remove path).
Proof.
  apply keeps_bind; [apply keeps_read_file | intros; now apply keeps_modify].
Qed.

Lemma keeps_with_temp_dir {A} (body : string -> M A) :
  (forall temp_dir, keeps (body temp_dir)) -> keeps (with_temp_dir env body).
Proof.
  intros Hbody w evs w' out H. unfold with_temp_dir in H.
  destruct (body _ _) as [[evs1 w1] r] eqn:Hrun. injection H as <- <- <-.
  apply Hbody in Hrun.
  rewrite <- (app_nil_r evs1). change (evs1 ++ []) with ([] ++ evs1 ++ []).
  eapply R_app; [apply R_next_temp |]. eapply R_app; [exact Hrun | apply R_fs].
Qed.

Lemma keeps_write_zip zip_path file_path base_name :
  keeps (write_zip cfg env zip_path file_path base_name).
Proof.
  apply keeps_bind; [apply keeps_read_file | intros; apply keeps_write_file].
Qed.

Lemma keeps_create_zip_archive file_path base_name temp_dir skip_zip :
  keeps (create_zip_archive cfg env file_path base_name temp_dir skip_zip).
Proof.
  unfold create_zip_archive. destruct (zips_here _ _ _); [| apply keeps_ret].
  apply keeps_bind; [apply keeps_write_zip | intros; apply keeps_ret].
Qed.

Lemma keeps_build_send_path file_path base_name temp_dir :
  keeps (build_send_path cfg env file_path base_name temp_dir).
Proof.
  unfold build_send_path. destruct (sent_as_is _ _); [apply keeps_ret |].
  apply keeps_bind; [apply keeps_write_zip | intros; apply keeps_ret].
Qed.

Lemma keeps_count_parts size chunk_size : keeps (count_parts size chunk_size).
Proof.
  unfold count_parts. destruct (_ =? _); [apply keeps_raise | apply keeps_ret].
Qed.

(** *** Steps that send documents *)

Hypothesis R_document :
  forall chat_id file_path document caption rp w,
    R w [Api (SendDocument chat_id file_path document caption) rp] (tick send_document w).
Hypothesis R_count : forall w, R w [] (set_file_counter (Z.add 1) w).

Lemma keeps_send_file_try file_path caption part_number total_parts :
  keeps (send_file_try cfg env file_path caption part_number total_parts).
Proof.
  apply keeps_bind; [apply keeps_read_file | intros file].
  apply keeps_bind.
  { intros w evs w' out [= <- <- <-]. apply R_document. }
  intros msg. apply keeps_bind.
  { destruct (ENABLE_FORWARD cfg); [apply keeps_forward_message | apply keeps_ret]. }
  intros _. apply keeps_bind; [apply keeps_get | intros [notice |]].
  - apply keeps_bind; [now apply keeps_api | intros _].
    apply keeps_bind; [now apply keeps_modify | intros; apply keeps_ret].
  - apply keeps_ret.
Qed.

Lemma keeps_send_file fuel file_path caption part_number total_parts :
  keeps (send_file cfg env fuel file_path caption part_number total_parts).
Proof.
  induction fuel as [| fuel IH]; simpl.
  - apply keeps_diverge.
  - apply keeps_try_except; [apply keeps_send_file_try |].
    intros [e | | |]; try apply keeps_raise.
    destruct (is_flood_control e).
    + apply keeps_bind; [apply keeps_sleep | intros; apply IH].
    + apply keeps_report_send_error.
Qed.

Lemma keeps_split_loop iters fuel temp_dir base_name chunk_size total_parts
    zip_file file_number :
  keeps (split_loop cfg env iters fuel temp_dir base_name chunk_size total_parts
           zip_file file_number).
Proof.
  revert zip_file file_number.
  induction iters as [| iters IH]; intros zip_file file_number; simpl.
  - apply keeps_diverge.
  - destruct (read chunk_size zip_file) as [[| b chunk] rest]; [apply keeps_ret |].
    apply keeps_bind; [apply keeps_write_file | intros _].
    apply keeps_bind; [apply keeps_send_file | intros [|]]; [| apply keeps_ret].
    apply keeps_bind; [now apply keeps_modify | intros _; apply IH].
Qed.

Lemma keeps_split_and_send_zip_try fuel file_path base_name skip_zip :
  keeps (split_and_send_zip_try cfg env fuel file_path base_name skip_zip).
Proof.
  apply keeps_bind; [apply keeps_getsize | intros original_size].
  apply keeps_with_temp_dir. intros temp_dir.
  apply keeps_bind; [apply keeps_create_zip_archive | intros zip_path].
  apply keeps_bind; [apply keeps_getsize | intros zip_size].
  apply keeps_bind; [apply keeps_count_parts | intros total_parts].
  apply keeps_bind; [apply keeps_read_file | intros zip_file].
  apply keeps_bind; [apply keeps_split_loop | intros [file_number |]];
    [| apply keeps_ret].
  apply keeps_bind; [apply keeps_send_reassembly_instructions | intros _].
  apply keeps_bind; [| intros; apply keeps_ret].
  destruct (zips_here _ _ _); [apply keeps_os_remove | apply keeps_ret].
Qed.

Lemma keeps_split_and_send_zip fuel file_path skip_zip :
  keeps (split_and_send_zip cfg env fuel file_path skip_zip).
Proof.
  apply keeps_try_except; [apply keeps_split_and_send_zip_try |].
  intros e. apply keeps_bind; [apply keeps_send_error_message | intros; apply keeps_ret].
Qed.

Lemma keeps_send_artifact fuel send_path base_name :
  keeps (send_artifact cfg env fuel send_path base_name).
Proof.
  apply keeps_bind; [apply keeps_getsize | intros send_size].
  destruct (_ >? _).
  - destruct (endswith _ _); apply keeps_split_and_send_zip.
  - apply keeps_bind; [apply keeps_send_file | intros success].
    apply keeps_bind; [apply keeps_getsize | intros; apply keeps_ret].
Qed.

(** *** The scan and the scheduling loop, given that process_file keeps [R] *)

Hypothesis R_size_cache : forall f w, R w [] (set_file_size_cache f w).
Hypothesis R_disk_size_cache : forall c w, R w [] (set_disk_size_cache c w).

Lemma keeps_walk_folders : keeps (walk_folders cfg env).
Proof.
  apply keeps_bind; [apply keeps_get | intros; apply keeps_ret].
Qed.

Lemma keeps_with_sizes paths : keeps (with_sizes paths).
Proof.
  induction paths as [| p paths IH]; simpl; [apply keeps_ret |].
  apply keeps_bind; [apply keeps_getsize | intros size].
  apply keeps_bind; [apply IH | intros; apply keeps_ret].
Qed.

Lemma keeps_build_file_size_cache : keeps (build_file_size_cache cfg env).
Proof.
  apply keeps_bind; [apply keeps_walk_folders | intros paths].
  apply keeps_bind; [| intros _; now apply keeps_modify].
  apply keeps_for_each. intros file_path.
  apply keeps_bind; [apply keeps_getsize | intros; now apply keeps_modify].
Qed.

Lemma keeps_sorted_files : keeps (sorted_files cfg env).
Proof.
  unfold sorted_files. destruct (ENABLE_CACHE cfg).
  - apply keeps_bind; [apply keeps_build_file_size_cache | intros _].
    apply keeps_bind; [apply keeps_get | intros; apply keeps_ret].
  - apply keeps_bind; [apply keeps_walk_folders | intros paths].
    apply keeps_bind; [apply keeps_with_sizes | intros; apply keeps_ret].
Qed.

Hypothesis R_process_file :
  forall fuel file_path, keeps (process_file cfg env fuel file_path).

Lemma keeps_cycle fuel : keeps (cycle cfg env fuel).
Proof.
  apply keeps_bind; [apply keeps_sorted_files | intros files].
  apply keeps_bind; [| intros; apply keeps_sleep].
  apply keeps_for_each. intros file_path. apply R_process_file.
Qed.

Lemma keeps_main_loop cycles fuel : keeps (main_loop cfg env cycles fuel).
Proof.
  induction cycles as [| cycles IH]; simpl; [apply keeps_diverge |].
  apply keeps_bind; [| intros; apply IH].
  apply keeps_try_except; [apply keeps_cycle | intros; apply keeps_sleep].
Qed.

End Keeps.

Lemma history_untouched_refl w : history_untouched w w.
Proof. unfold history_untouched. auto with zarith. Qed.

Lemma history_untouched_trans w1 w2 w3 :
  history_untouched w1 w2 -> history_untouched w2 w3 -> history_untouched w1 w3.
Proof.
  unfold history_untouched. intros (H1 & H2 & H3) (H4 & H5 & H6).
  repeat split; [congruence | congruence | lia].
Qed.

(** Closes the side conditions of the [keeps] lemmas for such relations. *)
Ltac frame :=
  unfold on_states, history_untouched, same_files; intros; simpl in *;
  repeat match goal with H : _ /\ _ |- _ => destruct H end;
  repeat split; first [reflexivity | congruence | lia].

(** ** Start-up validation *)

(** C7. With encryption enabled and compression level [none] (in any
    letter case) the script stops with a [ValueError] before anything else
    happens: no event, and the state is untouched. For every other
    combination of the two settings the check passes. *)
Theorem startup_validation (cfg : Config) (env : Env) :
  (ENABLE_ENCRYPTION cfg = true -> COMPRESSION_LEVEL cfg = "none" ->
   forall cycles fuel w, exists msg,
     program cfg env cycles fuel w = ([], w, Raise (ValueError msg)))
  /\ (ENABLE_ENCRYPTION cfg = false \/ COMPRESSION_LEVEL cfg <> "none" ->
      forall w, validate_config cfg w = ([], w, Ret tt)).
Proof.
  split.
  - intros Henc Hnone cycles fuel w. eexists.
    unfold program. apply bind_raise_run.
    unfold validate_config. rewrite Henc, Hnone. reflexivity.
  - intros Hother w. unfold validate_config.
    destruct Hother as [Henc | Hlevel].
    + now rewrite Henc.
    + destruct (String.eqb_spec (COMPRESSION_LEVEL cfg) "none") as [Heq | _];
        [contradiction |].
      now rewrite andb_false_r.
Qed.

Lemma startup_validation_witness :
  (exists msg, program encrypting_without_compression test_env 3 3 empty_world
               = ([], empty_world, Raise (ValueError msg)))
  /\ validate_config test_config empty_world = ([], empty_world, Ret tt).
Proof.
  split.
  - apply (proj1 (startup_validation encrypting_without_compression test_env));
      reflexivity.
  - apply (proj2 (startup_validation test_config test_env)).
    right. vm_compute. discriminate.
Defined.

(** ** The two checks of process_file *)

Lemma any_hash_match_true history file_hash :
  any_hash_match history file_hash = true <->
  exists path r, history !! path = Some r /\ hash r = file_hash.
Proof.
  unfold any_hash_match. rewrite existsb_exists. split.
  - intros (r & Hin & Heq). apply list_elem_of_In in Hin.
    apply list_elem_of_fmap in Hin as ([path r'] & -> & Hin).
    apply elem_of_map_to_list in Hin. apply String.eqb_eq in Heq. eauto.
  - intros (path & r & Hlook & Heq). exists r. split.
    + apply list_elem_of_In, list_elem_of_fmap. exists (path, r). split; [done |].
      now apply elem_of_map_to_list.
    + now apply String.eqb_eq.
Qed.

Lemma send_file_history_untouched cfg env fuel file_path caption part_number total_parts :
  keeps (on_states history_untouched)
    (send_file cfg env fuel file_path caption part_number total_parts).
Proof. apply keeps_send_file; frame. Qed.

Lemma send_file_same_files cfg env fuel file_path caption part_number total_parts :
  keeps (on_states same_files)
    (send_file cfg env fuel file_path caption part_number total_parts).
Proof. apply keeps_send_file; frame. Qed.

Lemma split_and_send_zip_history_untouched cfg env fuel file_path skip_zip :
  keeps (on_states history_untouched)
    (split_and_send_zip cfg env fuel file_path skip_zip).
Proof. apply keeps_split_and_send_zip; frame. Qed.

Lemma build_send_path_history_untouched cfg env file_path base_name temp_dir :
  keeps (on_states history_untouched)
    (build_send_path cfg env file_path base_name temp_dir).
Proof. apply keeps_build_send_path; frame. Qed.

Lemma send_artifact_history_untouched cfg env fuel send_path base_name :
  keeps (on_states history_untouched) (send_artifact cfg env fuel send_path base_name).
Proof. apply keeps_send_artifact; frame. Qed.

(** ** Running the first steps of process_file *)

Lemma bind_silent_run {A B} (m : M A) (k : A -> M B) w w1 a :
  m w = ([], w1, Ret a) -> bind m k w = k a w1.
Proof.
  intros H. unfold bind. rewrite H. now destruct (k a w1) as [[evs2 w2] r].
Qed.

Lemma read_file_run path content w :
  fs w !! path = Some content -> read_file path w = ([], w, Ret content).
Proof. intros H. unfold read_file. now rewrite H. Qed.

Lemma getsize_run path content w :
  fs w !! path = Some content ->
  getsize path w = ([], w, Ret (Z.of_nat (length content))).
Proof.
  intros H. unfold getsize. now rewrite (bind_silent_run _ _ w w content (read_file_run _ _ _ H)).
Qed.

Lemma calculate_md5_run env path content w :
  fs w !! path = Some content ->
  calculate_md5 env path w = ([], w, Ret (md5 env content)).
Proof.
  intros H. unfold calculate_md5.
  now rewrite (bind_silent_run _ _ w w content (read_file_run _ _ _ H)).
Qed.

(** process_file on a file that exists, up to the two checks. *)
Lemma process_file_checks cfg env fuel file_path content w :
  fs w !! file_path = Some content ->
  process_file cfg env fuel file_path w
  = (if any_hash_match (file_history w) (md5 env content) then ret tt
     else if extension_rejected cfg (basename file_path) then ret tt
     else
       with_temp_dir env (fun temp_dir =>
         send_path <- build_send_path cfg env file_path (basename file_path) temp_dir ;;
         history <- get file_history ;;
         if new_or_modified history file_path (md5 env content)
         then deliver cfg env fuel file_path send_path (basename file_path)
                (md5 env content) (Z.of_nat (length content))
         else ret tt)) w.
Proof.
  intros Hfile. unfold process_file.
  rewrite (bind_silent_run _ _ w w _ (calculate_md5_run env _ _ _ Hfile)).
  rewrite (bind_silent_run _ _ w w _ (getsize_run _ _ _ Hfile)).
  now rewrite (bind_silent_run _ _ w w (file_history w) eq_refl).
Qed.

Lemma global_miss_is_path_miss history file_path file_hash :
  any_hash_match history file_hash = false ->
  new_or_modified history file_path file_hash = true.
Proof.
  intros Hnone. unfold new_or_modified.
  destruct (history !! file_path) as [r |] eqn:Hlook; [| reflexivity].
  destruct (String.eqb_spec (hash r) file_hash) as [Heq | Hne]; [| reflexivity].
  assert (Hsome : any_hash_match history file_hash = true)
    by (apply any_hash_match_true; eauto).
  congruence.
Qed.

(** Past the two skips, process_file is the archive step followed by the
    delivery. *)
Lemma process_file_delivers cfg env fuel file_path content w :
  fs w !! file_path = Some content ->
  any_hash_match (file_history w) (md5 env content) = false ->
  extension_rejected cfg (basename file_path) = false ->
  process_file cfg env fuel file_path w
  = with_temp_dir env (fun temp_dir =>
      send_path <- build_send_path cfg env file_path (basename file_path) temp_dir ;;
      deliver cfg env fuel file_path send_path (basename file_path)
        (md5 env content) (Z.of_nat (length content))) w.
Proof.
  intros Hfile Hnone Hext.
  rewrite (process_file_checks _ _ _ _ _ _ Hfile), Hnone, Hext.
  unfold with_temp_dir.
  set (temp_dir := mkdtemp env (temp_count w)).
  assert (Hsame : forall w0, file_history w0 = file_history w ->
    (send_path <- build_send_path cfg env file_path (basename file_path) temp_dir ;;
     history <- get file_history ;;
     if new_or_modified history file_path (md5 env content)
     then deliver cfg env fuel file_path send_path (basename file_path)
            (md5 env content) (Z.of_nat (length content))
     else ret tt) w0
    = (send_path <- build_send_path cfg env file_path (basename file_path) temp_dir ;;
       deliver cfg env fuel file_path send_path (basename file_path)
         (md5 env content) (Z.of_nat (length content))) w0).
  { intros w0 Hw0. unfold bind at 1 3.
    destruct (build_send_path cfg env file_path (basename file_path) temp_dir w0)
      as [[evs1 w1] [send_path | e |]] eqn:Hbuild; try reflexivity.
    apply build_send_path_history_untouched in Hbuild as (Hkeep & _).
    rewrite (bind_silent_run _ _ w1 w1 (file_history w1) eq_refl).
    rewrite Hkeep, Hw0, (global_miss_is_path_miss _ _ _ Hnone). reflexivity. }
  now rewrite Hsame.
Qed.

(** C10. Past the global check the per-path condition cannot be false: a
    record of the file's own path with the computed hash would already have
    matched globally. So a file that is neither a duplicate nor filtered out
    always goes on to the delivery; the branch that builds the archive and
    sends nothing is never taken. *)
Theorem per_path_check_redundant (cfg : Config) (env : Env) :
  (forall history file_path file_hash,
      any_hash_match history file_hash = false ->
      new_or_modified history file_path file_hash = true)
  /\ (forall fuel file_path content w,
      fs w !! file_path = Some content ->
      any_hash_match (file_history w) (md5 env content) = false ->
      extension_rejected cfg (basename file_path) = false ->
      process_file cfg env fuel file_path w
      = with_temp_dir env (fun temp_dir =>
          send_path <- build_send_path cfg env file_path (basename file_path) temp_dir ;;
          deliver cfg env fuel file_path send_path (basename file_path)
            (md5 env content) (Z.of_nat (length content))) w).
Proof.
  split.
  - apply global_miss_is_path_miss.
  - intros fuel file_path content w. apply process_file_delivers.
Qed.

Lemma per_path_check_redundant_witness :
  new_or_modified
    {[ "/watch/a.txt" := new_record test_config "3:abc" 1 3 5 ]}
    "/watch/a.txt" "8:abcdefgh" = true.
Proof.
  apply (proj1 (per_path_check_redundant test_config test_env)).
  vm_compute. reflexivity.
Defined.

(** C2. A file whose computed hash equals the stored hash of any record, of
    whatever path, is skipped: process_file returns at once, with no event
    (nothing is archived or sent) and the state as it was. *)
Theorem global_dedup_skips (cfg : Config) (env : Env) fuel file_path content
    other_path r w :
  fs w !! file_path = Some content ->
  file_history w !! other_path = Some r ->
  hash r = md5 env content ->
  process_file cfg env fuel file_path w = ([], w, Ret tt).
Proof.
  intros Hfile Hrec Hhash.
  rewrite (process_file_checks _ _ _ _ _ _ Hfile).
  assert (Hany : any_hash_match (file_history w) (md5 env content) = true)
    by (apply any_hash_match_true; eauto).
  now rewrite Hany.
Qed.

Lemma global_dedup_skips_witness :
  process_file test_config test_env 5 "/watch/copy.txt" world_with_copy
  = ([], world_with_copy, Ret tt).
Proof.
  apply (global_dedup_skips test_config test_env 5 "/watch/copy.txt" abc
           "/watch/a.txt" (new_record test_config "3:abc" 1 3 5));
    vm_compute; reflexivity.
Defined.

(** ** Flood control *)

Lemma sleeps_app evs1 evs2 : sleeps (evs1 ++ evs2) = sleeps evs1 ++ sleeps evs2.
Proof. apply omap_app. Qed.

Lemma send_requests_app evs1 evs2 :
  send_requests (evs1 ++ evs2) = send_requests evs1 ++ send_requests evs2.
Proof. apply omap_app. Qed.

(** forward_message always returns; it only calls the three methods it
    needs, and leaves the tracked notices alone. *)
Lemma forward_message_run cfg env msg w :
  exists evs w',
    forward_message cfg env msg w = (evs, w', Ret tt)
    /\ sleeps evs = [] /\ send_requests evs = []
    /\ error_messages w' = error_messages w
    /\ fs w' = fs w
    /\ calls w' send_document = calls w send_document
    /\ calls w' send_message = calls w send_message
    /\ calls w' delete_message = calls w delete_message.
Proof.
  unfold forward_message, swallow_telegram_error, try_except, bind, api, ret. simpl.
  destruct (reply env get_me (calls w get_me)) as [bot_user | e1]; simpl.
  - destruct (reply env get_chat_member _) as [chat_member | e2]; simpl.
    + destruct (String.eqb (status chat_member) "kicked"); simpl.
      * do 2 eexists. split; [reflexivity |]. simpl. tauto.
      * destruct (reply env forward_message_ _) as [fwd | e3]; simpl;
          do 2 eexists; (split; [reflexivity |]); simpl; tauto.
    + do 2 eexists. split; [reflexivity |]. simpl. tauto.
  - do 2 eexists. split; [reflexivity |]. simpl. tauto.
Qed.

(** ** One attempt of send_file

    The three ways the [try] block of send_file can go, by what the file
    system and the transport answer. *)

Lemma send_file_try_missing cfg env file_path caption part_number total_parts w :
  fs w !! file_path = None ->
  send_file_try cfg env file_path caption part_number total_parts w
  = ([], w, Raise (FileNotFoundError file_path)).
Proof.
  intros Hfile. unfold send_file_try. apply bind_raise_run.
  unfold read_file. now rewrite Hfile.
Qed.

Lemma send_file_try_refused cfg env file_path caption part_number total_parts w content e :
  fs w !! file_path = Some content ->
  reply env send_document (calls w send_document) = Fails e ->
  send_file_try cfg env file_path caption part_number total_parts w
  = ([Api (document_request cfg env file_path caption part_number total_parts content)
          (Fails e)],
     tick send_document w, Raise (TelegramErr e)).
Proof.
  intros Hfile Hreply. unfold send_file_try.
  rewrite (bind_silent_run _ _ w w content (read_file_run _ _ _ Hfile)).
  apply bind_raise_run. unfold api. simpl. now rewrite Hreply.
Qed.

(** The transport took the document: the message is forwarded if that is
    enabled, and a tracked notice for the path is deleted. *)
Lemma send_file_try_accepted cfg env file_path caption part_number total_parts w content msg :
  fs w !! file_path = Some content ->
  reply env send_document (calls w send_document) = Ok msg ->
  exists fevs w1,
    sleeps fevs = [] /\ send_requests fevs = []
    /\ error_messages w1 = error_messages w /\ fs w1 = fs w
    /\ calls w1 send_document = S (calls w send_document)
    /\ calls w1 send_message = calls w send_message
    /\ calls w1 delete_message = calls w delete_message
    /\ (ENABLE_FORWARD cfg = false -> fevs = [] /\ w1 = tick send_document w)
    /\ send_file_try cfg env file_path caption part_number total_parts w
       = match error_messages w !! file_path with
         | None =>
             (Api (document_request cfg env file_path caption part_number total_parts
                     content) (Ok msg) :: fevs, w1, Ret true)
         | Some notice =>
             let rp := reply env delete_message (calls w delete_message) in
             (Api (document_request cfg env file_path caption part_number total_parts
                     content) (Ok msg) :: fevs
                ++ [Api (DeleteMessage (CHAT_ID cfg) notice) rp],
              match rp with
              | Ok _ => set_error_messages (delete file_path) (tick delete_message w1)
              | Fails _ => tick delete_message w1
              end,
              match rp with
              | Ok _ => Ret true
              | Fails e => Raise (TelegramErr e)
              end)
         end.
Proof.
  intros Hfile Hreply.
  assert (Hfwd : exists fevs w1,
    (if ENABLE_FORWARD cfg then forward_message cfg env msg else ret tt)
      (tick send_document w) = (fevs, w1, Ret tt)
    /\ sleeps fevs = [] /\ send_requests fevs = []
    /\ error_messages w1 = error_messages w /\ fs w1 = fs w
    /\ calls w1 send_document = S (calls w send_document)
    /\ calls w1 send_message = calls w send_message
    /\ calls w1 delete_message = calls w delete_message
    /\ (ENABLE_FORWARD cfg = false -> fevs = [] /\ w1 = tick send_document w)).
  { destruct (ENABLE_FORWARD cfg).
    - destruct (forward_message_run cfg env msg (tick send_document w))
        as (fevs & w1 & Hrun & Hs & Hr & He & Hf & Hd & Hm & Hdel).
      exists fevs, w1. simpl in *. repeat split; auto; discriminate.
    - exists [], (tick send_document w). simpl. tauto. }
  destruct Hfwd as (fevs & w1 & Hrun & Hs & Hr & He & Hf & Hd & Hm & Hdel & Hoff).
  exists fevs, w1. repeat (split; [assumption |]).
  unfold send_file_try.
  rewrite (bind_silent_run _ _ w w content (read_file_run _ _ _ Hfile)).
  assert (Hapi : api env (document_request cfg env file_path caption part_number
                            total_parts content) w
                 = ([Api (document_request cfg env file_path caption part_number
                            total_parts content) (Ok msg)],
                    tick send_document w, Ret msg)).
  { unfold api. simpl. now rewrite Hreply. }
  unfold document_request in Hapi |- *.
  rewrite (bind_ret_run _ _ _ _ _ _ Hapi).
  rewrite (bind_ret_run _ _ _ _ _ _ Hrun).
  rewrite (bind_silent_run _ _ w1 w1 (error_messages w1 !! file_path) eq_refl).
  rewrite He.
  destruct (error_messages w !! file_path) as [notice |].
  - unfold bind, api, modify, ret. simpl. rewrite Hdel.
    destruct (reply env delete_message (calls w delete_message)); simpl;
      rewrite ?app_nil_r; reflexivity.
  - unfold ret. simpl. now rewrite app_nil_r.
Qed.

Lemma try_except_raise_run {A} (m : M A) h w evs1 w1 e :
  m w = (evs1, w1, Raise e) ->
  try_except m h w = (let '(evs2, w2, r) := h e w1 in (evs1 ++ evs2, w2, r)).
Proof. intros H. unfold try_except. now rewrite H. Qed.

Lemma try_except_ret_run {A} (m : M A) h w evs1 w1 a :
  m w = (evs1, w1, Ret a) -> try_except m h w = (evs1, w1, Ret a).
Proof. intros H. unfold try_except. now rewrite H. Qed.

(** A flood-control error is slept on and the send starts over. *)
Lemma send_file_flood cfg env fuel file_path caption part_number total_parts w content e :
  fs w !! file_path = Some content ->
  reply env send_document (calls w send_document) = Fails e ->
  is_flood_control e = true ->
  send_file cfg env (S fuel) file_path caption part_number total_parts w
  = (let '(evs, w', r) :=
       send_file cfg env fuel file_path caption part_number total_parts
         (tick send_document w) in
     (Api (document_request cfg env file_path caption part_number total_parts content)
          (Fails e) :: Sleep (retry_after e) :: evs, w', r)).
Proof.
  intros Hfile Hreply Hflood. simpl.
  rewrite (try_except_raise_run _ _ _ _ _ _
             (send_file_try_refused cfg env _ caption part_number total_parts _ _ _
                Hfile Hreply)).
  rewrite Hflood. unfold bind at 1, sleep, emit.
  now destruct (send_file _ _ _ _ _ _ _ _) as [[evs2 w2] r].
Qed.



(** ** Error notices *)

(** A terminal transport error is reported and the notice is tracked. *)
Lemma send_file_terminal cfg env fuel file_path caption part_number total_parts w content e :
  fs w !! file_path = Some content ->
  reply env send_document (calls w send_document) = Fails e ->
  is_flood_control e = false ->
  send_file cfg env (S fuel) file_path caption part_number total_parts w
  = (let rp := reply env send_message (calls w send_message) in
     ([Api (document_request cfg env file_path caption part_number total_parts content)
           (Fails e);
       Api (SendMessage (CHAT_ID cfg) (error_notice file_path)) rp],
      match rp with
      | Ok notice =>
          set_error_messages (insert file_path (id notice))
            (tick send_message (tick send_document w))
      | Fails _ => tick send_message (tick send_document w)
      end,
      match rp with
      | Ok _ => Ret false
      | Fails e' => Raise (TelegramErr e')
      end)).
Proof.
  intros Hfile Hreply Hflood. simpl.
  rewrite (try_except_raise_run _ _ _ _ _ _
             (send_file_try_refused cfg env _ caption part_number total_parts _ _ _
                Hfile Hreply)).
  rewrite Hflood. unfold report_send_error, bind, api, modify, ret, error_notice. simpl.
  destruct (reply env send_message (calls w send_message)); reflexivity.
Qed.

(** A send that returns [True] has deleted the notice tracked for its path. *)
Lemma send_file_retracts cfg env fuel :
  forall file_path caption part_number total_parts w evs w' notice,
  error_messages w !! file_path = Some notice ->
  send_file cfg env fuel file_path caption part_number total_parts w
  = (evs, w', Ret true) ->
  error_messages w' = delete file_path (error_messages w)
  /\ exists r, Api (DeleteMessage (CHAT_ID cfg) notice) (Ok r) ∈ evs.
Proof.
  induction fuel as [| fuel IH];
    intros file_path caption part_number total_parts w evs w' notice Htracked Hrun.
  - discriminate.
  - destruct (fs w !! file_path) as [content |] eqn:Hfile.
    2:{ simpl in Hrun.
        rewrite (try_except_raise_run _ _ _ _ _ _
                   (send_file_try_missing cfg env _ caption part_number total_parts _
                      Hfile)) in Hrun.
        discriminate. }
    destruct (reply env send_document (calls w send_document)) as [msg | e] eqn:Hreply.
    + destruct (send_file_try_accepted cfg env file_path caption part_number
                  total_parts w content msg Hfile Hreply)
        as (fevs & w1 & _ & _ & He & Hf & _ & _ & _ & _ & Htry).
      rewrite Htracked in Htry. simpl in Htry, Hrun.
      destruct (reply env delete_message (calls w delete_message)) as [r | e].
      * rewrite (try_except_ret_run _ _ _ _ _ _ Htry) in Hrun.
        injection Hrun as <- <-. split.
        -- simpl. now rewrite He.
        -- exists r. rewrite ?elem_of_cons, ?elem_of_app, ?elem_of_cons in *; auto.
      * rewrite (try_except_raise_run _ _ _ _ _ _ Htry) in Hrun.
        destruct (is_flood_control e).
        -- unfold bind at 1, sleep, emit in Hrun.
           destruct (send_file cfg env fuel file_path caption part_number total_parts _)
             as [[evs2 w2] r2] eqn:Hagain.
           injection Hrun as <- <- ->.
           apply IH with (notice := notice) in Hagain as (Hw & r & Hin);
             [| simpl; now rewrite He].
           split; [simpl in Hw; now rewrite Hw, He |].
           exists r. rewrite ?elem_of_cons, ?elem_of_app, ?elem_of_cons in *; auto.
        -- unfold report_send_error, bind, api, modify, ret in Hrun. simpl in Hrun.
           destruct (reply env send_message _); discriminate.
    + destruct (is_flood_control e) eqn:Hflood.
      * rewrite (send_file_flood cfg env fuel file_path caption part_number
                   total_parts w content e Hfile Hreply Hflood) in Hrun.
        destruct (send_file cfg env fuel file_path caption part_number total_parts _)
          as [[evs2 w2] r2] eqn:Hagain.
        injection Hrun as <- <- ->.
        apply IH with (notice := notice) in Hagain as (Hw & r & Hin);
          [| exact Htracked].
        split; [exact Hw |].
        exists r. rewrite ?elem_of_cons, ?elem_of_app, ?elem_of_cons in *; auto.
      * rewrite (send_file_terminal cfg env fuel file_path caption part_number
                   total_parts w content e Hfile Hreply Hflood) in Hrun.
        simpl in Hrun. destruct (reply env send_message _); discriminate.
Qed.

(** C9. A send that fails with a terminal transport error emits the error
    notice and tracks the id of the notice under the path it was asked to
    send; and whenever a later send of that path returns success, the
    tracked notice has been deleted and its entry removed. *)
Theorem error_notice_tracked_then_retracted (cfg : Config) (env : Env) :
  (forall fuel file_path caption part_number total_parts w content e notice,
      fs w !! file_path = Some content ->
      reply env send_document (calls w send_document) = Fails e ->
      is_flood_control e = false ->
      reply env send_message (calls w send_message) = Ok notice ->
      exists w',
        send_file cfg env (S fuel) file_path caption part_number total_parts w
        = ([Api (document_request cfg env file_path caption part_number total_parts
                   content) (Fails e);
            Api (SendMessage (CHAT_ID cfg) (error_notice file_path)) (Ok notice)],
           w', Ret false)
        /\ error_messages w' = <[file_path := id notice]> (error_messages w))
  /\ (forall fuel file_path caption part_number total_parts w evs w' notice,
      error_messages w !! file_path = Some notice ->
      send_file cfg env fuel file_path caption part_number total_parts w
      = (evs, w', Ret true) ->
      error_messages w' !! file_path = None
      /\ error_messages w' = delete file_path (error_messages w)
      /\ exists r, Api (DeleteMessage (CHAT_ID cfg) notice) (Ok r) ∈ evs).
Proof.
  split.
  - intros fuel file_path caption part_number total_parts w content e notice
      Hfile Hreply Hflood Hnotice.
    rewrite (send_file_terminal cfg env fuel file_path caption part_number
               total_parts w content e Hfile Hreply Hflood).
    simpl. rewrite Hnotice. eexists. split; reflexivity.
  - intros fuel file_path caption part_number total_parts w evs w' notice
      Htracked Hrun.
    destruct (send_file_retracts cfg env fuel file_path caption part_number
                total_parts w evs w' notice Htracked Hrun) as (Hw & Hdel).
    split; [rewrite Hw; apply lookup_delete_eq | auto].
Qed.

Lemma error_notice_tracked_then_retracted_witness :
  (exists w',
     send_file test_config refusing_once_env 1 "/watch/a.txt" "File: a.txt" None None
       world_with_file
     = ([Api (document_request test_config refusing_once_env "/watch/a.txt"
                "File: a.txt" None None abc) (Fails bad_request);
         Api (SendMessage 7 (error_notice "/watch/a.txt")) (accepted 100)],
        w', Ret false)
     /\ error_messages w' = <["/watch/a.txt" := 100]> ∅)
  /\ (exists evs w',
        send_file test_config refusing_once_env 1 "/watch/a.txt" "File: a.txt" None None
          world_after_refusal = (evs, w', Ret true)
        /\ error_messages w' !! "/watch/a.txt" = None
        /\ error_messages w' = delete "/watch/a.txt" (error_messages world_after_refusal)
        /\ exists r, Api (DeleteMessage 7 100) (Ok r) ∈ evs).
Proof.
  split.
  - apply (proj1 (error_notice_tracked_then_retracted test_config refusing_once_env)
             0%nat "/watch/a.txt" "File: a.txt" None None world_with_file abc
             bad_request {| id := 100; status := "member" |}); reflexivity.
  - do 2 eexists. split; [vm_compute; reflexivity |].
    apply (proj2 (error_notice_tracked_then_retracted test_config refusing_once_env)
             1%nat "/watch/a.txt" "File: a.txt" None None world_after_refusal);
      vm_compute; reflexivity.
Defined.

(** ** Paths that end in .zip *)

Lemma length_append (a b : string) :
  String.length (a +:+ b) = (String.length a + String.length b)%nat.
Proof. induction a as [| c a IH]; simpl; [reflexivity | now rewrite IH]. Qed.

Lemma substring_append_skip (a b : string) (k m : nat) :
  substring (String.length a + k) m (a +:+ b) = substring k m b.
Proof. induction a as [| c a IH]; simpl; [reflexivity | exact IH]. Qed.

Lemma endswith_append (a b suffix : string) :
  endswith b suffix = true -> endswith (a +:+ b) suffix = true.
Proof.
  unfold endswith. intros H. apply andb_true_iff in H as [Hlen Heq].
  apply Nat.leb_le in Hlen. apply andb_true_iff. split.
  - apply Nat.leb_le. rewrite length_append. lia.
  - rewrite length_append.
    replace (String.length a + String.length b - String.length suffix)%nat
      with (String.length a + (String.length b - String.length suffix))%nat by lia.
    now rewrite substring_append_skip.
Qed.

Lemma append_assoc (a b c : string) : (a +:+ b) +:+ c = a +:+ b +:+ c.
Proof.
  induction a as [| x a IH]; [reflexivity |].
  change (String x ((a +:+ b) +:+ c) = String x (a +:+ b +:+ c)). now f_equal.
Qed.

Lemma lower_append (a b : string) : lower (a +:+ b) = lower a +:+ lower b.
Proof. induction a as [| c a IH]; simpl; [reflexivity | now rewrite IH]. Qed.

Lemma path_join_ends_with_name dir name : exists pre, path_join dir name = pre +:+ name.
Proof.
  unfold path_join. destruct (String.prefix "/" name).
  - now exists "".
  - destruct (_ || _)%bool.
    + now exists dir.
    + exists (dir +:+ "/"). symmetry. apply append_assoc.
Qed.

Lemma zip_path_ends_with_zip dir base_name :
  endswith (lower (path_join dir (base_name +:+ ".zip"))) ".zip" = true.
Proof.
  destruct (path_join_ends_with_name dir (base_name +:+ ".zip")) as [pre ->].
  rewrite !lower_append. now do 2 apply endswith_append.
Qed.

(** No part is named as the archive is. *)
Lemma str_not_zip (n : Z) : str n <> "zip".
Proof. unfold str. destruct (Z.to_int n) as [[] | []]; discriminate. Qed.

Lemma format_03d_not_zip (n : Z) : format_03d n <> "zip".
Proof.
  unfold format_03d. destruct (n <? 0); [discriminate |].
  destruct (3 - String.length (str n))%nat; [apply str_not_zip | discriminate].
Qed.

Lemma append_inj_l (s a b : string) : s +:+ a = s +:+ b -> a = b.
Proof.
  induction s as [| c s IH]; [auto |].
  intros H. apply IH. now injection H.
Qed.

Lemma chunk_name_not_zip_path temp_dir base_name i :
  chunk_name temp_dir base_name i <> path_join temp_dir (base_name +:+ ".zip").
Proof.
  unfold chunk_name, path_join.
  assert (Hpre : String.prefix "/" (base_name +:+ "." +:+ format_03d i)
                 = String.prefix "/" (base_name +:+ ".zip")).
  { destruct base_name as [| c b]; [reflexivity |].
    change (String.prefix "/" (String c (b +:+ "." +:+ format_03d i))
            = String.prefix "/" (String c (b +:+ ".zip"))).
    cbn [String.prefix]. destruct (ascii_dec _ _); [| reflexivity].
    generalize (b +:+ "." +:+ format_03d i) (b +:+ ".zip").
    now intros [] []. }
  rewrite Hpre.
  assert (Hneq : base_name +:+ "." +:+ format_03d i <> base_name +:+ ".zip").
  { intros H. apply append_inj_l in H. injection H as H.
    now apply format_03d_not_zip in H. }
  destruct (String.prefix "/" (base_name +:+ ".zip")); [exact Hneq |].
  destruct (_ || _)%bool; intros H.
  - now apply append_inj_l in H.
  - now do 2 apply append_inj_l in H.
Qed.

(** ** The shape of a run of process_file *)

Lemma write_zip_run cfg env zip_path file_path base_name content w :
  fs w !! file_path = Some content ->
  write_zip cfg env zip_path file_path base_name w
  = ([], set_fs (insert zip_path
                   (zip_write env (compression cfg)
                      (if ENABLE_ENCRYPTION cfg then Some (ZIP_PASSWORD cfg) else None)
                      base_name content)) w, Ret tt).
Proof.
  intros Hfile. unfold write_zip.
  now rewrite (bind_silent_run _ _ w w content (read_file_run _ _ _ Hfile)).
Qed.

Lemma build_send_path_run cfg env file_path temp_dir content w :
  fs w !! file_path = Some content ->
  exists send_path wb,
    build_send_path cfg env file_path (basename file_path) temp_dir w
    = ([], wb, Ret send_path)
    /\ fs wb !! send_path = Some (artifact cfg env file_path content)
    /\ history_untouched w wb
    /\ error_messages wb = error_messages w
    /\ calls wb = calls w
    /\ zips_here cfg send_path (endswith (lower send_path) ".zip") = false.
Proof.
  intros Hfile. unfold build_send_path, artifact.
  destruct (sent_as_is cfg file_path) eqn:Hasis.
  - exists file_path, w. repeat split; auto using history_untouched_refl.
    + apply history_untouched_refl.
    + unfold sent_as_is in Hasis. unfold zips_here.
      destruct (String.eqb (COMPRESSION_LEVEL cfg) "none");
        destruct (endswith (lower file_path) ".zip"); simpl in *;
        reflexivity || discriminate.
  - eexists _, _. split.
    + now rewrite (bind_silent_run _ _ _ _ _
                     (write_zip_run cfg env _ _ (basename file_path) _ _ Hfile)).
    + simpl. split; [apply lookup_insert_eq |].
      repeat split; try (reflexivity || lia).
      unfold zips_here. now rewrite zip_path_ends_with_zip.
Qed.

Lemma deliver_cases cfg env fuel file_path send_path base_name file_hash original_size
    w evs w' out :
  deliver cfg env fuel file_path send_path base_name file_hash original_size w
  = (evs, w', out) ->
  exists evs_s ws sent,
    send_artifact cfg env fuel send_path base_name w = (evs_s, ws, sent)
    /\ match sent with
       | Ret (true, sent_size) =>
           evs = evs_s ++ [PostEvent "success" base_name (file_counter ws + 1)
                             file_hash original_size]
           /\ recorded cfg file_path file_hash original_size sent_size ws w'
           /\ fs w' = fs ws
           /\ out = Ret tt
       | Ret (false, _) =>
           evs = evs_s ++ [PostEvent "failure" base_name (file_counter ws)
                             file_hash original_size]
           /\ w' = ws /\ out = Ret tt
       | Raise e => evs = evs_s /\ w' = ws /\ out = Raise e
       | Diverge => evs = evs_s /\ w' = ws /\ out = Diverge
       end.
Proof.
  unfold deliver. intros H. minv H.
  - exists evs0, w0, (Ret a). split; [assumption |].
    destruct a as [[|] sent_size]; simpl in Hk.
    + unfold record_success, save_history, send_event_to_backend, bind, modify,
        get, emit in Hk. simpl in Hk. injection Hk as <- <- <-.
      unfold recorded. simpl. rewrite Z.add_comm. repeat split; reflexivity.
    + unfold record_failure, send_event_to_backend, bind, get, emit in Hk.
      simpl in Hk. injection Hk as <- <- <-. auto.
  - exists evs, w', (Raise e). auto.
  - exists evs, w', Diverge. auto.
Qed.

Lemma with_temp_dir_inv env {A} (body : string -> M A) w evs w' out :
  with_temp_dir env body w = (evs, w', out) ->
  exists w1,
    body (mkdtemp env (temp_count w)) (next_temp w) = (evs, w1, out)
    /\ w' = set_fs (filter (fun kv => ¬ is_under (mkdtemp env (temp_count w)) kv.1)) w1.
Proof.
  unfold with_temp_dir. destruct (body _ _) as [[evs1 w1] r].
  intros [= <- <- <-]. eauto.
Qed.

(** A run of process_file either ends before anything is sent, leaving no
    trace, or it reaches the send of the file's artifact, and what happens
    to the history is decided by the result of that send. *)
Lemma process_file_cases cfg env fuel file_path w evs w' out :
  process_file cfg env fuel file_path w = (evs, w', out) ->
  (evs = [] /\ w' = w)
  \/ exists content send_path wb evs_s ws sent,
       fs w !! file_path = Some content
       /\ any_hash_match (file_history w) (md5 env content) = false
       /\ fs wb !! send_path = Some (artifact cfg env file_path content)
       /\ history_untouched w wb
       /\ error_messages wb = error_messages w
       /\ calls wb = calls w
       /\ zips_here cfg send_path (endswith (lower send_path) ".zip") = false
       /\ send_artifact cfg env fuel send_path (basename file_path) wb = (evs_s, ws, sent)
       /\ history_untouched w ws
       /\ match sent with
          | Ret (true, sent_size) =>
              evs = evs_s ++ [PostEvent "success" (basename file_path)
                                (file_counter ws + 1) (md5 env content)
                                (Z.of_nat (length content))]
              /\ recorded cfg file_path (md5 env content) (Z.of_nat (length content))
                   sent_size ws w'
              /\ out = Ret tt
          | Ret (false, _) =>
              evs = evs_s ++ [PostEvent "failure" (basename file_path)
                                (file_counter ws) (md5 env content)
                                (Z.of_nat (length content))]
              /\ history_untouched w w' /\ out = Ret tt
          | Raise e => evs = evs_s /\ history_untouched w w' /\ out = Raise e
          | Diverge => evs = evs_s /\ history_untouched w w' /\ out = Diverge
          end.
Proof.
  intros Hrun.
  destruct (fs w !! file_path) as [content |] eqn:Hfile.
  2:{ left. unfold process_file, calculate_md5 in Hrun.
      rewrite (bind_raise_run _ _ w [] w (FileNotFoundError file_path)) in Hrun.
      - now injection Hrun as <- <- <-.
      - apply bind_raise_run. unfold read_file. now rewrite Hfile. }
  rewrite (process_file_checks _ _ _ _ _ _ Hfile) in Hrun.
  destruct (any_hash_match (file_history w) (md5 env content)) eqn:Hdup.
  { left. now injection Hrun as <- <- <-. }
  destruct (extension_rejected cfg (basename file_path)) eqn:Hext.
  { left. now injection Hrun as <- <- <-. }
  right. apply with_temp_dir_inv in Hrun as (w1 & Hbody & ->).
  destruct (build_send_path_run cfg env file_path (mkdtemp env (temp_count w)) content
              (next_temp w) Hfile)
    as (send_path & wb & Hbuild & Hart & Hwb & Herr & Hcalls & Hnozip).
  rewrite (bind_silent_run _ _ _ _ _ Hbuild) in Hbody.
  rewrite (bind_silent_run _ _ wb wb (file_history wb) eq_refl) in Hbody.
  destruct Hwb as (Hh & Hd & Hc). simpl in Hh, Hd, Hc.
  assert (Hcheck : new_or_modified (file_history wb) file_path (md5 env content) = true).
  { unfold new_or_modified. rewrite Hh.
    destruct (file_history w !! file_path) as [r |] eqn:Hlook; [| reflexivity].
    destruct (String.eqb_spec (hash r) (md5 env content)) as [Heq | Hne]; [| reflexivity].
    assert (any_hash_match (file_history w) (md5 env content) = true)
      by (apply any_hash_match_true; eauto).
    congruence. }
  rewrite Hcheck in Hbody.
  apply deliver_cases in Hbody as (evs_s & ws & sent & Hsend & Hres).
  pose proof (send_artifact_history_untouched _ _ _ _ _ _ _ _ _ Hsend) as (Hh' & Hd' & Hc').
  assert (Hw_ws : history_untouched w ws).
  { unfold history_untouched. repeat split; [congruence | congruence | lia]. }
  exists content, send_path, wb, evs_s, ws, sent.
  repeat (split; [first [assumption | unfold history_untouched; auto] |]).
  destruct sent as [[[|] sent_size] | e |].
  - destruct Hres as (-> & (Hrec1 & Hrec2 & Hrec3) & Hfs & ->).
    split; [reflexivity |]. split; [| reflexivity].
    unfold recorded. simpl. auto.
  - destruct Hres as (-> & -> & ->). auto.
  - destruct Hres as (-> & -> & ->). auto.
  - destruct Hres as (-> & -> & ->). auto.
Qed.

(** ** Sequence ids *)

Lemma foldr_max_bound (rs : list FileRecord) (start : Z) :
  start <= foldr (fun x acc => Z.max (get_file_id x) acc) start rs
  /\ forall r, r ∈ rs ->
       get_file_id r <= foldr (fun x acc => Z.max (get_file_id x) acc) start rs.
Proof.
  induction rs as [| x rs [IHstart IHin]]; simpl.
  - split; [lia |]. intros r Hr. now apply elem_of_nil in Hr.
  - split; [lia |]. intros r Hr. apply elem_of_cons in Hr as [-> | Hr].
    + lia.
    + specialize (IHin r Hr). lia.
Qed.

Lemma initial_counter_bound history path r :
  history !! path = Some r -> get_file_id r <= initial_counter history.
Proof.
  intros Hlook. unfold initial_counter.
  assert (Hin : r ∈ (map_to_list history).*2).
  { apply list_elem_of_fmap. exists (path, r). split; [done |].
    now apply elem_of_map_to_list. }
  destruct ((map_to_list history).*2) as [| r0 rs].
  - now apply elem_of_nil in Hin.
  - destruct (foldr_max_bound rs (get_file_id r0)) as [Hstart Hrest].
    apply elem_of_cons in Hin as [-> | Hin]; auto.
Qed.

Lemma startup_run cfg w :
  startup cfg w
  = ([PostFileHistory (disk_history w)],
     (if ENABLE_CACHE cfg then set_file_size_cache (fun _ => disk_size_cache w)
      else fun w0 => w0)
       (set_file_counter (fun _ => initial_counter (disk_history w))
          (set_file_history (fun _ => disk_history w) w)),
     Ret tt).
Proof.
  unfold startup, bind, modify, get, emit, ret. simpl.
  destruct (ENABLE_CACHE cfg); reflexivity.
Qed.

(** One file: the counter stays above every id, and a record that was
    written got an id above all the ids that were there. *)
Lemma process_file_ids cfg env fuel file_path w evs w' out :
  counter_dominates w ->
  process_file cfg env fuel file_path w = (evs, w', out) ->
  counter_dominates w'
  /\ (forall p r', file_history w' !! p = Some r' ->
        file_history w !! p = Some r'
        \/ (p = file_path
            /\ exists fid, file_id r' = Some fid
                 /\ forall q r, file_history w !! q = Some r -> get_file_id r < fid))
  /\ (unique_ids (file_history w) -> unique_ids (file_history w')).
Proof.
  intros Hdom Hrun.
  assert (Hsame : forall w2, history_untouched w w2 ->
            counter_dominates w2
            /\ (forall p r', file_history w2 !! p = Some r' ->
                  file_history w !! p = Some r'
                  \/ (p = file_path
                      /\ exists fid, file_id r' = Some fid
                           /\ forall q r, file_history w !! q = Some r ->
                                          get_file_id r < fid))
            /\ (unique_ids (file_history w) -> unique_ids (file_history w2))).
  { intros w2 (Hh & _ & Hc). repeat split.
    - intros p r Hp. rewrite Hh in Hp. specialize (Hdom p r Hp). lia.
    - intros p r' Hp. left. now rewrite <- Hh.
    - now rewrite Hh. }
  apply process_file_cases in Hrun
    as [(-> & ->) | (content & send_path & wb & evs_s & ws & sent & Hfile & Hdup & Hart
                     & Hwb & _ & _ & _ & Hsend & Hws & Hres)].
  { apply Hsame, history_untouched_refl. }
  destruct sent as [[[|] sent_size] | e |];
    try (destruct Hres as (_ & Hw' & _); now apply Hsame).
  destruct Hres as (_ & (Hhist & _ & Hcount) & _).
  destruct Hws as (Hh & _ & Hc).
  rewrite Hh in Hhist.
  assert (Hfresh : forall q r, file_history w !! q = Some r ->
                               get_file_id r < file_counter ws + 1).
  { intros q r Hq. specialize (Hdom q r Hq). lia. }
  repeat split.
  - intros p r Hp. rewrite Hhist in Hp. rewrite Hcount.
    destruct (decide (file_path = p)) as [-> | Hne].
    + rewrite lookup_insert_eq in Hp. injection Hp as <-.
      unfold get_file_id. simpl. lia.
    + rewrite lookup_insert_ne in Hp by assumption.
      specialize (Hfresh p r Hp). lia.
  - intros p r' Hp. rewrite Hhist in Hp.
    destruct (decide (file_path = p)) as [-> | Hne].
    + rewrite lookup_insert_eq in Hp. injection Hp as <-. right.
      split; [reflexivity |]. eexists. split; [reflexivity | exact Hfresh].
    + rewrite lookup_insert_ne in Hp by assumption. now left.
  - intros Huniq p q r s Hp Hq Hid. rewrite Hhist in Hp, Hq.
    destruct (decide (p = file_path)) as [-> | Hp_ne];
      destruct (decide (q = file_path)) as [-> | Hq_ne]; try reflexivity.
    + rewrite lookup_insert_eq in Hp. injection Hp as <-.
      rewrite lookup_insert_ne in Hq by congruence.
      specialize (Hfresh q s Hq). unfold get_file_id in Hid at 1.
      simpl in Hid. lia.
    + rewrite lookup_insert_eq in Hq. injection Hq as <-.
      rewrite lookup_insert_ne in Hp by congruence.
      specialize (Hfresh p r Hp). unfold get_file_id in Hid at 2.
      simpl in Hid. lia.
    + rewrite lookup_insert_ne in Hp, Hq by congruence. eauto.
Qed.

Lemma main_loop_counter_dominates cfg env cycles fuel :
  keeps (on_states (fun w w' => counter_dominates w -> counter_dominates w'))
    (main_loop cfg env cycles fuel).
Proof.
  apply keeps_main_loop; unfold on_states; try (intros; assumption).
  - intros w1 evs1 w2 evs2 w3 H12 H23 H1. auto.
  - intros fuel' file_path w evs w' out Hrun Hdom.
    now destruct (process_file_ids cfg env fuel' file_path w evs w' out Hdom Hrun).
Qed.

Lemma main_loop_ids_in_order cfg env cycles fuel :
  keeps (on_states (fun w w' => ids_in_order w -> ids_in_order w'))
    (main_loop cfg env cycles fuel).
Proof.
  apply keeps_main_loop; unfold on_states; try (intros; assumption).
  - intros w1 evs1 w2 evs2 w3 H12 H23 H1. auto.
  - intros fuel' file_path w evs w' out Hrun [Hdom Huniq].
    destruct (process_file_ids cfg env fuel' file_path w evs w' out Hdom Hrun)
      as (Hdom' & _ & Huniq').
    split; auto.
Qed.

(** C8. The counter starts at the largest id of the loaded history; the
    id given to a record when it is written is the counter after it has
    been incremented, hence above the id of every record present at that
    moment; and so, through a whole run of [main], the counter stays above
    all ids and ids that were unique in the history file stay unique. *)
Theorem file_ids_strictly_increase (cfg : Config) (env : Env) :
  (forall w evs w' out,
      startup cfg w = (evs, w', out) ->
      file_history w' = disk_history w
      /\ file_counter w' = initial_counter (disk_history w)
      /\ counter_dominates w')
  /\ (forall fuel file_path w evs w' out,
      counter_dominates w ->
      process_file cfg env fuel file_path w = (evs, w', out) ->
      counter_dominates w'
      /\ (forall p r', file_history w' !! p = Some r' ->
            file_history w !! p = Some r'
            \/ (p = file_path
                /\ exists fid, file_id r' = Some fid
                     /\ forall q r, file_history w !! q = Some r -> get_file_id r < fid))
      /\ (unique_ids (file_history w) -> unique_ids (file_history w')))
  /\ (forall cycles fuel w evs w' out,
      main cfg env cycles fuel w = (evs, w', out) ->
      counter_dominates w'
      /\ (unique_ids (disk_history w) -> unique_ids (file_history w'))).
Proof.
  assert (Hstart : forall w evs w' out,
             startup cfg w = (evs, w', out) ->
             file_history w' = disk_history w
             /\ file_counter w' = initial_counter (disk_history w)
             /\ counter_dominates w').
  { intros w evs w' out Hrun. rewrite startup_run in Hrun.
    injection Hrun as <- <- <-.
    assert (Hfields :
      file_history ((if ENABLE_CACHE cfg
                     then set_file_size_cache (fun _ => disk_size_cache w)
                     else fun w0 => w0)
                      (set_file_counter (fun _ => initial_counter (disk_history w))
                         (set_file_history (fun _ => disk_history w) w)))
      = disk_history w
      /\ file_counter ((if ENABLE_CACHE cfg
                        then set_file_size_cache (fun _ => disk_size_cache w)
                        else fun w0 => w0)
                         (set_file_counter (fun _ => initial_counter (disk_history w))
                            (set_file_history (fun _ => disk_history w) w)))
         = initial_counter (disk_history w))
      by (destruct (ENABLE_CACHE cfg); split; reflexivity).
    destruct Hfields as [Hh Hc]. repeat split; [exact Hh | exact Hc |].
    intros path r Hlook. rewrite Hh in Hlook. rewrite Hc.
    now apply initial_counter_bound with (path := path). }
  split; [exact Hstart |].
  split; [apply process_file_ids |].
  intros cycles fuel w evs w' out Hrun. unfold main in Hrun. minv Hrun.
  - apply Hstart in Hm as (Hh & Hc & Hdom).
    split.
    + exact (main_loop_counter_dominates _ _ _ _ _ _ _ _ Hk Hdom).
    + intros Huniq.
      apply (main_loop_ids_in_order _ _ _ _ _ _ _ _ Hk).
      split; [exact Hdom | now rewrite Hh].
  - rewrite startup_run in Hm. discriminate.
  - rewrite startup_run in Hm. discriminate.
Qed.

Lemma file_ids_strictly_increase_witness :
  exists evs w' out,
    process_file test_config test_env 3 "/watch/b.txt" world_with_new_file
    = (evs, w', out)
    /\ file_history w' !! "/watch/b.txt"
       = Some (new_record test_config "8:abcdefgh" 5 8 10)
    /\ counter_dominates w'
    /\ (forall p r', file_history w' !! p = Some r' ->
          file_history world_with_new_file !! p = Some r'
          \/ (p = "/watch/b.txt"
              /\ exists fid, file_id r' = Some fid
                   /\ forall q r, file_history world_with_new_file !! q = Some r ->
                                  get_file_id r < fid))
    /\ (unique_ids (file_history world_with_new_file) -> unique_ids (file_history w')).
Proof.
  do 3 eexists. split; [vm_compute; reflexivity |].
  split; [vm_compute; reflexivity |].
  eapply (proj1 (proj2 (file_ids_strictly_increase test_config test_env))
            3%nat "/watch/b.txt" world_with_new_file).
  - intros path r Hlook. simpl in Hlook.
    apply lookup_singleton_Some in Hlook as [_ <-]. vm_compute. discriminate.
  - vm_compute. reflexivity.
Defined.

(** ** Splitting into parts *)

Lemma read_cases chunk_size rest :
  0 < chunk_size ->
  read chunk_size rest
  = (take (Z.to_nat chunk_size) rest, drop (Z.to_nat chunk_size) rest).
Proof.
  intros Hpos. unfold read. destruct (chunk_size <? 0) eqn:Hneg; [lia | reflexivity].
Qed.

Lemma read_shrinks chunk_size rest b chunk rest' :
  read chunk_size rest = (b :: chunk, rest') ->
  (b :: chunk) ++ rest' = rest /\ (length rest' < length rest)%nat.
Proof.
  unfold read. destruct (chunk_size <? 0).
  - intros [= -> <-]. rewrite app_nil_r. split; [reflexivity | simpl; lia].
  - intros [= Htake <-]. split.
    + rewrite <- Htake. apply take_drop.
    + rewrite length_drop.
      assert (Hlen : length (take (Z.to_nat chunk_size) rest) = length (b :: chunk))
        by now rewrite Htake.
      rewrite length_take in Hlen. simpl in Hlen. lia.
Qed.

Lemma read_nothing chunk_size rest rest' :
  chunk_size <> 0 -> read chunk_size rest = ([], rest') -> rest = [].
Proof.
  unfold read. intros Hnz. destruct (chunk_size <? 0) eqn:Hneg.
  - now intros [= -> _].
  - intros [= Htake _]. destruct rest as [| b rest]; [reflexivity |].
    destruct (Z.to_nat chunk_size) eqn:Hn; [lia | discriminate].
Qed.

(** Concatenating the blocks gives the archive back. *)
Lemma chunks_from_concat iters chunk_size :
  chunk_size <> 0 ->
  forall rest, (length rest < iters)%nat ->
  concat (chunks_from iters chunk_size rest) = rest.
Proof.
  intros Hnz. induction iters as [| iters IH]; intros rest Hlen; [lia |].
  simpl. destruct (read chunk_size rest) as [[| b chunk] rest'] eqn:Hread.
  - symmetry. now apply read_nothing in Hread.
  - apply read_shrinks in Hread as [Happ Hshort].
    simpl concat. rewrite IH by lia. exact Happ.
Qed.

(** More iterations than bytes change nothing. *)
Lemma chunks_from_irrelevant chunk_size k1 :
  forall k2 rest, (length rest < k1)%nat -> (length rest < k2)%nat ->
  chunks_from k1 chunk_size rest = chunks_from k2 chunk_size rest.
Proof.
  induction k1 as [| k1 IH]; intros k2 rest H1 H2; [lia |].
  destruct k2 as [| k2]; [lia |].
  simpl. destruct (read chunk_size rest) as [[| b chunk] rest'] eqn:Hread;
    [reflexivity |].
  apply read_shrinks in Hread as [_ Hshort]. f_equal. apply IH; lia.
Qed.

Lemma chunks_from_enough iters chunk_size rest :
  (length rest < iters)%nat ->
  chunks_from iters chunk_size rest = chunks chunk_size rest.
Proof. intros Hlen. unfold chunks. apply chunks_from_irrelevant; lia. Qed.

Lemma chunks_concat chunk_size data :
  chunk_size <> 0 -> concat (chunks chunk_size data) = data.
Proof. intros Hnz. unfold chunks. apply chunks_from_concat; [assumption | lia]. Qed.

Lemma chunks_nil chunk_size : chunks chunk_size [] = [].
Proof.
  unfold chunks. simpl. unfold read.
  destruct (chunk_size <? 0); [reflexivity |].
  now rewrite take_nil.
Qed.

(** The first block and the rest. *)
Lemma chunks_cons chunk_size data :
  0 < chunk_size -> data <> [] ->
  chunks chunk_size data
  = take (Z.to_nat chunk_size) data :: chunks chunk_size (drop (Z.to_nat chunk_size) data).
Proof.
  intros Hpos Hdata. unfold chunks at 1. simpl.
  rewrite (read_cases _ _ Hpos).
  destruct (take (Z.to_nat chunk_size) data) as [| b chunk] eqn:Htake.
  - destruct data as [| b data]; [contradiction |].
    destruct (Z.to_nat chunk_size) eqn:Hn; [lia | discriminate].
  - f_equal. apply chunks_from_enough. rewrite length_drop.
    destruct data; [contradiction | simpl; lia].
Qed.

(** The number of blocks is the ceiling of size over block size. *)
Lemma chunks_length chunk_size :
  0 < chunk_size ->
  forall n data, length data = n ->
  Z.of_nat (length (chunks chunk_size data))
  = (Z.of_nat (length data) + chunk_size - 1) / chunk_size.
Proof.
  intros Hpos n. induction n as [n IH] using lt_wf_ind. intros data Hn.
  destruct data as [| b data].
  - rewrite chunks_nil. simpl. symmetry. apply Z.div_small. lia.
  - rewrite chunks_cons by (assumption || discriminate).
    simpl length at 1. rewrite Nat2Z.inj_succ.
    rewrite (IH (length (drop (Z.to_nat chunk_size) (b :: data))));
      [| rewrite length_drop; simpl in *; lia | reflexivity].
    rewrite length_drop.
    destruct (Z_le_gt_dec (Z.of_nat (length (b :: data))) chunk_size) as [Hle | Hgt].
    + replace (Z.of_nat (length (b :: data) - Z.to_nat chunk_size)) with 0 by lia.
      rewrite (Z.div_small (0 + chunk_size - 1)) by lia.
      apply Z.div_unique with (r := Z.of_nat (length (b :: data)) - 1).
      * left. simpl length in *. lia.
      * lia.
    + replace (Z.of_nat (length (b :: data) - Z.to_nat chunk_size))
        with (Z.of_nat (length (b :: data)) - chunk_size) by lia.
      replace (Z.of_nat (length (b :: data)) + chunk_size - 1)
        with (Z.of_nat (length (b :: data)) - chunk_size + chunk_size - 1
              + 1 * chunk_size) by lia.
      rewrite Z.div_add by lia. lia.
Qed.

Lemma total_parts_of_ceiling size chunk_size :
  0 < chunk_size ->
  total_parts_of size chunk_size = (size + chunk_size - 1) / chunk_size.
Proof.
  intros Hpos. unfold total_parts_of.
  pose proof (Z.div_mod size chunk_size ltac:(lia)) as Hdm.
  pose proof (Z.mod_pos_bound size chunk_size Hpos) as Hbound.
  destruct (size mod chunk_size =? 0) eqn:Hrem.
  - apply Z.eqb_eq in Hrem.
    apply Z.div_unique with (r := chunk_size - 1); [left; lia | lia].
  - apply Z.eqb_neq in Hrem.
    apply Z.div_unique with (r := size mod chunk_size - 1); [left; lia | lia].
Qed.

(** [N] is the ceiling of [size / chunk_size]: the least count of blocks
    of [chunk_size] bytes that hold [size] bytes. *)
Lemma ceiling_characterised size chunk_size :
  0 < chunk_size ->
  (total_parts_of size chunk_size - 1) * chunk_size < size
  <= total_parts_of size chunk_size * chunk_size.
Proof.
  intros Hpos. unfold total_parts_of.
  pose proof (Z.div_mod size chunk_size ltac:(lia)) as Hdm.
  pose proof (Z.mod_pos_bound size chunk_size Hpos) as Hbound.
  destruct (size mod chunk_size =? 0) eqn:Hrem.
  - apply Z.eqb_eq in Hrem. nia.
  - apply Z.eqb_neq in Hrem. nia.
Qed.

(** ** Send attempts and terminal failures in a trace *)

Lemma terminal_failure_is_attempt ev : is_terminal_failure ev -> is_send_attempt ev.
Proof. destruct ev as [[] [] | | |]; simpl; tauto. Qed.

Lemma quiet_clean evs : quiet evs -> clean evs.
Proof.
  intros Hquiet. eapply Forall_impl; [exact Hquiet |].
  intros ev Hnot Hfail. now apply Hnot, terminal_failure_is_attempt.
Qed.

Lemma quiet_app evs1 evs2 : quiet evs1 -> quiet evs2 -> quiet (evs1 ++ evs2).
Proof. intros H1 H2. apply Forall_app. auto. Qed.

Lemma clean_app evs1 evs2 : clean evs1 -> clean evs2 -> clean (evs1 ++ evs2).
Proof. intros H1 H2. apply Forall_app. auto. Qed.

Lemma clean_disciplined evs : clean evs -> disciplined evs.
Proof. now left. Qed.

Lemma disciplined_after_clean evs1 evs2 :
  clean evs1 -> disciplined evs2 -> disciplined (evs1 ++ evs2).
Proof.
  intros H1 [H2 | (pre & ev & post & -> & Hpre & Hev & Hpost)].
  - left. now apply clean_app.
  - right. exists (evs1 ++ pre), ev, post.
    rewrite <- app_assoc. auto using clean_app.
Qed.

Lemma disciplined_before_quiet evs1 evs2 :
  disciplined evs1 -> quiet evs2 -> disciplined (evs1 ++ evs2).
Proof.
  intros [H1 | (pre & ev & post & -> & Hpre & Hev & Hpost)] H2.
  - left. apply clean_app; [assumption | now apply quiet_clean].
  - right. exists pre, ev, (post ++ evs2).
    rewrite <- app_assoc. simpl. auto using quiet_app.
Qed.

(** The reading of [disciplined] used in the statements: whatever follows a
    terminal failure sends no document. *)
Lemma disciplined_stops evs :
  disciplined evs ->
  forall pre ev post,
    evs = pre ++ ev :: post -> is_terminal_failure ev -> quiet post.
Proof.
  intros [Hclean | (pre' & ev' & post' & -> & Hpre & Hev & Hpost)] pre ev post Heq Hfail.
  - subst evs. apply Forall_app in Hclean as [_ Hclean].
    apply Forall_cons in Hclean as [Hnot _]. contradiction.
  - apply app_eq_app in Heq as [l [[-> Heq] | [-> Heq]]].
    + destruct l as [| x l]; simpl in Heq.
      * rewrite app_nil_r in *. now injection Heq as <- <-.
      * injection Heq as <- ->.
        apply Forall_app in Hpre as [_ Hpre].
        apply Forall_cons in Hpre as [Hnot _]. contradiction.
    + destruct l as [| x l]; simpl in Heq.
      * now injection Heq as <- <-.
      * injection Heq as <- ->.
        apply Forall_app in Hpost as [_ Hpost].
        apply Forall_cons in Hpost as [Hnot _].
        exfalso. now apply Hnot, terminal_failure_is_attempt.
Qed.

Lemma no_requests_quiet evs : send_requests evs = [] -> quiet evs.
Proof.
  induction evs as [| ev evs IH]; [constructor |].
  unfold send_requests. simpl. intros Hnone.
  destruct ev as [[] rp | | |]; try discriminate;
    (constructor; [simpl; tauto | now apply IH]).
Qed.

Ltac quiet_frame :=
  unfold quietly, quiet; intros;
  first [ apply Forall_nil_2
        | apply Forall_app; tauto
        | apply Forall_cons; split; [simpl; tauto | apply Forall_nil_2] ].

Lemma getsize_quiet path : keeps quietly (getsize path).
Proof. apply keeps_getsize; quiet_frame. Qed.

Lemma read_file_quiet path : keeps quietly (read_file path).
Proof. apply keeps_read_file; quiet_frame. Qed.

Lemma create_zip_archive_quiet cfg env file_path base_name temp_dir skip_zip :
  keeps quietly (create_zip_archive cfg env file_path base_name temp_dir skip_zip).
Proof. apply keeps_create_zip_archive; quiet_frame. Qed.

Lemma count_parts_quiet size chunk_size : keeps quietly (count_parts size chunk_size).
Proof. apply keeps_count_parts; quiet_frame. Qed.

Lemma send_reassembly_instructions_quiet cfg env base_name file_number :
  keeps quietly (send_reassembly_instructions cfg env base_name file_number).
Proof. apply keeps_send_reassembly_instructions; quiet_frame. Qed.

Lemma send_error_message_quiet cfg env base_name :
  keeps quietly (send_error_message cfg env base_name).
Proof. apply keeps_send_error_message; quiet_frame. Qed.

Lemma os_remove_quiet path : keeps quietly (os_remove path).
Proof. apply keeps_os_remove; quiet_frame. Qed.

Lemma report_send_error_quiet cfg env file_path :
  keeps quietly (report_send_error cfg env file_path).
Proof. apply keeps_report_send_error; quiet_frame. Qed.

(** ** The trace of send_file *)

Lemma sent_ok_app_l evs1 evs2 rq : sent_ok evs1 rq -> sent_ok (evs1 ++ evs2) rq.
Proof. intros [r Hin]. exists r. apply elem_of_app. now left. Qed.

Lemma sent_ok_app_r evs1 evs2 rq : sent_ok evs2 rq -> sent_ok (evs1 ++ evs2) rq.
Proof. intros [r Hin]. exists r. apply elem_of_app. now right. Qed.

Lemma report_send_error_not_true cfg env file_path w evs w' :
  report_send_error cfg env file_path w <> (evs, w', Ret true).
Proof.
  unfold report_send_error, bind, api, modify, ret. simpl.
  destruct (reply env send_message _); discriminate.
Qed.

(** Every run of send_file is disciplined, and one that returns [True] has
    no terminal failure and has had the file accepted by the transport. *)
Lemma send_file_trace cfg env fuel :
  forall file_path caption part_number total_parts w evs w' out,
  send_file cfg env fuel file_path caption part_number total_parts w = (evs, w', out) ->
  disciplined evs
  /\ (out = Ret true ->
      clean evs
      /\ exists content,
           fs w !! file_path = Some content
           /\ sent_ok evs (document_request cfg env file_path caption part_number
                             total_parts content)).
Proof.
  induction fuel as [| fuel IH];
    intros file_path caption part_number total_parts w evs w' out Hrun.
  { injection Hrun as <- <- <-. split; [left; constructor | discriminate]. }
  destruct (fs w !! file_path) as [content |] eqn:Hfile.
  2:{ simpl in Hrun.
      rewrite (try_except_raise_run _ _ _ _ _ _
                 (send_file_try_missing cfg env _ caption part_number total_parts _
                    Hfile)) in Hrun.
      injection Hrun as <- <- <-. split; [left; constructor | discriminate]. }
  destruct (reply env send_document (calls w send_document)) as [msg | e] eqn:Hreply.
  - destruct (send_file_try_accepted cfg env file_path caption part_number
                total_parts w content msg Hfile Hreply)
      as (fevs & w1 & _ & Hnone & He & Hf & _ & _ & _ & _ & Htry).
    apply no_requests_quiet, quiet_clean in Hnone.
    assert (Hhead : clean (Api (document_request cfg env file_path caption part_number
                                  total_parts content) (Ok msg) :: fevs)).
    { constructor; [simpl; tauto | exact Hnone]. }
    assert (Hsent : forall rest,
               sent_ok (Api (document_request cfg env file_path caption part_number
                               total_parts content) (Ok msg) :: rest)
                 (document_request cfg env file_path caption part_number total_parts
                    content)).
    { intros rest. exists msg. apply elem_of_cons. now left. }
    simpl in Hrun.
    destruct (error_messages w !! file_path) as [notice |].
    + simpl in Htry.
      destruct (reply env delete_message (calls w delete_message)) as [r | e].
      * rewrite (try_except_ret_run _ _ _ _ _ _ Htry) in Hrun.
        injection Hrun as <- <- <-.
        assert (Hclean : clean (Api (document_request cfg env file_path caption
                                       part_number total_parts content) (Ok msg)
                                  :: fevs ++ [Api (DeleteMessage (CHAT_ID cfg) notice)
                                                (Ok r)])).
        { change (clean ((Api (document_request cfg env file_path caption part_number
                                 total_parts content) (Ok msg) :: fevs)
                           ++ [Api (DeleteMessage (CHAT_ID cfg) notice) (Ok r)])).
          apply clean_app; [exact Hhead |]. constructor; [simpl; tauto | constructor]. }
        split; [now left |]. intros _. split; [exact Hclean |]. eauto.
      * rewrite (try_except_raise_run _ _ _ _ _ _ Htry) in Hrun.
        assert (Hclean : clean (Api (document_request cfg env file_path caption
                                       part_number total_parts content) (Ok msg)
                                  :: fevs ++ [Api (DeleteMessage (CHAT_ID cfg) notice)
                                                (Fails e)])).
        { change (clean ((Api (document_request cfg env file_path caption part_number
                                 total_parts content) (Ok msg) :: fevs)
                           ++ [Api (DeleteMessage (CHAT_ID cfg) notice) (Fails e)])).
          apply clean_app; [exact Hhead |]. constructor; [simpl; tauto | constructor]. }
        destruct (is_flood_control e).
        -- unfold bind at 1, sleep, emit in Hrun.
           destruct (send_file cfg env fuel file_path caption part_number total_parts _)
             as [[evs2 w2] r2] eqn:Hagain.
           injection Hrun as <- <- <-.
           apply IH in Hagain as [Hdisc Htrue].
           assert (Hpre : clean ((Api (document_request cfg env file_path caption
                                         part_number total_parts content) (Ok msg)
                                    :: fevs ++ [Api (DeleteMessage (CHAT_ID cfg) notice)
                                                  (Fails e)]) ++ [Sleep (retry_after e)])).
           { apply clean_app; [exact Hclean |].
             constructor; [simpl; tauto | constructor]. }
           match goal with
           | |- disciplined ?l /\ _ =>
               change l with
                 ((Api (document_request cfg env file_path caption part_number
                          total_parts content) (Ok msg)
                     :: fevs ++ [Api (DeleteMessage (CHAT_ID cfg) notice) (Fails e)])
                    ++ [Sleep (retry_after e)] ++ evs2)
           end.
           rewrite app_assoc.
           split; [now apply disciplined_after_clean |].
           intros Hout. destruct (Htrue Hout) as [Hclean2 _].
           split; [now apply clean_app |].
           exists content. split; [reflexivity |].
           apply sent_ok_app_l, sent_ok_app_l. apply Hsent.
        -- destruct (report_send_error cfg env file_path (tick delete_message w1))
             as [[evs2 w2] r2] eqn:Hrep.
           injection Hrun as <- <- <-.
           pose proof (report_send_error_quiet _ _ _ _ _ _ _ Hrep) as Hq.
           split.
           ++ left.
              change (clean ((Api (document_request cfg env file_path caption
                                     part_number total_parts content) (Ok msg)
                                :: fevs ++ [Api (DeleteMessage (CHAT_ID cfg) notice)
                                              (Fails e)]) ++ evs2)).
              apply clean_app; [exact Hclean | now apply quiet_clean].
           ++ intros ->. exfalso. eapply report_send_error_not_true. exact Hrep.
    + rewrite (try_except_ret_run _ _ _ _ _ _ Htry) in Hrun.
      injection Hrun as <- <- <-.
      split; [now left |]. intros _. split; [exact Hhead |]. eauto.
  - destruct (is_flood_control e) eqn:Hflood.
    + rewrite (send_file_flood cfg env fuel file_path caption part_number
                 total_parts w content e Hfile Hreply Hflood) in Hrun.
      destruct (send_file cfg env fuel file_path caption part_number total_parts _)
        as [[evs2 w2] r2] eqn:Hagain.
      injection Hrun as <- <- <-.
      apply IH in Hagain as [Hdisc Htrue].
      assert (Hpre : clean [Api (document_request cfg env file_path caption part_number
                                   total_parts content) (Fails e);
                            Sleep (retry_after e)]).
      { constructor; [simpl; congruence |]. constructor; [simpl; tauto | constructor]. }
      match goal with
      | |- disciplined ?l /\ _ =>
          change l with
            ([Api (document_request cfg env file_path caption part_number
                     total_parts content) (Fails e);
              Sleep (retry_after e)] ++ evs2)
      end.
      split; [now apply disciplined_after_clean |].
      intros Hout. destruct (Htrue Hout) as (Hclean2 & content' & Hfile' & Hsent).
      split; [now apply clean_app |].
      simpl in Hfile'. rewrite Hfile in Hfile'. injection Hfile' as <-.
      exists content. split; [reflexivity | now apply sent_ok_app_r].
    + rewrite (send_file_terminal cfg env fuel file_path caption part_number
                 total_parts w content e Hfile Hreply Hflood) in Hrun.
      simpl in Hrun. injection Hrun as <- <- <-.
      split.
      * right. eexists [], _, _. split; [reflexivity |].
        split; [constructor |]. split; [exact Hflood |].
        constructor; [simpl; tauto | constructor].
      * destruct (reply env send_message _); discriminate.
Qed.

(** ** The trace of the split loop *)

Lemma write_file_run path content w :
  write_file path content w = ([], set_fs (insert path content) w, Ret tt).
Proof. reflexivity. Qed.

(** Every run of the loop is disciplined; one that ends by [break] has no
    terminal failure, has counted the parts, and has had every block
    accepted by the transport under its part number. *)
Lemma split_loop_trace cfg env fuel temp_dir base_name chunk_size total_parts iters :
  forall zip_file file_number w evs w' out,
  split_loop cfg env iters fuel temp_dir base_name chunk_size total_parts
    zip_file file_number w = (evs, w', out) ->
  disciplined evs
  /\ forall last,
       out = Ret (Break last) ->
       clean evs
       /\ last = file_number + Z.of_nat (length (chunks_from iters chunk_size zip_file))
       /\ forall i chunk,
            chunks_from iters chunk_size zip_file !! i = Some chunk ->
            sent_ok evs (part_request cfg env temp_dir base_name total_parts
                           (file_number + Z.of_nat i) chunk).
Proof.
  induction iters as [| iters IH]; intros zip_file file_number w evs w' out Hrun.
  { injection Hrun as <- <- <-. split; [left; constructor | discriminate]. }
  simpl in Hrun |- *.
  destruct (read chunk_size zip_file) as [[| b chunk] rest].
  { minv Hrun. split; [left; constructor |].
    intros last [= <-]. split; [constructor |]. split; [simpl; lia |].
    intros i c Hi. now rewrite lookup_nil in Hi. }
  rewrite (bind_silent_run _ _ _ _ _ (write_file_run _ _ _)) in Hrun.
  minv Hrun.
  - destruct (send_file_trace _ _ _ _ _ _ _ _ _ _ _ Hm) as [Hdisc Htrue].
    destruct a.
    + destruct (Htrue eq_refl) as (Hclean & content & Hfile & Hsent).
      simpl in Hfile. rewrite lookup_insert_eq in Hfile. injection Hfile as <-.
      rewrite (bind_silent_run _ _ w0 (set_file_counter (Z.add 1) w0) tt eq_refl) in Hk.
      apply IH in Hk as [Hdisc2 Hbreak].
      split; [now apply disciplined_after_clean |].
      intros last Hout. destruct (Hbreak last Hout) as (Hclean2 & -> & Hparts).
      split; [now apply clean_app |].
      split; [simpl length; lia |].
      intros [| i] c Hi.
      * injection Hi as <-. rewrite Z.add_0_r. now apply sent_ok_app_l.
      * simpl in Hi. apply Hparts in Hi.
        replace (file_number + Z.of_nat (S i)) with (file_number + 1 + Z.of_nat i) by lia.
        now apply sent_ok_app_r.
    + minv Hk. rewrite app_nil_r. split; [exact Hdisc | discriminate].
  - apply send_file_trace in Hm as [Hdisc _]. split; [exact Hdisc | discriminate].
  - apply send_file_trace in Hm as [Hdisc _]. split; [exact Hdisc | discriminate].
Qed.

(** ** The trace of split_and_send_zip *)

Lemma create_zip_archive_run cfg env file_path temp_dir skip_zip content w :
  fs w !! file_path = Some content ->
  exists zip_path wz,
    create_zip_archive cfg env file_path (basename file_path) temp_dir skip_zip w
    = ([], wz, Ret zip_path)
    /\ fs wz !! zip_path = Some (split_input cfg env file_path skip_zip content)
    /\ calls wz = calls w
    /\ error_messages wz = error_messages w
    /\ (zips_here cfg file_path skip_zip = false -> zip_path = file_path /\ wz = w).
Proof.
  intros Hfile. unfold create_zip_archive, split_input.
  destruct (zips_here cfg file_path skip_zip).
  - eexists _, _. split.
    + now rewrite (bind_silent_run _ _ _ _ _
                     (write_zip_run cfg env _ _ (basename file_path) _ _ Hfile)).
    + simpl. split; [apply lookup_insert_eq |]. repeat split; discriminate.
  - exists file_path, w. repeat split; auto.
Qed.

Lemma count_parts_run size chunk_size w :
  chunk_size <> 0 ->
  count_parts size chunk_size w = ([], w, Ret (total_parts_of size chunk_size)).
Proof.
  intros Hnz. unfold count_parts.
  destruct (chunk_size =? 0) eqn:Hz; [lia | reflexivity].
Qed.

Lemma remove_step_silent (remove : bool) zip_path w evs w' (out : Outcome unit) :
  (if remove then os_remove zip_path else ret tt) w = (evs, w', out) -> evs = [].
Proof.
  destruct remove; intros Hrun.
  - unfold os_remove, read_file, bind, modify in Hrun.
    destruct (fs w !! zip_path); now injection Hrun as <- _ _.
  - now minv Hrun.
Qed.

(** The [try] block on a file that exists, with a non-zero part size: the
    events are those of the loop, then those of the instructions. *)
Lemma split_and_send_zip_try_cases cfg env fuel file_path skip_zip content w evs w' out :
  fs w !! file_path = Some content ->
  MAX_FILE_SIZE cfg <> 0 ->
  split_and_send_zip_try cfg env fuel file_path (basename file_path) skip_zip w
  = (evs, w', out) ->
  exists wz evs_l wl exit,
    calls wz = calls w
    /\ error_messages wz = error_messages w
    /\ split_loop cfg env
         (S (length (split_input cfg env file_path skip_zip content))) fuel
         (mkdtemp env (temp_count w)) (basename file_path) (MAX_FILE_SIZE cfg)
         (total_parts_of
            (Z.of_nat (length (split_input cfg env file_path skip_zip content)))
            (MAX_FILE_SIZE cfg))
         (split_input cfg env file_path skip_zip content) 1 wz
       = (evs_l, wl, exit)
    /\ match exit with
       | Ret (Break last) =>
           exists evs_t wt r,
             send_reassembly_instructions cfg env (basename file_path) last wl
             = (evs_t, wt, r)
             /\ evs = evs_l ++ evs_t
             /\ (forall sent, out = Ret sent ->
                   sent = (true, Z.of_nat (length content)) /\ r = Ret tt)
             /\ (zips_here cfg file_path skip_zip = false -> r = Ret tt ->
                   out = Ret (true, Z.of_nat (length content)))
       | Ret ReturnFalse => evs = evs_l /\ out = Ret (false, 0)
       | Raise e => evs = evs_l /\ out = Raise e
       | Diverge => evs = evs_l /\ out = Diverge
       end.
Proof.
  intros Hfile Hnz Hrun. unfold split_and_send_zip_try in Hrun.
  rewrite (bind_silent_run _ _ _ _ _ (getsize_run _ _ _ Hfile)) in Hrun.
  apply with_temp_dir_inv in Hrun as (w1 & Hbody & ->).
  destruct (create_zip_archive_run cfg env file_path (mkdtemp env (temp_count w))
              skip_zip content (next_temp w) Hfile)
    as (zip_path & wz & Hcreate & Hzip & Hcalls & Herr & Hsame).
  rewrite (bind_silent_run _ _ _ _ _ Hcreate) in Hbody.
  rewrite (bind_silent_run _ _ _ _ _ (getsize_run _ _ _ Hzip)) in Hbody.
  rewrite (bind_silent_run _ _ _ _ _ (count_parts_run _ _ wz Hnz)) in Hbody.
  rewrite (bind_silent_run _ _ _ _ _ (read_file_run _ _ _ Hzip)) in Hbody.
  exists wz.
  unfold bind at 1 in Hbody.
  destruct (split_loop cfg env _ fuel _ _ _ _ _ 1 wz) as [[evs_l wl] exit] eqn:Hloop.
  exists evs_l, wl, exit. repeat (split; [assumption || reflexivity |]).
  destruct exit as [[last |] | e |].
  - unfold bind at 1 in Hbody.
    destruct (send_reassembly_instructions cfg env (basename file_path) last wl)
      as [[evs_t wt] r] eqn:Hinstr.
    exists evs_t, wt, r. split; [reflexivity |].
    destruct r as [[] | e |].
    + unfold bind at 1 in Hbody.
      destruct ((if zips_here cfg file_path skip_zip then os_remove zip_path else ret tt) wt)
        as [[evs_r wr] rr] eqn:Hremove.
      pose proof (remove_step_silent _ _ _ _ _ _ Hremove) as ->.
      destruct rr as [[] | e |]; simpl in Hbody; injection Hbody as <- <- <-;
        rewrite ?app_nil_r; (split; [reflexivity |]).
      * split; [intros sent [= <-]; auto | auto].
      * split; [discriminate |]. intros Hno _. rewrite Hno in Hremove. discriminate.
      * split; [discriminate |]. intros Hno _. rewrite Hno in Hremove. discriminate.
    + injection Hbody as <- <- <-. split; [reflexivity |].
      split; [discriminate | discriminate].
    + injection Hbody as <- <- <-. split; [reflexivity |].
      split; [discriminate | discriminate].
  - simpl in Hbody. injection Hbody as <- <- <-. rewrite app_nil_r. auto.
  - injection Hbody as <- <- <-. auto.
  - injection Hbody as <- <- <-. auto.
Qed.

Lemma split_and_send_zip_try_trace cfg env fuel file_path skip_zip w evs w' out :
  split_and_send_zip_try cfg env fuel file_path (basename file_path) skip_zip w
  = (evs, w', out) ->
  disciplined evs
  /\ forall size, out = Ret (true, size) ->
       clean evs /\ parts_delivered cfg env file_path skip_zip w evs size.
Proof.
  intros Hrun.
  destruct (fs w !! file_path) as [content |] eqn:Hfile.
  2:{ unfold split_and_send_zip_try, getsize in Hrun.
      rewrite (bind_raise_run _ _ w [] w (FileNotFoundError file_path)) in Hrun.
      - injection Hrun as <- <- <-. split; [left; constructor | discriminate].
      - apply bind_raise_run. unfold read_file. now rewrite Hfile. }
  destruct (Z.eq_dec (MAX_FILE_SIZE cfg) 0) as [Hzero | Hnz].
  { unfold split_and_send_zip_try in Hrun.
    rewrite (bind_silent_run _ _ _ _ _ (getsize_run _ _ _ Hfile)) in Hrun.
    apply with_temp_dir_inv in Hrun as (w1 & Hbody & ->).
    destruct (create_zip_archive_run cfg env file_path (mkdtemp env (temp_count w))
                skip_zip content (next_temp w) Hfile)
      as (zip_path & wz & Hcreate & Hzip & _).
    rewrite (bind_silent_run _ _ _ _ _ Hcreate) in Hbody.
    rewrite (bind_silent_run _ _ _ _ _ (getsize_run _ _ _ Hzip)) in Hbody.
    rewrite (bind_raise_run _ _ wz [] wz ZeroDivisionError) in Hbody.
    - injection Hbody as <- <- <-. split; [left; constructor | discriminate].
    - unfold count_parts. now rewrite Hzero. }
  destruct (split_and_send_zip_try_cases _ _ _ _ _ _ _ _ _ _ Hfile Hnz Hrun)
    as (wz & evs_l & wl & exit & _ & _ & Hloop & Hexit).
  apply split_loop_trace in Hloop as [Hdisc Hbreak].
  destruct exit as [[last |] | e |].
  - destruct Hexit as (evs_t & wt & r & Hinstr & -> & Hout & _).
    apply send_reassembly_instructions_quiet in Hinstr.
    split; [now apply disciplined_before_quiet |].
    intros size Hsize. destruct (Hout _ Hsize) as [[= ->] _].
    destruct (Hbreak last eq_refl) as (Hclean & _ & Hparts).
    split; [apply clean_app; [assumption | now apply quiet_clean] |].
    exists content. repeat (split; [assumption || reflexivity |]).
    intros i chunk Hi. apply sent_ok_app_l, Hparts.
    rewrite chunks_from_enough by lia. exact Hi.
  - destruct Hexit as (-> & ->). split; [exact Hdisc | discriminate].
  - destruct Hexit as (-> & ->). split; [exact Hdisc | discriminate].
  - destruct Hexit as (-> & ->). split; [exact Hdisc | discriminate].
Qed.

Lemma split_and_send_zip_trace cfg env fuel file_path skip_zip w evs w' out :
  split_and_send_zip cfg env fuel file_path skip_zip w = (evs, w', out) ->
  disciplined evs
  /\ forall size, out = Ret (true, size) ->
       clean evs /\ parts_delivered cfg env file_path skip_zip w evs size.
Proof.
  intros Hrun. unfold split_and_send_zip in Hrun. minv Hrun.
  - apply split_and_send_zip_try_trace in Hm as [Hdisc _].
    assert (Hhandler : quiet evs1 /\ forall size, out <> Ret (true, size)).
    { minv Hh.
      - apply send_error_message_quiet in Hm. minv Hk.
        split; [now rewrite app_nil_r | discriminate].
      - apply send_error_message_quiet in Hm. split; [assumption | discriminate].
      - apply send_error_message_quiet in Hm. split; [assumption | discriminate]. }
    destruct Hhandler as [Hquiet Hnot].
    split; [now apply disciplined_before_quiet |].
    intros size Hsize. now apply Hnot in Hsize.
  - now apply split_and_send_zip_try_trace in Hm.
  - apply split_and_send_zip_try_trace in Hm as [Hdisc _].
    split; [exact Hdisc | discriminate].
Qed.

(** ** The trace of send_artifact *)

Lemma send_artifact_trace cfg env fuel send_path base_name w evs w' out :
  send_artifact cfg env fuel send_path base_name w = (evs, w', out) ->
  disciplined evs
  /\ forall size, out = Ret (true, size) ->
       clean evs /\ artifact_delivered cfg env send_path base_name w evs.
Proof.
  intros Hrun. unfold send_artifact in Hrun.
  destruct (fs w !! send_path) as [art |] eqn:Hfile.
  2:{ unfold getsize in Hrun.
      rewrite (bind_raise_run _ _ w [] w (FileNotFoundError send_path)) in Hrun.
      - injection Hrun as <- <- <-. split; [left; constructor | discriminate].
      - apply bind_raise_run. unfold read_file. now rewrite Hfile. }
  rewrite (bind_silent_run _ _ _ _ _ (getsize_run _ _ _ Hfile)) in Hrun.
  unfold artifact_delivered.
  destruct (Z.of_nat (length art) >? MAX_FILE_SIZE cfg) eqn:Hbig.
  - assert (Hsplit : split_and_send_zip cfg env fuel send_path
                       (endswith (lower send_path) ".zip") w = (evs, w', out))
      by (destruct (endswith (lower send_path) ".zip"); exact Hrun).
    apply split_and_send_zip_trace in Hsplit as [Hdisc Htrue].
    split; [exact Hdisc |].
    intros size Hsize. destruct (Htrue size Hsize) as [Hclean Hparts].
    split; [exact Hclean |]. exists art. rewrite Hbig. split; [exact Hfile |].
    destruct Hparts as (content & Hcontent & -> & Hrest).
    rewrite Hfile in Hcontent. injection Hcontent as <-.
    exists art. auto.
  - minv Hrun.
    + pose proof (send_file_same_files _ _ _ _ _ _ _ _ _ _ _ Hm) as Hfs.
      unfold on_states, same_files in Hfs. rewrite <- Hfs in Hfile.
      rewrite (bind_silent_run _ _ _ _ _ (getsize_run _ _ _ Hfile)) in Hk.
      minv Hk. rewrite app_nil_r.
      apply send_file_trace in Hm as [Hdisc Htrue].
      split; [exact Hdisc |].
      intros size [= -> _]. destruct (Htrue eq_refl) as (Hclean & content & Hc & Hsent).
      split; [exact Hclean |]. exists art. rewrite Hbig.
      rewrite Hfs in Hfile. split; [exact Hfile |].
      rewrite Hfile in Hc. now injection Hc as <-.
    + apply send_file_trace in Hm as [Hdisc _]. split; [exact Hdisc | discriminate].
    + apply send_file_trace in Hm as [Hdisc _]. split; [exact Hdisc | discriminate].
Qed.

(** ** The history changes only after a full delivery *)

Lemma clean_no_failure pre ev post :
  clean (pre ++ ev :: post) -> ~ is_terminal_failure ev.
Proof.
  intros Hclean. apply Forall_app in Hclean as [_ Hclean].
  now apply Forall_cons in Hclean as [Hnot _].
Qed.

Lemma post_event_quiet type file fid file_hash size :
  quiet [PostEvent type file fid file_hash size].
Proof. constructor; [simpl; tauto | constructor]. Qed.

(** C1. The history record of a file is written, and the history saved,
    only when the whole delivery succeeded: if a run of process_file
    changes the history table or its copy on disk, no send of the run
    failed terminally and the transport accepted the single artifact or
    every part of the split one. And if some send fails terminally, no
    document is sent after it and the history is left as it was. *)
Theorem history_only_after_full_delivery (cfg : Config) (env : Env) fuel file_path
    w evs w' out :
  process_file cfg env fuel file_path w = (evs, w', out) ->
  (file_history w' <> file_history w \/ disk_history w' <> disk_history w ->
   clean evs
   /\ exists content,
        fs w !! file_path = Some content
        /\ fully_delivered cfg env file_path content evs)
  /\ (forall pre ev post,
        evs = pre ++ ev :: post -> is_terminal_failure ev ->
        quiet post
        /\ file_history w' = file_history w
        /\ disk_history w' = disk_history w).
Proof.
  intros Hrun.
  apply process_file_cases in Hrun
    as [(-> & ->) | (content & send_path & wb & evs_s & ws & sent & Hfile & Hdup & Hart
                     & Hwb & _ & _ & Hnozip & Hsend & Hws & Hres)].
  { split; [intros [H | H]; contradiction |].
    intros pre ev post Heq. now destruct pre. }
  apply send_artifact_trace in Hsend as [Hdisc Htrue].
  assert (Huntouched : forall tail,
            quiet tail -> evs = evs_s ++ tail -> history_untouched w w' ->
            (file_history w' <> file_history w \/ disk_history w' <> disk_history w ->
             clean evs
             /\ exists content0,
                  fs w !! file_path = Some content0
                  /\ fully_delivered cfg env file_path content0 evs)
            /\ (forall pre ev post,
                  evs = pre ++ ev :: post -> is_terminal_failure ev ->
                  quiet post
                  /\ file_history w' = file_history w
                  /\ disk_history w' = disk_history w)).
  { intros tail Htail -> (Hh & Hd & _). split; [intros [H | H]; contradiction |].
    intros pre ev post Heq Hfail. repeat split; [| assumption | assumption].
    eapply disciplined_stops; [| exact Heq | exact Hfail].
    now apply disciplined_before_quiet. }
  destruct sent as [[[|] sent_size] | e |].
  - destruct Hres as (-> & _ & _).
    destruct (Htrue sent_size eq_refl) as (Hclean & art & Hart' & Hdelivered).
    rewrite Hart in Hart'. injection Hart' as <-.
    assert (Hall : clean (evs_s ++ [PostEvent "success" (basename file_path)
                                      (file_counter ws + 1) (md5 env content)
                                      (Z.of_nat (length content))])).
    { apply clean_app; [exact Hclean | apply quiet_clean, post_event_quiet]. }
    split.
    + intros _. split; [exact Hall |]. exists content. split; [exact Hfile |].
      unfold fully_delivered.
      destruct (Z.of_nat (length (artifact cfg env file_path content))
                >? MAX_FILE_SIZE cfg).
      * destruct Hdelivered as (content' & Hc & _ & Hnz & Hparts).
        rewrite Hart in Hc. injection Hc as <-.
        unfold split_input in Hparts. rewrite Hnozip in Hparts.
        split; [exact Hnz |].
        exists (mkdtemp env (temp_count wb)), send_path.
        intros i chunk Hi. apply sent_ok_app_l. now apply Hparts.
      * exists send_path. now apply sent_ok_app_l.
    + intros pre ev post Heq Hfail. rewrite Heq in Hall.
      now apply clean_no_failure in Hall.
  - destruct Hres as (-> & Hw' & _).
    apply (Huntouched [PostEvent "failure" (basename file_path) (file_counter ws)
                         (md5 env content) (Z.of_nat (length content))]);
      [apply post_event_quiet | reflexivity | exact Hw'].
  - destruct Hres as (-> & Hw' & _).
    apply (Huntouched []); [constructor | now rewrite app_nil_r | exact Hw'].
  - destruct Hres as (-> & Hw' & _).
    apply (Huntouched []); [constructor | now rewrite app_nil_r | exact Hw'].
Qed.

(** ** A transport that accepts every call *)

Lemma text_messages_app evs1 evs2 :
  text_messages (evs1 ++ evs2) = text_messages evs1 ++ text_messages evs2.
Proof. apply omap_app. Qed.

Lemma send_file_accepting cfg env fuel file_path caption part_number total_parts w content :
  accepting env ->
  fs w !! file_path = Some content ->
  exists evs w',
    send_file cfg env (S fuel) file_path caption part_number total_parts w
    = (evs, w', Ret true)
    /\ send_requests evs
       = [document_request cfg env file_path caption part_number total_parts content]
    /\ sleeps evs = []
    /\ (ENABLE_FORWARD cfg = false -> text_messages evs = []).
Proof.
  intros Haccept Hfile.
  destruct (Haccept send_document (calls w send_document)) as [msg Hreply].
  destruct (send_file_try_accepted cfg env file_path caption part_number total_parts
              w content msg Hfile Hreply)
    as (fevs & w1 & Hs & Hr & _ & _ & _ & _ & _ & Hoff & Htry).
  destruct (error_messages w !! file_path) as [notice |].
  - destruct (Haccept delete_message (calls w delete_message)) as [r Hdel].
    rewrite Hdel in Htry. simpl in Htry.
    do 2 eexists. split; [simpl; apply (try_except_ret_run _ _ _ _ _ _ Htry) |].
    change (Api ?x ?y :: fevs ++ ?l) with ([Api x y] ++ fevs ++ l).
    rewrite !send_requests_app, !sleeps_app, Hs, Hr.
    repeat split; try reflexivity.
    intros Hno. destruct (Hoff Hno) as [-> _]. reflexivity.
  - do 2 eexists. split; [simpl; apply (try_except_ret_run _ _ _ _ _ _ Htry) |].
    change (Api ?x ?y :: fevs) with ([Api x y] ++ fevs).
    rewrite !send_requests_app, !sleeps_app, Hs, Hr.
    repeat split; try reflexivity.
    intros Hno. destruct (Hoff Hno) as [-> _]. reflexivity.
Qed.

Lemma chunks_unfold chunk_size data :
  chunks chunk_size data
  = (let (chunk, rest) := read chunk_size data in
     match chunk with
     | [] => []
     | _ :: _ => chunk :: chunks chunk_size rest
     end).
Proof.
  unfold chunks at 1. simpl.
  destruct (read chunk_size data) as [[| b chunk] rest] eqn:Hread; [reflexivity |].
  apply read_shrinks in Hread as [_ Hshort].
  f_equal. apply chunks_from_enough. lia.
Qed.

Lemma split_loop_accepting cfg env fuel temp_dir base_name chunk_size total_parts :
  accepting env ->
  forall iters zip_file file_number w,
  (length zip_file < iters)%nat ->
  exists evs w',
    split_loop cfg env iters (S fuel) temp_dir base_name chunk_size total_parts
      zip_file file_number w
    = (evs, w', Ret (Break (file_number
                            + Z.of_nat (length (chunks chunk_size zip_file)))))
    /\ send_requests evs
       = part_requests cfg env temp_dir base_name total_parts file_number
           (chunks chunk_size zip_file)
    /\ sleeps evs = []
    /\ (ENABLE_FORWARD cfg = false -> text_messages evs = []).
Proof.
  intros Haccept.
  induction iters as [| iters IH]; intros zip_file file_number w Hlen; [lia |].
  rewrite chunks_unfold. cbn [split_loop].
  destruct (read chunk_size zip_file) as [[| b chunk] rest] eqn:Hread.
  - exists [], w. simpl. rewrite Z.add_0_r. auto.
  - apply read_shrinks in Hread as [_ Hshort].
    rewrite (bind_silent_run _ _ _ _ _ (write_file_run _ _ _)).
    destruct (send_file_accepting cfg env fuel
                (chunk_name temp_dir base_name file_number)
                (part_caption base_name file_number) (Some file_number)
                (Some total_parts)
                (set_fs (insert (chunk_name temp_dir base_name file_number) (b :: chunk)) w)
                (b :: chunk) Haccept)
      as (evs1 & w1 & Hsend & Hreq1 & Hsl1 & Hmsg1).
    { simpl. apply lookup_insert_eq. }
    rewrite (bind_ret_run _ _ _ _ _ _ Hsend).
    rewrite (bind_silent_run _ _ w1 (set_file_counter (Z.add 1) w1) tt eq_refl).
    destruct (IH rest (file_number + 1) (set_file_counter (Z.add 1) w1))
      as (evs2 & w2 & Hloop & Hreq2 & Hsl2 & Hmsg2); [lia |].
    rewrite Hloop. exists (evs1 ++ evs2), w2.
    split; [f_equal; f_equal; f_equal; simpl length; lia |].
    rewrite send_requests_app, sleeps_app, Hreq1, Hreq2, Hsl1, Hsl2.
    repeat split; try reflexivity.
    intros Hno. now rewrite text_messages_app, Hmsg1, Hmsg2.
Qed.

Lemma send_reassembly_instructions_accepting cfg env base_name file_number w :
  accepting env ->
  exists evs w',
    send_reassembly_instructions cfg env base_name file_number w = (evs, w', Ret tt)
    /\ send_requests evs = [] /\ sleeps evs = []
    /\ (ENABLE_FORWARD cfg = false ->
        text_messages evs
        = [(CHAT_ID cfg, reassembly_instructions cfg base_name file_number)]).
Proof.
  intros Haccept. unfold send_reassembly_instructions, bind, api, ret. simpl.
  destruct (Haccept send_message (calls w send_message)) as [r ->].
  destruct (negb (FORWARD_CHAT_ID cfg =? 0)) eqn:Hchat; simpl.
  - destruct (ENABLE_FORWARD cfg) eqn:Hfwd; simpl.
    + destruct (Haccept send_message (S (calls w send_message))) as [r2 Hr2].
      destruct (decide (send_message = send_message)); [| congruence].
      rewrite Hr2. do 2 eexists. split; [reflexivity |].
      repeat split; discriminate.
    + do 2 eexists. split; [reflexivity |]. repeat split; reflexivity.
  - do 2 eexists. split; [reflexivity |]. repeat split; reflexivity.
Qed.

(** The loop writes under the names of the parts only. *)
Lemma split_loop_keeps_file cfg env fuel temp_dir base_name chunk_size total_parts p :
  (forall i, chunk_name temp_dir base_name i <> p) ->
  forall iters zip_file file_number w evs w' out,
  split_loop cfg env iters fuel temp_dir base_name chunk_size total_parts
    zip_file file_number w = (evs, w', out) ->
  fs w' !! p = fs w !! p.
Proof.
  intros Hp. induction iters as [| iters IH];
    intros zip_file file_number w evs w' out Hrun.
  { now injection Hrun as _ <- _. }
  simpl in Hrun.
  destruct (read chunk_size zip_file) as [[| b chunk] rest].
  { now minv Hrun. }
  rewrite (bind_silent_run _ _ _ _ _ (write_file_run _ _ _)) in Hrun.
  assert (Hstep : forall w1 ev1 (r : Outcome bool),
             send_file cfg env fuel (chunk_name temp_dir base_name file_number)
               (part_caption base_name file_number) (Some file_number) (Some total_parts)
               (set_fs (insert (chunk_name temp_dir base_name file_number) (b :: chunk)) w)
             = (ev1, w1, r) ->
             fs w1 !! p = fs w !! p).
  { intros w1 ev1 r Hsend.
    pose proof (send_file_same_files _ _ _ _ _ _ _ _ _ _ _ Hsend) as Hfs.
    unfold on_states, same_files in Hfs. rewrite Hfs. simpl.
    now apply lookup_insert_ne. }
  minv Hrun; try (now apply (Hstep _ _ _ Hm)).
  destruct a.
  - rewrite (bind_silent_run _ _ w0 (set_file_counter (Z.add 1) w0) tt eq_refl) in Hk.
    apply IH in Hk. rewrite Hk. simpl. now apply (Hstep _ _ _ Hm).
  - minv Hk. now apply (Hstep _ _ _ Hm).
Qed.

Lemma send_reassembly_instructions_same_files cfg env base_name file_number :
  keeps (on_states same_files)
    (send_reassembly_instructions cfg env base_name file_number).
Proof. apply keeps_send_reassembly_instructions; frame. Qed.

Lemma with_temp_dir_run env {A} (body : string -> M A) w evs w1 out :
  body (mkdtemp env (temp_count w)) (next_temp w) = (evs, w1, out) ->
  with_temp_dir env body w
  = (evs, set_fs (filter (fun kv => ¬ is_under (mkdtemp env (temp_count w)) kv.1)) w1, out).
Proof. intros H. unfold with_temp_dir. now rewrite H. Qed.

Lemma os_remove_run path content w :
  fs w !! path = Some content ->
  os_remove path w = ([], set_fs (delete path) w, Ret tt).
Proof.
  intros H. unfold os_remove.
  now rewrite (bind_silent_run _ _ _ _ _ (read_file_run _ _ _ H)).
Qed.

(** With an accepting transport a split succeeds, and the documents
    requested are exactly the blocks of the archive, in order. *)
Lemma split_and_send_zip_accepting cfg env fuel file_path skip_zip w content :
  accepting env ->
  MAX_FILE_SIZE cfg <> 0 ->
  fs w !! file_path = Some content ->
  exists evs w',
    split_and_send_zip cfg env (S fuel) file_path skip_zip w
    = (evs, w', Ret (true, Z.of_nat (length content)))
    /\ send_requests evs
       = part_requests cfg env (mkdtemp env (temp_count w)) (basename file_path)
           (total_parts_of
              (Z.of_nat (length (split_input cfg env file_path skip_zip content)))
              (MAX_FILE_SIZE cfg)) 1
           (chunks (MAX_FILE_SIZE cfg) (split_input cfg env file_path skip_zip content))
    /\ sleeps evs = []
    /\ (ENABLE_FORWARD cfg = false ->
        text_messages evs
        = [(CHAT_ID cfg,
            reassembly_instructions cfg (basename file_path)
              (1 + Z.of_nat (length (chunks (MAX_FILE_SIZE cfg)
                                       (split_input cfg env file_path skip_zip content)))))]).
Proof.
  intros Haccept Hnz Hfile.
  set (archive := split_input cfg env file_path skip_zip content).
  set (temp_dir := mkdtemp env (temp_count w)).
  set (zip_path := if zips_here cfg file_path skip_zip
                   then path_join temp_dir (basename file_path +:+ ".zip")
                   else file_path).
  assert (Hcreate : exists wz,
             create_zip_archive cfg env file_path (basename file_path) temp_dir skip_zip
               (next_temp w) = ([], wz, Ret zip_path)
             /\ fs wz !! zip_path = Some archive).
  { assert (Hfile' : fs (next_temp w) !! file_path = Some content) by exact Hfile.
    unfold create_zip_archive, zip_path, archive, split_input.
    destruct (zips_here cfg file_path skip_zip).
    - eexists. split.
      + now rewrite (bind_silent_run _ _ _ _ _
                       (write_zip_run cfg env _ _ (basename file_path) _ _ Hfile')).
      + simpl. apply lookup_insert_eq.
    - exists (next_temp w). split; [reflexivity | exact Hfile]. }
  destruct Hcreate as (wz & Hcreate & Hzip).
  destruct (split_loop_accepting cfg env fuel temp_dir (basename file_path)
              (MAX_FILE_SIZE cfg)
              (total_parts_of (Z.of_nat (length archive)) (MAX_FILE_SIZE cfg))
              Haccept (S (length archive)) archive 1 wz)
    as (evs_l & wl & Hloop & Hreq & Hsl & Hmsg); [lia |].
  destruct (send_reassembly_instructions_accepting cfg env (basename file_path)
              (1 + Z.of_nat (length (chunks (MAX_FILE_SIZE cfg) archive))) wl Haccept)
    as (evs_t & wt & Hinstr & Hreq_t & Hsl_t & Hmsg_t).
  assert (Hkept : zips_here cfg file_path skip_zip = true ->
                  fs wt !! zip_path = Some archive).
  { intros Hz.
    pose proof (send_reassembly_instructions_same_files _ _ _ _ _ _ _ _ Hinstr) as Hfs.
    unfold on_states, same_files in Hfs. rewrite Hfs.
    rewrite (split_loop_keeps_file _ _ _ _ _ _ _ zip_path
               ltac:(intros i; unfold zip_path; rewrite Hz;
                     apply chunk_name_not_zip_path) _ _ _ _ _ _ _ Hloop).
    exact Hzip. }
  assert (Hremove : exists wr,
             (if zips_here cfg file_path skip_zip
              then os_remove zip_path else ret tt) wt = ([], wr, Ret tt)).
  { destruct (zips_here cfg file_path skip_zip).
    - eexists. apply (os_remove_run _ _ _ (Hkept eq_refl)).
    - now exists wt. }
  destruct Hremove as (wr & Hremove).
  exists (evs_l ++ evs_t), (set_fs (filter (fun kv => ¬ is_under temp_dir kv.1)) wr).
  split.
  - unfold split_and_send_zip. apply try_except_ret_run.
    unfold split_and_send_zip_try.
    rewrite (bind_silent_run _ _ _ _ _ (getsize_run _ _ _ Hfile)).
    apply with_temp_dir_run. fold temp_dir.
    rewrite (bind_silent_run _ _ _ _ _ Hcreate).
    rewrite (bind_silent_run _ _ _ _ _ (getsize_run _ _ _ Hzip)).
    rewrite (bind_silent_run _ _ _ _ _ (count_parts_run _ _ wz Hnz)).
    rewrite (bind_silent_run _ _ _ _ _ (read_file_run _ _ _ Hzip)).
    rewrite (bind_ret_run _ _ _ _ _ _ Hloop).
    rewrite (bind_ret_run _ _ _ _ _ _ Hinstr).
    fold zip_path.
    rewrite (bind_silent_run _ _ _ _ _ Hremove).
    unfold ret. now rewrite !app_nil_r.
  - rewrite send_requests_app, sleeps_app, Hreq, Hreq_t, Hsl, Hsl_t, app_nil_r.
    repeat split; try reflexivity.
    intros Hno. now rewrite text_messages_app, (Hmsg Hno), (Hmsg_t Hno).
Qed.

Lemma part_requests_length cfg env temp_dir base_name total_parts first blocks :
  length (part_requests cfg env temp_dir base_name total_parts first blocks)
  = length blocks.
Proof.
  revert first. induction blocks as [| block blocks IH]; intros first; simpl;
    [reflexivity | now rewrite IH].
Qed.

(** C3. For an archive of S > 0 bytes and a part size P > 0 the loop reads
    ceil(S / P) blocks, this being the value of [total_parts], and the
    blocks concatenated in order are the archive. A split that succeeds has
    had every block accepted under its part number and that total; and
    with a transport that accepts every call the split does succeed, and
    the documents it requests are exactly these blocks in order, part [i]
    under the name [<basename>.<i, three digits>] and with [(Part i/N)]
    appended to its caption. The archive is the file given, or the zip
    that split_and_send_zip makes of it first. *)
Theorem split_reassembly_roundtrip (cfg : Config) (env : Env) :
  (forall chunk_size data,
      0 < chunk_size -> data <> [] ->
      Z.of_nat (length (chunks chunk_size data))
      = total_parts_of (Z.of_nat (length data)) chunk_size
      /\ (total_parts_of (Z.of_nat (length data)) chunk_size - 1) * chunk_size
         < Z.of_nat (length data)
         <= total_parts_of (Z.of_nat (length data)) chunk_size * chunk_size
      /\ concat (chunks chunk_size data) = data)
  /\ (forall fuel file_path skip_zip w evs w' size,
      split_and_send_zip cfg env fuel file_path skip_zip w = (evs, w', Ret (true, size)) ->
      parts_delivered cfg env file_path skip_zip w evs size)
  /\ (forall fuel file_path skip_zip w content,
      accepting env ->
      0 < MAX_FILE_SIZE cfg ->
      fs w !! file_path = Some content ->
      let archive := split_input cfg env file_path skip_zip content in
      archive <> [] ->
      exists evs w',
        split_and_send_zip cfg env (S fuel) file_path skip_zip w
        = (evs, w', Ret (true, Z.of_nat (length content)))
        /\ send_requests evs
           = part_requests cfg env (mkdtemp env (temp_count w)) (basename file_path)
               (total_parts_of (Z.of_nat (length archive)) (MAX_FILE_SIZE cfg)) 1
               (chunks (MAX_FILE_SIZE cfg) archive)
        /\ Z.of_nat (length (send_requests evs))
           = total_parts_of (Z.of_nat (length archive)) (MAX_FILE_SIZE cfg))
  /\ (forall temp_dir base_name total_parts i chunk,
      part_request cfg env temp_dir base_name total_parts i chunk
      = SendDocument (CHAT_ID cfg)
          (path_join temp_dir (base_name +:+ "." +:+ format_03d i)) chunk
          (escape_markdown env ("Part " +:+ str i +:+ " of " +:+ base_name)
           +:+ nl +:+ "\(Part " +:+ str i +:+ "/" +:+ str total_parts +:+ "\)")).
Proof.
  assert (Hpure : forall chunk_size data,
             0 < chunk_size -> data <> [] ->
             Z.of_nat (length (chunks chunk_size data))
             = total_parts_of (Z.of_nat (length data)) chunk_size
             /\ (total_parts_of (Z.of_nat (length data)) chunk_size - 1) * chunk_size
                < Z.of_nat (length data)
                <= total_parts_of (Z.of_nat (length data)) chunk_size * chunk_size
             /\ concat (chunks chunk_size data) = data).
  { intros chunk_size data Hpos Hdata. split; [| split].
    - rewrite (chunks_length chunk_size Hpos (length data) data eq_refl).
      symmetry. now apply total_parts_of_ceiling.
    - now apply ceiling_characterised.
    - apply chunks_concat. lia. }
  split; [exact Hpure |]. split; [| split].
  - intros fuel file_path skip_zip w evs w' size Hrun.
    apply split_and_send_zip_trace in Hrun as [_ Htrue].
    now destruct (Htrue size eq_refl).
  - intros fuel file_path skip_zip w content Haccept Hpos Hfile archive Hdata.
    destruct (split_and_send_zip_accepting cfg env fuel file_path skip_zip w content
                Haccept ltac:(lia) Hfile)
      as (evs & w' & Hrun & Hreq & _).
    exists evs, w'. split; [exact Hrun |]. split; [exact Hreq |].
    rewrite Hreq, part_requests_length.
    now destruct (Hpure (MAX_FILE_SIZE cfg) archive Hpos Hdata).
  - reflexivity.
Qed.

Lemma test_env_accepting : accepting test_env.
Proof. intros m n. eexists. reflexivity. Qed.

Lemma split_reassembly_roundtrip_witness :
  (Z.of_nat (length (chunks 4 ten_bytes)) = total_parts_of 10 4
   /\ (total_parts_of 10 4 - 1) * 4 < 10 <= total_parts_of 10 4 * 4
   /\ concat (chunks 4 ten_bytes) = ten_bytes)
  /\ exists evs w',
       split_and_send_zip test_config test_env 1 "/watch/big.zip" true world_with_archive
       = (evs, w', Ret (true, 10))
       /\ send_requests evs
          = part_requests test_config test_env "/tmp/tmp0" "big.zip" 3 1
              (chunks 4 ten_bytes)
       /\ Z.of_nat (length (send_requests evs)) = 3.
Proof.
  split.
  - apply (proj1 (split_reassembly_roundtrip test_config test_env) 4 ten_bytes).
    + lia.
    + discriminate.
  - apply (proj1 (proj2 (proj2 (split_reassembly_roundtrip test_config test_env)))
             0%nat "/watch/big.zip" true world_with_archive ten_bytes).
    + exact test_env_accepting.
    + simpl. lia.
    + reflexivity.
    + discriminate.
Defined.

Lemma history_only_after_full_delivery_witness :
  exists evs w' out,
    process_file test_config refusing_second_env 3 "/watch/b.txt" world_with_new_file
    = (evs, w', out)
    /\ length (send_requests evs) = 2%nat
    /\ (file_history w' <> file_history world_with_new_file
        \/ disk_history w' <> disk_history world_with_new_file ->
        clean evs
        /\ exists content,
             fs world_with_new_file !! "/watch/b.txt" = Some content
             /\ fully_delivered test_config refusing_second_env "/watch/b.txt" content evs)
    /\ (forall pre ev post,
          evs = pre ++ ev :: post -> is_terminal_failure ev ->
          quiet post
          /\ file_history w' = file_history world_with_new_file
          /\ disk_history w' = disk_history world_with_new_file).
Proof.
  do 3 eexists. split; [vm_compute; reflexivity |].
  split; [vm_compute; reflexivity |].
  eapply (history_only_after_full_delivery test_config refusing_second_env 3
            "/watch/b.txt" world_with_new_file).
  vm_compute. reflexivity.
Defined.

(** ** A large new file and an accepting transport *)

Lemma build_send_path_path cfg env file_path temp_dir w evs wb send_path :
  build_send_path cfg env file_path (basename file_path) temp_dir w
  = (evs, wb, Ret send_path) ->
  send_path = (if sent_as_is cfg file_path then file_path
               else path_join temp_dir (basename file_path +:+ ".zip"))
  /\ temp_count wb = temp_count w.
Proof.
  unfold build_send_path. destruct (sent_as_is cfg file_path); intros Hrun.
  - unfold ret in Hrun. now injection Hrun as _ <- <-.
  - unfold write_zip, write_file, read_file, bind, modify, ret in Hrun.
    destruct (fs w !! file_path); [| discriminate].
    simpl in Hrun. now injection Hrun as _ <- <-.
Qed.

Lemma record_success_run cfg file_path base_name file_hash original_size sent_size w :
  exists w',
    record_success cfg file_path base_name file_hash original_size sent_size w
    = ([PostEvent "success" base_name (file_counter w + 1) file_hash original_size],
       w', Ret tt)
    /\ file_history w'
       = <[file_path := new_record cfg file_hash (file_counter w + 1) original_size
                          sent_size]> (file_history w)
    /\ disk_history w' = file_history w'.
Proof.
  eexists. unfold record_success, save_history, send_event_to_backend, bind, modify,
    get, emit. simpl. rewrite (Z.add_comm 1). repeat split; reflexivity.
Qed.

(** A new file whose artifact is larger than the part size, sent through an
    accepting transport: process_file returns, the documents requested are
    the blocks of the artifact, and the history holds the new record. *)
Lemma process_file_sends_parts cfg env fuel file_path content w :
  accepting env ->
  0 < MAX_FILE_SIZE cfg ->
  fs w !! file_path = Some content ->
  any_hash_match (file_history w) (md5 env content) = false ->
  extension_rejected cfg (basename file_path) = false ->
  (Z.of_nat (length (artifact cfg env file_path content)) >? MAX_FILE_SIZE cfg) = true ->
  exists evs w' send_path fid,
    process_file cfg env (S fuel) file_path w = (evs, w', Ret tt)
    /\ send_path = (if sent_as_is cfg file_path then file_path
                    else path_join (mkdtemp env (temp_count w))
                           (basename file_path +:+ ".zip"))
    /\ send_requests evs
       = part_requests cfg env (mkdtemp env (S (temp_count w))) (basename send_path)
           (total_parts_of (Z.of_nat (length (artifact cfg env file_path content)))
              (MAX_FILE_SIZE cfg))
           1 (chunks (MAX_FILE_SIZE cfg) (artifact cfg env file_path content))
    /\ (ENABLE_FORWARD cfg = false ->
        text_messages evs
        = [(CHAT_ID cfg,
            reassembly_instructions cfg (basename send_path)
              (1 + Z.of_nat (length (chunks (MAX_FILE_SIZE cfg)
                                       (artifact cfg env file_path content)))))])
    /\ file_history w' !! file_path
       = Some (new_record cfg (md5 env content) fid (Z.of_nat (length content))
                 (Z.of_nat (length (artifact cfg env file_path content)))).
Proof.
  intros Haccept Hpos Hfile Hnew Hext Hbig.
  rewrite (process_file_delivers cfg env (S fuel) file_path content w
             Hfile Hnew Hext).
  unfold with_temp_dir.
  destruct (build_send_path_run cfg env file_path (mkdtemp env (temp_count w)) content
              (next_temp w) Hfile)
    as (send_path & wb & Hbuild & Hart & _ & _ & _ & Hnozip).
  destruct (build_send_path_path _ _ _ _ _ _ _ _ Hbuild) as [Hpath Htemp].
  rewrite (bind_silent_run _ _ _ _ _ Hbuild).
  destruct (split_and_send_zip_accepting cfg env fuel send_path
              (endswith (lower send_path) ".zip") wb
              (artifact cfg env file_path content) Haccept ltac:(lia) Hart)
    as (evs_s & ws & Hsplit & Hreq & _ & Hmsg).
  unfold split_input in Hreq, Hmsg. rewrite Hnozip in Hreq, Hmsg.
  assert (Hsend : send_artifact cfg env (S fuel) send_path (basename file_path) wb
                  = (evs_s, ws,
                     Ret (true, Z.of_nat (length (artifact cfg env file_path content))))).
  { unfold send_artifact.
    rewrite (bind_silent_run _ _ _ _ _ (getsize_run _ _ _ Hart)), Hbig.
    destruct (endswith (lower send_path) ".zip"); exact Hsplit. }
  unfold deliver. rewrite (bind_ret_run _ _ _ _ _ _ Hsend). cbn [fst snd].
  destruct (record_success_run cfg file_path (basename file_path) (md5 env content)
              (Z.of_nat (length content))
              (Z.of_nat (length (artifact cfg env file_path content))) ws)
    as (w' & Hrec & Hhist & _).
  rewrite Hrec.
  eexists _, _, send_path, _. split; [reflexivity |].
  split; [exact Hpath |].
  rewrite send_requests_app, text_messages_app, app_nil_r.
  split; [rewrite Hreq, Htemp; reflexivity |].
  split; [intros Hno; rewrite (Hmsg Hno); reflexivity |].
  simpl. rewrite Hhist. apply lookup_insert_eq.
Qed.

(** An archive of more than one and at most two blocks. *)
Lemma chunks_two chunk_size data :
  0 < chunk_size ->
  chunk_size < Z.of_nat (length data) <= 2 * chunk_size ->
  chunks chunk_size data
  = [take (Z.to_nat chunk_size) data; drop (Z.to_nat chunk_size) data]
  /\ Z.of_nat (length (take (Z.to_nat chunk_size) data)) = chunk_size
  /\ Z.of_nat (length (drop (Z.to_nat chunk_size) data))
     = Z.of_nat (length data) - chunk_size
  /\ take (Z.to_nat chunk_size) data ++ drop (Z.to_nat chunk_size) data = data.
Proof.
  intros Hpos [Hlow Hhigh].
  assert (Hdrop : Z.of_nat (length (drop (Z.to_nat chunk_size) data))
                  = Z.of_nat (length data) - chunk_size)
    by (rewrite length_drop; lia).
  split; [| split; [rewrite length_take; lia | split; [exact Hdrop | apply take_drop]]].
  rewrite chunks_cons; [| assumption | intros ->; simpl in Hlow; lia].
  f_equal.
  rewrite chunks_cons; [| assumption | intros Heq; rewrite Heq in Hdrop; simpl in Hdrop; lia].
  rewrite take_ge by lia. f_equal.
  rewrite drop_ge by lia. apply chunks_nil.
Qed.

(** ** The scenario of the specification: 100 MiB in, 60 MiB archived *)

(** C6, the code at the scenario's input. A 100 MiB file [name] whose
    archive has 60 MiB is sent as two documents, [name.zip.001] of 45 MiB
    and [name.zip.002] of 15 MiB, which concatenated are the archive, and
    one instructions message follows. But the message tells the reader to
    concatenate [name.zip.zip.*]: a pattern that matches neither part, in
    a text in which no part name occurs. *)
Theorem instructions_name_other_files (content zipped : bytes) (fuel : nat) :
  Z.of_nat (length content) = 100 * 1024 * 1024 ->
  Z.of_nat (length zipped) = 60 * 1024 * 1024 ->
  exists evs w' part1 part2,
    process_file production_config (archive_env zipped) (S fuel) "/watch/name"
      (world_holding "/watch/name" content)
    = (evs, w', Ret tt)
    /\ send_requests evs
       = [part_request production_config (archive_env zipped) "/tmp/tmp1" "name.zip"
            2 1 part1;
          part_request production_config (archive_env zipped) "/tmp/tmp1" "name.zip"
            2 2 part2]
    /\ chunk_name "/tmp/tmp1" "name.zip" 1 = "/tmp/tmp1/name.zip.001"
    /\ chunk_name "/tmp/tmp1" "name.zip" 2 = "/tmp/tmp1/name.zip.002"
    /\ Z.of_nat (length part1) = 45 * 1024 * 1024
    /\ Z.of_nat (length part2) = 15 * 1024 * 1024
    /\ part1 ++ part2 = zipped
    /\ text_messages evs
       = [(7, reassembly_instructions production_config "name.zip" 3)]
    /\ contains "cat name.zip.zip.* > name.zip.zip"
         (reassembly_instructions production_config "name.zip" 3) = true
    /\ contains "name.zip.0"
         (reassembly_instructions production_config "name.zip" 3) = false
    /\ String.prefix "name.zip.zip." "name.zip.001" = false
    /\ String.prefix "name.zip.zip." "name.zip.002" = false.
Proof.
  intros Hcontent Hzipped.
  assert (Hart : artifact production_config (archive_env zipped) "/watch/name" content
                 = zipped) by reflexivity.
  assert (Hmax : MAX_FILE_SIZE production_config = 47185920) by reflexivity.
  destruct (chunks_two (MAX_FILE_SIZE production_config) zipped)
    as (Hchunks & Hlen1 & Hlen2 & Hcat).
  { rewrite Hmax. lia. }
  { rewrite Hmax, Hzipped. lia. }
  destruct (process_file_sends_parts production_config (archive_env zipped) fuel
              "/watch/name" content (world_holding "/watch/name" content))
    as (evs & w' & send_path & fid & Hrun & Hpath & Hreq & Hmsg & _).
  - intros m n. eexists. reflexivity.
  - rewrite Hmax. lia.
  - apply lookup_singleton_eq.
  - reflexivity.
  - reflexivity.
  - rewrite Hart, Hzipped, Hmax. reflexivity.
  - assert (Hsend : send_path = "/tmp/tmp0/name.zip") by (rewrite Hpath; reflexivity).
    subst send_path.
    rewrite Hart, Hchunks in Hreq, Hmsg. rewrite Hzipped, Hmax in Hreq.
    exists evs, w', (take (Z.to_nat (MAX_FILE_SIZE production_config)) zipped),
      (drop (Z.to_nat (MAX_FILE_SIZE production_config)) zipped).
    split; [exact Hrun |].
    split; [exact Hreq |].
    split; [reflexivity |]. split; [reflexivity |].
    split; [rewrite Hlen1, Hmax; reflexivity |].
    split; [rewrite Hlen2, Hzipped, Hmax; reflexivity |].
    split; [exact Hcat |].
    split; [exact (Hmsg eq_refl) |].
    repeat split; vm_compute; reflexivity.
Qed.

Lemma replicate_size (n : Z) (b : Byte.byte) :
  0 <= n -> Z.of_nat (length (replicate (Z.to_nat n) b)) = n.
Proof. intros Hn. rewrite length_replicate. now apply Z2Nat.id. Qed.

Lemma instructions_name_other_files_witness :
  exists evs w' part1 part2,
    process_file production_config (archive_env sixty_mib) 1 "/watch/name"
      (world_holding "/watch/name" hundred_mib)
    = (evs, w', Ret tt)
    /\ send_requests evs
       = [part_request production_config (archive_env sixty_mib) "/tmp/tmp1" "name.zip"
            2 1 part1;
          part_request production_config (archive_env sixty_mib) "/tmp/tmp1" "name.zip"
            2 2 part2]
    /\ chunk_name "/tmp/tmp1" "name.zip" 1 = "/tmp/tmp1/name.zip.001"
    /\ chunk_name "/tmp/tmp1" "name.zip" 2 = "/tmp/tmp1/name.zip.002"
    /\ Z.of_nat (length part1) = 45 * 1024 * 1024
    /\ Z.of_nat (length part2) = 15 * 1024 * 1024
    /\ part1 ++ part2 = sixty_mib
    /\ text_messages evs
       = [(7, reassembly_instructions production_config "name.zip" 3)]
    /\ contains "cat name.zip.zip.* > name.zip.zip"
         (reassembly_instructions production_config "name.zip" 3) = true
    /\ contains "name.zip.0"
         (reassembly_instructions production_config "name.zip" 3) = false
    /\ String.prefix "name.zip.zip." "name.zip.001" = false
    /\ String.prefix "name.zip.zip." "name.zip.002" = false.
Proof.
  apply (instructions_name_other_files hundred_mib sixty_mib 0%nat).
  - unfold hundred_mib. apply replicate_size. lia.
  - unfold sixty_mib. apply replicate_size. lia.
Defined.

(** ** A file that raises, and the rest of the cycle *)

(** The loop over the sorted files stops at the first file whose pipeline
    raises: the files after it are not looked at. *)
Lemma for_each_stops_at_raise {A} (body : A -> M unit) before x after w evs_b w1 evs_x w2 e :
  for_each before body w = (evs_b, w1, Ret tt) ->
  body x w1 = (evs_x, w2, Raise e) ->
  for_each (before ++ x :: after) body w = (evs_b ++ evs_x, w2, Raise e).
Proof.
  revert w evs_b. induction before as [| y before IH]; intros w evs_b Hbefore Hx.
  - simpl in Hbefore. unfold ret in Hbefore. injection Hbefore as <- <-.
    simpl. now apply bind_raise_run.
  - simpl in Hbefore |- *. unfold bind at 1 in Hbefore.
    destruct (body y w) as [[evs_y wy] [[] | |]] eqn:Hy; try discriminate.
    destruct (for_each before body wy) as [[evs_r wr] r] eqn:Hrest.
    injection Hbefore as <- <- ->.
    rewrite (bind_ret_run _ _ _ _ _ _ Hy), (IH _ _ Hrest Hx).
    now rewrite app_assoc.
Qed.

(** The handler of [main]: whatever the cycle does, the round ends
    normally. *)
Lemma guarded_cycle_returns cfg env fuel w evs w' out :
  try_except (cycle cfg env fuel) (fun _ => sleep (CHECK_INTERVAL cfg)) w
  = (evs, w', out) ->
  out = Ret tt \/ out = Diverge.
Proof.
  intros Hrun. minv Hrun.
  - unfold sleep in Hh. minv Hh. now left.
  - destruct a. now left.
  - now right.
Qed.

(** The scheduling loop is never left by an exception, nor by returning. *)
Lemma main_loop_never_ends cfg env fuel cycles :
  forall w evs w' out,
  main_loop cfg env cycles fuel w = (evs, w', out) -> out = Diverge.
Proof.
  induction cycles as [| cycles IH]; intros w evs w' out Hrun.
  - now injection Hrun as <- <- <-.
  - simpl in Hrun. minv Hrun.
    + eapply IH. exact Hk.
    + apply guarded_cycle_returns in Hm as [Hm | Hm]; discriminate.
    + reflexivity.
Qed.

(** C5, as the code has it. An exception that escapes one file's pipeline
    ends the cycle: it passes the loop over the files, so the files after
    it in the sorted order are not processed in that cycle, and is caught
    by the handler around the whole cycle, which sleeps [CHECK_INTERVAL];
    the scheduling loop then starts the next cycle, and no exception ever
    leaves it. *)
Theorem bad_file_ends_cycle_not_loop (cfg : Config) (env : Env) :
  (forall fuel before file_path after w evs_b w1 evs_f w2 e,
      for_each before (process_file cfg env fuel) w = (evs_b, w1, Ret tt) ->
      process_file cfg env fuel file_path w1 = (evs_f, w2, Raise e) ->
      for_each (before ++ file_path :: after) (process_file cfg env fuel) w
      = (evs_b ++ evs_f, w2, Raise e))
  /\ (forall fuel cycles w evs w1 e,
      cycle cfg env fuel w = (evs, w1, Raise e) ->
      main_loop cfg env (S cycles) fuel w
      = (let '(evs', w', out) := main_loop cfg env cycles fuel w1 in
         (evs ++ Sleep (CHECK_INTERVAL cfg) :: evs', w', out)))
  /\ (forall fuel cycles w evs w' out,
      main_loop cfg env cycles fuel w = (evs, w', out) -> out = Diverge).
Proof.
  split; [| split].
  - intros fuel before file_path after w evs_b w1 evs_f w2 e.
    apply for_each_stops_at_raise.
  - intros fuel cycles w evs w1 e Hcycle. simpl.
    assert (Hguard : try_except (cycle cfg env fuel)
                       (fun _ => sleep (CHECK_INTERVAL cfg)) w
                     = (evs ++ [Sleep (CHECK_INTERVAL cfg)], w1, Ret tt)).
    { now rewrite (try_except_raise_run _ _ _ _ _ _ Hcycle). }
    rewrite (bind_ret_run _ _ _ _ _ _ Hguard).
    destruct (main_loop cfg env cycles fuel w1) as [[evs' w'] out].
    now rewrite <- app_assoc.
  - intros fuel cycles. apply main_loop_never_ends.
Qed.

(** The claim fails here: the vanished file raises, and the cycle ends
    without a single event, although the file after it would have been sent
    had the cycle gone on; the next cycle repeats this. *)
Lemma bad_file_ends_cycle_counterexample :
  (exists w1, sorted_files test_config test_env world_with_stale_cache
              = ([], w1, Ret ["/watch/gone.txt"; "/watch/b.txt"]))
  /\ (exists w1, cycle test_config test_env 3 world_with_stale_cache
                 = ([], w1, Raise (FileNotFoundError "/watch/gone.txt"))
                 /\ file_history w1 = ∅)
  /\ length (send_requests
               (process_file test_config test_env 3 "/watch/b.txt"
                  world_with_stale_cache).1.1) = 3%nat
  /\ (exists w2, main_loop test_config test_env 2 3 world_with_stale_cache
                 = ([Sleep 60; Sleep 60], w2, Diverge)
                 /\ file_history w2 = ∅).
Proof.
  split; [| split; [| split]].
  - eexists. vm_compute. reflexivity.
  - eexists. split; vm_compute; reflexivity.
  - vm_compute. reflexivity.
  - eexists. split; vm_compute; reflexivity.
Qed.

Lemma bad_file_ends_cycle_not_loop_witness :
  (exists w1,
     for_each (["/watch/gone.txt"] ++ ["/watch/b.txt"])
       (process_file test_config test_env 3) world_with_stale_cache
     = ([], w1, Raise (FileNotFoundError "/watch/gone.txt")))
  /\ (exists evs w' out,
        main_loop test_config test_env 2 3 world_with_stale_cache = (evs, w', out)
        /\ out = Diverge).
Proof.
  split.
  - eexists.
    apply (proj1 (bad_file_ends_cycle_not_loop test_config test_env) 3%nat []
             "/watch/gone.txt" ["/watch/b.txt"] world_with_stale_cache []
             world_with_stale_cache []);
      vm_compute; reflexivity.
  - do 3 eexists. split; [vm_compute; reflexivity |].
    eapply (proj2 (proj2 (bad_file_ends_cycle_not_loop test_config test_env))
              3%nat 2%nat world_with_stale_cache).
    vm_compute. reflexivity.
Defined.

(** * Further properties of the code *)

(** * Further properties of the code *)

(** Splits the membership of an event in a trace that is written out. *)
Ltac in_trace :=
  repeat match goal with
         | H : _ ∈ _ ++ _ |- _ => apply elem_of_app in H as [H | H]
         | H : _ ∈ _ :: _ |- _ => apply elem_of_cons in H as [H | H]
         | H : _ ∈ [] |- _ => apply elem_of_nil in H; contradiction
         end.

(** ** forward_message *)

Lemma forward_message_cases cfg env msg w :
  exists evs w',
    forward_message cfg env msg w = (evs, w', Ret tt)
    /\ (forall rq rp, Api rq rp ∈ evs ->
          rq = GetMe
          \/ (exists user, rq = GetChatMember (FORWARD_CHAT_ID cfg) user)
          \/ rq = ForwardMessage (FORWARD_CHAT_ID cfg) (CHAT_ID cfg) (id msg))
    /\ ((exists rp, Api (ForwardMessage (FORWARD_CHAT_ID cfg) (CHAT_ID cfg) (id msg)) rp
                    ∈ evs)
        <-> exists user member,
              reply env get_me (calls w get_me) = Ok user
              /\ reply env get_chat_member (calls w get_chat_member) = Ok member
              /\ status member <> "kicked")
    /\ (forall ev, ev ∈ evs -> exists rq rp, ev = Api rq rp)
    /\ fs w' = fs w /\ file_history w' = file_history w
    /\ disk_history w' = disk_history w
    /\ file_counter w' = file_counter w /\ error_messages w' = error_messages w.
Proof.
  unfold forward_message, swallow_telegram_error, try_except, bind, api, ret. simpl.
  destruct (reply env get_me (calls w get_me)) as [bot_user | e1] eqn:Hme; simpl.
  - destruct (reply env get_chat_member (calls w get_chat_member))
      as [chat_member | e2] eqn:Hmember; simpl.
    + destruct (String.eqb_spec (status chat_member) "kicked") as [Hk | Hk]; simpl.
      * do 2 eexists. split; [reflexivity |]. simpl.
        split; [intros rq rp Hin; in_trace; injection Hin as -> _; eauto |].
        split; [| split; [intros ev Hin; in_trace; subst; eauto | tauto]].
        split.
        -- intros [rp Hin]. in_trace; discriminate.
        -- intros (user & member & _ & [= <-] & Hnot). contradiction.
      * destruct (reply env forward_message_ _) as [fwd | e3]; simpl;
          do 2 eexists; (split; [reflexivity |]); simpl;
          (split; [intros rq rp Hin; in_trace; injection Hin as -> _; eauto |]);
          (split; [| split; [intros ev Hin; in_trace; subst; eauto | tauto]]);
          (split; [intros _; eauto | intros _; eexists; do 2 right; left; reflexivity]).
    + do 2 eexists. split; [reflexivity |]. simpl.
      split; [intros rq rp Hin; in_trace; injection Hin as -> _; eauto |].
      split; [| split; [intros ev Hin; in_trace; subst; eauto | tauto]].
      split.
      * intros [rp Hin]. in_trace; discriminate.
      * intros (user & member & _ & [=] & _).
  - do 2 eexists. split; [reflexivity |]. simpl.
    split; [intros rq rp Hin; in_trace; injection Hin as -> _; eauto |].
    split; [| split; [intros ev Hin; in_trace; subst; eauto | tauto]].
    split.
    + intros [rp Hin]. in_trace; discriminate.
    + intros (user & member & [=] & _).
Qed.

(** ** The shape of every run of send_file *)

Lemma forward_if_enabled cfg env msg w :
  exists fevs w1,
    (if ENABLE_FORWARD cfg then forward_message cfg env msg else ret tt) w
    = (fevs, w1, Ret tt)
    /\ (forall rq rp, Api rq rp ∈ fevs ->
          ENABLE_FORWARD cfg = true
          /\ (rq = GetMe
              \/ (exists user, rq = GetChatMember (FORWARD_CHAT_ID cfg) user)
              \/ rq = ForwardMessage (FORWARD_CHAT_ID cfg) (CHAT_ID cfg) (id msg)))
    /\ sleeps fevs = [] /\ send_requests fevs = [] /\ text_messages fevs = []
    /\ fs w1 = fs w /\ error_messages w1 = error_messages w
    /\ calls w1 send_document = calls w send_document
    /\ calls w1 send_message = calls w send_message
    /\ calls w1 delete_message = calls w delete_message.
Proof.
  destruct (ENABLE_FORWARD cfg).
  - destruct (forward_message_cases cfg env msg w)
      as (fevs & w1 & Hrun & Hreq & _).
    assert (Htext : text_messages fevs = []).
    { destruct (text_messages fevs) as [| [chat_id text] rest] eqn:Htext; [reflexivity |].
      assert (Hin : (chat_id, text) ∈ text_messages fevs)
        by (rewrite Htext; apply list_elem_of_here).
      apply list_elem_of_omap in Hin as (ev & Hev & Hsome).
      destruct ev as [[] rp | | |]; try discriminate.
      destruct (Hreq _ _ Hev) as [H | [[user H] | H]]; discriminate. }
    destruct (forward_message_run cfg env msg w)
      as (fevs' & w1' & Hrun' & Hs & Hr & He & Hf & Hd & Hm & Hdel).
    rewrite Hrun in Hrun'. injection Hrun' as <- <-.
    exists fevs, w1. split; [exact Hrun |].
    split; [intros rq rp Hin; split; [reflexivity | now apply (Hreq rq rp)] |].
    tauto.
  - exists [], w. split; [reflexivity |].
    split; [intros rq rp Hin; in_trace |]. tauto.
Qed.

Lemma send_file_try_shape cfg env file_path caption part_number total_parts w evs1 w1 r1 :
  send_file_try cfg env file_path caption part_number total_parts w = (evs1, w1, r1) ->
  fs w1 = fs w
  /\ (forall rq rp, Api rq rp ∈ evs1 ->
        may_request cfg env w file_path caption part_number total_parts rq)
  /\ (sleeps evs1 = [] /\ text_messages evs1 = [])
  /\ match r1 with
     | Ret b =>
         b = true /\ error_messages w1 = delete file_path (error_messages w)
         /\ exists content,
              fs w !! file_path = Some content
              /\ send_requests evs1
                 = [document_request cfg env file_path caption part_number total_parts
                      content]
     | Raise (TelegramErr e) =>
         error_messages w1 = error_messages w
         /\ exists content,
              fs w !! file_path = Some content
              /\ send_requests evs1
                 = [document_request cfg env file_path caption part_number total_parts
                      content]
     | Raise exc =>
         exc = FileNotFoundError file_path /\ evs1 = [] /\ w1 = w
         /\ fs w !! file_path = None
     | Diverge => False
     end.
Proof.
  intros Hrun.
  destruct (fs w !! file_path) as [content |] eqn:Hfile.
  2:{ rewrite (send_file_try_missing cfg env _ caption part_number total_parts _ Hfile)
        in Hrun.
      injection Hrun as <- <- <-.
      split; [reflexivity |]. split; [intros rq rp Hin; in_trace |]. tauto. }
  destruct (reply env send_document (calls w send_document)) as [msg | e] eqn:Hreply.
  2:{ rewrite (send_file_try_refused cfg env _ caption part_number total_parts _ _ _
                 Hfile Hreply) in Hrun.
      injection Hrun as <- <- <-.
      split; [reflexivity |].
      split; [intros rq rp Hin; in_trace; injection Hin as -> _; simpl; tauto |].
      split; [split; reflexivity |]. split; [reflexivity |]. eauto. }
  destruct (forward_if_enabled cfg env msg (tick send_document w))
    as (fevs & w2 & Hfwd & Hreq & Hs & Hr & Ht & Hf & He & _ & _ & Hdel).
  simpl in Hf, He, Hdel.
  unfold send_file_try in Hrun.
  rewrite (bind_silent_run _ _ w w content (read_file_run _ _ _ Hfile)) in Hrun.
  assert (Hapi : api env (document_request cfg env file_path caption part_number
                            total_parts content) w
                 = ([Api (document_request cfg env file_path caption part_number
                            total_parts content) (Ok msg)],
                    tick send_document w, Ret msg)).
  { unfold api. simpl. now rewrite Hreply. }
  unfold document_request in Hapi.
  rewrite (bind_ret_run _ _ _ _ _ _ Hapi) in Hrun.
  rewrite (bind_ret_run _ _ _ _ _ _ Hfwd) in Hrun.
  rewrite (bind_silent_run _ _ w2 w2 (error_messages w2 !! file_path) eq_refl) in Hrun.
  rewrite He in Hrun.
  assert (Hpre : forall rq rp,
             Api rq rp ∈ Api (document_request cfg env file_path caption part_number
                                total_parts content) (Ok msg) :: fevs ->
             may_request cfg env w file_path caption part_number total_parts rq).
  { intros rq rp Hin. apply elem_of_cons in Hin as [Hin | Hin].
    - injection Hin as -> _. simpl. tauto.
    - destruct (Hreq _ _ Hin) as [Hon [-> | [[user ->] | ->]]]; simpl; tauto. }
  destruct (error_messages w !! file_path) as [notice |] eqn:Htracked.
  - unfold bind, api, modify, ret in Hrun. simpl in Hrun. rewrite Hdel in Hrun.
    destruct (reply env delete_message (calls w delete_message)) as [r | e];
      simpl in Hrun; rewrite ?app_nil_r in Hrun; injection Hrun as <- <- <-; simpl.
    + split; [exact Hf |].
      split; [intros rq rp Hin; in_trace;
              [injection Hin as -> _; simpl; tauto
              | apply (Hpre rq rp); now right
              | injection Hin as -> _; simpl; tauto] |].
      rewrite sleeps_app, text_messages_app, Hs, Ht.
      split; [split; reflexivity |]. split; [reflexivity |].
      split; [now rewrite He |].
      exists content. split; [reflexivity |]. now rewrite send_requests_app, Hr.
    + split; [exact Hf |].
      split; [intros rq rp Hin; in_trace;
              [injection Hin as -> _; simpl; tauto
              | apply (Hpre rq rp); now right
              | injection Hin as -> _; simpl; tauto] |].
      rewrite sleeps_app, text_messages_app, Hs, Ht. split; [split; reflexivity |].
      split; [exact He |].
      exists content. split; [reflexivity |]. now rewrite send_requests_app, Hr.
  - unfold ret in Hrun. simpl in Hrun. rewrite app_nil_r in Hrun.
    injection Hrun as <- <- <-.
    split; [exact Hf |]. split; [exact Hpre |].
    split; [split; [exact Hs | exact Ht] |]. split; [reflexivity |].
    split; [rewrite He; symmetry; now apply delete_id |].
    exists content. split; [reflexivity |]. simpl. now rewrite Hr.
Qed.

Lemma may_request_same cfg env w w1 file_path caption part_number total_parts rq :
  fs w1 = fs w -> error_messages w1 = error_messages w ->
  may_request cfg env w1 file_path caption part_number total_parts rq ->
  may_request cfg env w file_path caption part_number total_parts rq.
Proof. intros Hf He. destruct rq; simpl; rewrite ?Hf, ?He; tauto. Qed.

Lemma send_file_shape cfg env fuel :
  forall file_path caption part_number total_parts w evs w' out,
  send_file cfg env fuel file_path caption part_number total_parts w = (evs, w', out) ->
  fs w' = fs w
  /\ (forall rq rp, Api rq rp ∈ evs ->
        may_request cfg env w file_path caption part_number total_parts rq)
  /\ match out with
     | Ret true =>
         error_messages w' = delete file_path (error_messages w)
         /\ text_messages evs = []
     | Ret false =>
         exists pre notice,
           evs = pre ++ [Api (SendMessage (CHAT_ID cfg) (error_notice file_path))
                           (Ok notice)]
           /\ error_messages w' = <[file_path := id notice]> (error_messages w)
     | Raise (TelegramErr e) =>
         exists pre,
           evs = pre ++ [Api (SendMessage (CHAT_ID cfg) (error_notice file_path))
                           (Fails e)]
           /\ error_messages w' = error_messages w
     | Raise exc =>
         exc = FileNotFoundError file_path /\ evs = [] /\ w' = w
         /\ fs w !! file_path = None
     | Diverge =>
         length (sleeps evs) = fuel /\ length (send_requests evs) = fuel
     end.
Proof.
  induction fuel as [| fuel IH];
    intros file_path caption part_number total_parts w evs w' out Hrun.
  { injection Hrun as <- <- <-. split; [reflexivity |].
    split; [intros rq rp Hin; in_trace | tauto]. }
  simpl in Hrun. minv Hrun.
  - destruct (send_file_try_shape _ _ _ _ _ _ _ _ _ _ Hm)
      as (Hf & Hmay & [Hs Ht] & Hout).
    destruct e as [te | path | | msg].
    2:{ destruct Hout as (Hexc & -> & -> & Hnone). minv Hh.
        split; [reflexivity |]. split; [intros rq rp Hin; in_trace | tauto]. }
    2:{ destruct Hout as (Hexc & _). discriminate. }
    2:{ destruct Hout as (Hexc & _). discriminate. }
    destruct Hout as (He & content & Hfile & Hreq).
    destruct (is_flood_control te).
    + minv Hh; [| discriminate Hm0 | discriminate Hm0].
      unfold sleep in Hm0. minv Hm0.
      destruct (IH _ _ _ _ _ _ _ _ Hk) as (Hf2 & Hmay2 & Hout2).
      split; [congruence |].
      split.
      { intros rq rp Hin. in_trace; [now apply (Hmay rq rp) | discriminate |].
        eapply may_request_same; [exact Hf | exact He |]. now apply (Hmay2 rq rp). }
      destruct out as [[|] | [te2 | path | | msg] |].
      * destruct Hout2 as [Herr Htext]. rewrite Herr, He. split; [reflexivity |].
        rewrite text_messages_app, Ht. exact Htext.
      * destruct Hout2 as (pre & notice & -> & Herr).
        exists (evs0 ++ Sleep (retry_after te) :: pre), notice.
        split; [now rewrite <- !app_assoc | now rewrite Herr, He].
      * destruct Hout2 as (pre & -> & Herr).
        exists (evs0 ++ Sleep (retry_after te) :: pre).
        split; [now rewrite <- !app_assoc | now rewrite Herr, He].
      * destruct Hout2 as (_ & _ & -> & Hnone). congruence.
      * destruct Hout2 as (Hexc & _). discriminate.
      * destruct Hout2 as (Hexc & _). discriminate.
      * destruct Hout2 as (Hsl & Hrq).
        rewrite sleeps_app, send_requests_app, Hs, Hreq. simpl.
        now rewrite Hsl, Hrq.
    + unfold report_send_error, bind, api, modify, ret in Hh. simpl in Hh.
      destruct (reply env send_message (calls w0 send_message)) as [notice | e2];
        injection Hh as <- <- <-; simpl.
      * split; [exact Hf |].
        split; [intros rq rp Hin; in_trace;
                [now apply (Hmay rq rp) | injection Hin as -> _; simpl; tauto] |].
        exists evs0, notice. split; [reflexivity | now rewrite He].
      * split; [exact Hf |].
        split; [intros rq rp Hin; in_trace;
                [now apply (Hmay rq rp) | injection Hin as -> _; simpl; tauto] |].
        exists evs0. split; [reflexivity | exact He].
  - destruct (send_file_try_shape _ _ _ _ _ _ _ _ _ _ Hm)
      as (Hf & Hmay & [Hs Ht] & Hout).
    destruct Hout as (-> & Herr & _). auto.
  - destruct (send_file_try_shape _ _ _ _ _ _ _ _ _ _ Hm) as (_ & _ & _ & []).
Qed.

(** X1. forward_message is best effort: it always returns, whatever the
    transport answers; it asks for the bot's identity, for its membership
    of the forward chat and, at most, for the forwarding of the message it
    was given from [CHAT_ID] to [FORWARD_CHAT_ID]; the forwarding is asked
    for exactly when both lookups succeed and the bot is not kicked; files,
    history, counter and tracked notices are left as they were. *)
Theorem forward_message_is_best_effort (cfg : Config) (env : Env) (msg : Response)
    (w : World) :
  exists evs w',
    forward_message cfg env msg w = (evs, w', Ret tt)
    /\ (forall rq rp, Api rq rp ∈ evs ->
          rq = GetMe
          \/ (exists user, rq = GetChatMember (FORWARD_CHAT_ID cfg) user)
          \/ rq = ForwardMessage (FORWARD_CHAT_ID cfg) (CHAT_ID cfg) (id msg))
    /\ ((exists rp, Api (ForwardMessage (FORWARD_CHAT_ID cfg) (CHAT_ID cfg) (id msg)) rp
                    ∈ evs)
        <-> exists user member,
              reply env get_me (calls w get_me) = Ok user
              /\ reply env get_chat_member (calls w get_chat_member) = Ok member
              /\ status member <> "kicked")
    /\ fs w' = fs w /\ file_history w' = file_history w
    /\ disk_history w' = disk_history w
    /\ file_counter w' = file_counter w /\ error_messages w' = error_messages w.
Proof.
  destruct (forward_message_cases cfg env msg w)
    as (evs & w' & Hrun & Hreq & Hfwd & _ & Hrest).
  exists evs, w'. auto.
Qed.

(** X2. A forwarding that fails does not fail the send: once the document
    is accepted, and no notice is tracked for the path, send_file returns
    [True] with the document requested once, whatever the transport answers
    to the calls of forward_message. *)
Theorem forwarding_cannot_fail_a_send (cfg : Config) (env : Env) fuel file_path caption
    part_number total_parts w content msg :
  fs w !! file_path = Some content ->
  reply env send_document (calls w send_document) = Ok msg ->
  error_messages w !! file_path = None ->
  exists fevs w',
    send_file cfg env (S fuel) file_path caption part_number total_parts w
    = (Api (document_request cfg env file_path caption part_number total_parts content)
           (Ok msg) :: fevs, w', Ret true)
    /\ send_requests fevs = [] /\ sleeps fevs = []
    /\ error_messages w' = error_messages w.
Proof.
  intros Hfile Hreply Hnone.
  destruct (send_file_try_accepted cfg env file_path caption part_number total_parts
              w content msg Hfile Hreply)
    as (fevs & w1 & Hs & Hr & He & _ & _ & _ & _ & _ & Htry).
  rewrite Hnone in Htry.
  exists fevs, w1. simpl.
  rewrite (try_except_ret_run _ _ _ _ _ _ Htry). auto.
Qed.

Lemma forwarding_cannot_fail_a_send_witness :
  exists fevs w',
    send_file forwarding_config no_forward_env 1 "/watch/a.txt" "File: a.txt" None None
      world_with_file
    = (Api (document_request forwarding_config no_forward_env "/watch/a.txt"
              "File: a.txt" None None abc) (accepted 100) :: fevs, w', Ret true)
    /\ send_requests fevs = [] /\ sleeps fevs = []
    /\ error_messages w' = error_messages world_with_file.
Proof.
  apply (forwarding_cannot_fail_a_send forwarding_config no_forward_env 0
           "/watch/a.txt" "File: a.txt" None None world_with_file abc
           {| id := 100; status := "member" |}); reflexivity.
Defined.



(** The attempts of a run: the document is requested once per attempt and
    every attempt but the last is followed by one sleep. *)
Lemma send_file_attempts cfg env fuel :
  forall file_path caption part_number total_parts w evs w' out,
  send_file cfg env fuel file_path caption part_number total_parts w = (evs, w', out) ->
  match out with
  | Ret _ | Raise (TelegramErr _) =>
      length (send_requests evs) = S (length (sleeps evs))
      /\ (length (sleeps evs) < fuel)%nat
  | Raise _ => evs = []
  | Diverge => length (sleeps evs) = fuel /\ length (send_requests evs) = fuel
  end.
Proof.
  induction fuel as [| fuel IH];
    intros file_path caption part_number total_parts w evs w' out Hrun.
  { now injection Hrun as <- <- <-. }
  simpl in Hrun. minv Hrun.
  - destruct (send_file_try_shape _ _ _ _ _ _ _ _ _ _ Hm) as (Hf & _ & [Hs _] & Hout).
    destruct e as [te | path | | msg].
    2:{ destruct Hout as (_ & -> & _). now minv Hh. }
    2:{ destruct Hout as (Hexc & _). discriminate. }
    2:{ destruct Hout as (Hexc & _). discriminate. }
    destruct Hout as (_ & content & Hfile & Hreq).
    destruct (is_flood_control te).
    + minv Hh; [| discriminate Hm0 | discriminate Hm0].
      unfold sleep in Hm0. minv Hm0.
      pose proof (send_file_shape _ _ _ _ _ _ _ _ _ _ _ Hk) as (_ & _ & Hshape).
      apply IH in Hk.
      rewrite sleeps_app, send_requests_app, Hs, Hreq. simpl.
      destruct out as [b | [te2 | path | | msg] |]; simpl in Hk |- *;
        try lia;
        destruct Hshape as (_ & _ & _ & Hnone); congruence.
    + unfold report_send_error, bind, api, modify, ret in Hh. simpl in Hh.
      destruct (reply env send_message (calls w0 send_message)) as [notice | e2];
        injection Hh as <- <- <-;
        rewrite sleeps_app, send_requests_app, Hs, Hreq; simpl; lia.
  - destruct (send_file_try_shape _ _ _ _ _ _ _ _ _ _ Hm) as (_ & _ & [Hs _] & Hout).
    destruct Hout as (_ & _ & content & _ & Hreq). rewrite Hs, Hreq. simpl. lia.
  - destruct (send_file_try_shape _ _ _ _ _ _ _ _ _ _ Hm) as (_ & _ & _ & []).
Qed.

(** X4. The attempts of send_file. A run that ends, by a result or by the
    error of a notice, has requested the document exactly once more than it
    has slept: one request per attempt, one sleep after every attempt the
    transport answered with flood control. A run of [n] attempts that has
    not ended has requested the document [n] times and slept [n] times:
    nothing but flood control keeps send_file retrying. *)
Theorem send_file_retries_only_on_flood_control (cfg : Config) (env : Env) fuel file_path
    caption part_number total_parts w evs w' out :
  send_file cfg env fuel file_path caption part_number total_parts w = (evs, w', out) ->
  fs w !! file_path <> None ->
  (out <> Diverge ->
   length (send_requests evs) = S (length (sleeps evs))
   /\ (length (sleeps evs) < fuel)%nat)
  /\ (out = Diverge ->
      length (sleeps evs) = fuel /\ length (send_requests evs) = fuel).
Proof.
  intros Hrun Hfile.
  pose proof (send_file_attempts _ _ _ _ _ _ _ _ _ _ _ Hrun) as Hatt.
  pose proof (send_file_shape _ _ _ _ _ _ _ _ _ _ _ Hrun) as (_ & _ & Hout).
  destruct out as [b | [te | path | | msg] |]; split; try discriminate; try tauto;
    destruct Hout as (_ & _ & _ & Hnone); contradiction.
Qed.

Lemma send_file_retries_only_on_flood_control_witness :
  exists evs w',
    send_file test_config always_flooding_env 3 "/watch/a.txt" "File: a.txt" None None
      world_with_file = (evs, w', Diverge)
    /\ length (sleeps evs) = 3%nat /\ length (send_requests evs) = 3%nat.
Proof.
  do 2 eexists. split; [vm_compute; reflexivity |].
  refine (proj2 (send_file_retries_only_on_flood_control test_config always_flooding_env
                   3 "/watch/a.txt" "File: a.txt" None None world_with_file _ _ Diverge
                   _ _) eq_refl).
  - vm_compute. reflexivity.
  - discriminate.
Defined.

(** The first attempt of a send whose document is accepted while the
    deletion of the tracked notice fails: the attempt raises the error of
    the deletion. *)
Lemma send_file_try_retraction_fails cfg env file_path caption part_number total_parts
    w content msg old e :
  fs w !! file_path = Some content ->
  reply env send_document (calls w send_document) = Ok msg ->
  error_messages w !! file_path = Some old ->
  reply env delete_message (calls w delete_message) = Fails e ->
  exists fevs w1,
    send_file_try cfg env file_path caption part_number total_parts w
    = (Api (document_request cfg env file_path caption part_number total_parts content)
           (Ok msg) :: fevs ++ [Api (DeleteMessage (CHAT_ID cfg) old) (Fails e)],
       w1, Raise (TelegramErr e))
    /\ sleeps fevs = [] /\ send_requests fevs = []
    /\ error_messages w1 = error_messages w /\ fs w1 = fs w
    /\ calls w1 send_document = S (calls w send_document)
    /\ calls w1 send_message = calls w send_message
    /\ calls w1 delete_message = S (calls w delete_message).
Proof.
  intros Hfile Hreply Htracked Hdelete.
  destruct (send_file_try_accepted cfg env file_path caption part_number total_parts
              w content msg Hfile Hreply)
    as (fevs & w1 & Hs & Hr & He & Hf & Hd & Hm & Hdel & _ & Htry).
  rewrite Htracked, Hdelete in Htry. simpl in Htry.
  exists fevs, (tick delete_message w1). simpl.
  split; [exact Htry |]. repeat (split; [assumption |]). now rewrite Hdel.
Qed.

(** X5. A document can be delivered and the send still be reported as
    failed: when the document is accepted but the notice tracked for the
    path cannot be deleted (an error other than flood control), send_file
    sends a new error notice, tracks it in place of the old one, and returns
    [False]. *)
Theorem delivered_but_reported_failed (cfg : Config) (env : Env) fuel file_path caption
    part_number total_parts w content msg old e notice :
  fs w !! file_path = Some content ->
  reply env send_document (calls w send_document) = Ok msg ->
  error_messages w !! file_path = Some old ->
  reply env delete_message (calls w delete_message) = Fails e ->
  is_flood_control e = false ->
  reply env send_message (calls w send_message) = Ok notice ->
  exists fevs w',
    send_file cfg env (S fuel) file_path caption part_number total_parts w
    = (Api (document_request cfg env file_path caption part_number total_parts content)
           (Ok msg)
         :: fevs
         ++ [Api (DeleteMessage (CHAT_ID cfg) old) (Fails e);
             Api (SendMessage (CHAT_ID cfg) (error_notice file_path)) (Ok notice)],
       w', Ret false)
    /\ send_requests fevs = [] /\ sleeps fevs = []
    /\ error_messages w' = <[file_path := id notice]> (error_messages w).
Proof.
  intros Hfile Hreply Htracked Hdelete Hterminal Hnotice.
  destruct (send_file_try_retraction_fails cfg env file_path caption part_number
              total_parts w content msg old e Hfile Hreply Htracked Hdelete)
    as (fevs & w1 & Htry & Hs & Hr & He & _ & _ & Hm & _).
  exists fevs, (set_error_messages (insert file_path (id notice)) (tick send_message w1)).
  simpl. rewrite (try_except_raise_run _ _ _ _ _ _ Htry), Hterminal.
  unfold report_send_error, bind, api, modify, ret, error_notice. simpl.
  rewrite Hm, Hnotice. simpl. rewrite He.
  split; [| auto]. f_equal. f_equal.
  now rewrite <- app_assoc.
Qed.

Lemma delivered_but_reported_failed_witness :
  exists fevs w',
    send_file test_config delete_refusing_env 1 "/watch/a.txt" "File: a.txt" None None
      world_after_refusal
    = (Api (document_request test_config delete_refusing_env "/watch/a.txt"
              "File: a.txt" None None abc) (accepted 101)
         :: fevs
         ++ [Api (DeleteMessage 7 100) (Fails bad_request);
             Api (SendMessage 7 (error_notice "/watch/a.txt")) (accepted 101)],
       w', Ret false)
    /\ send_requests fevs = [] /\ sleeps fevs = []
    /\ error_messages w' = <["/watch/a.txt" := 101]> (error_messages world_after_refusal).
Proof.
  apply (delivered_but_reported_failed test_config delete_refusing_env 0
           "/watch/a.txt" "File: a.txt" None None world_after_refusal abc
           {| id := 101; status := "member" |} 100 bad_request
           {| id := 101; status := "member" |}); reflexivity.
Defined.

(** X6. Flood control on the deletion of a notice makes send_file send the
    document again: the first attempt has the document accepted, the
    deletion is answered with status 429, send_file sleeps and starts over,
    and the second attempt sends the same document once more before the
    notice is deleted. *)
Theorem flood_on_retraction_resends_document (cfg : Config) (env : Env) fuel file_path
    caption part_number total_parts w content msg msg2 old e r :
  fs w !! file_path = Some content ->
  error_messages w !! file_path = Some old ->
  reply env send_document (calls w send_document) = Ok msg ->
  reply env delete_message (calls w delete_message) = Fails e ->
  is_flood_control e = true ->
  reply env send_document (S (calls w send_document)) = Ok msg2 ->
  reply env delete_message (S (calls w delete_message)) = Ok r ->
  exists evs w',
    send_file cfg env (S (S fuel)) file_path caption part_number total_parts w
    = (evs, w', Ret true)
    /\ send_requests evs
       = [document_request cfg env file_path caption part_number total_parts content;
          document_request cfg env file_path caption part_number total_parts content]
    /\ sleeps evs = [retry_after e]
    /\ error_messages w' = delete file_path (error_messages w).
Proof.
  intros Hfile Htracked Hreply Hdelete Hflood Hreply2 Hdelete2.
  destruct (send_file_try_retraction_fails cfg env file_path caption part_number
              total_parts w content msg old e Hfile Hreply Htracked Hdelete)
    as (fevs & w1 & Htry & Hs & Hr & He & Hf & Hd & _ & Hdel).
  assert (Hfile1 : fs w1 !! file_path = Some content) by now rewrite Hf.
  assert (Hreply1 : reply env send_document (calls w1 send_document) = Ok msg2)
    by now rewrite Hd.
  destruct (send_file_try_accepted cfg env file_path caption part_number total_parts
              w1 content msg2 Hfile1 Hreply1)
    as (fevs2 & w2 & Hs2 & Hr2 & He2 & _ & _ & _ & _ & _ & Htry2).
  rewrite He, Htracked, Hdel, Hdelete2 in Htry2. simpl in Htry2.
  assert (Hagain : send_file cfg env (S fuel) file_path caption part_number total_parts w1
                   = (Api (document_request cfg env file_path caption part_number
                             total_parts content) (Ok msg2)
                        :: fevs2 ++ [Api (DeleteMessage (CHAT_ID cfg) old) (Ok r)],
                      set_error_messages (delete file_path) (tick delete_message w2),
                      Ret true)).
  { simpl. now rewrite (try_except_ret_run _ _ _ _ _ _ Htry2). }
  do 2 eexists. split.
  - change (send_file cfg env (S (S fuel)) file_path caption part_number total_parts w)
      with (try_except (send_file_try cfg env file_path caption part_number total_parts)
              (fun exc =>
                 match exc with
                 | TelegramErr e0 =>
                     if is_flood_control e0 then
                       sleep (retry_after e0) ;;;
                       send_file cfg env (S fuel) file_path caption part_number
                         total_parts
                     else report_send_error cfg env file_path
                 | _ => raise exc
                 end) w).
    rewrite (try_except_raise_run _ _ _ _ _ _ Htry), Hflood.
    unfold bind at 1, sleep, emit. rewrite Hagain. reflexivity.
  - simpl. rewrite !send_requests_app, !sleeps_app. simpl.
    rewrite !send_requests_app, !sleeps_app, Hr, Hs, Hr2, Hs2. simpl.
    now rewrite He2, He.
Qed.

Lemma flood_on_retraction_resends_document_witness :
  exists evs w',
    send_file test_config delete_flooding_env 2 "/watch/a.txt" "File: a.txt" None None
      world_after_refusal
    = (evs, w', Ret true)
    /\ send_requests evs
       = [document_request test_config delete_flooding_env "/watch/a.txt" "File: a.txt"
            None None abc;
          document_request test_config delete_flooding_env "/watch/a.txt" "File: a.txt"
            None None abc]
    /\ sleeps evs = [3]
    /\ error_messages w' = delete "/watch/a.txt" (error_messages world_after_refusal).
Proof.
  apply (flood_on_retraction_resends_document test_config delete_flooding_env 0
           "/watch/a.txt" "File: a.txt" None None world_after_refusal abc
           {| id := 101; status := "member" |} {| id := 102; status := "member" |}
           100 (flood_control 3) {| id := 101; status := "member" |}); reflexivity.
Defined.

(** X7. What send_file asks of the transport, in every run: the content of
    its file as a document for [CHAT_ID] under the caption it was given;
    the error notice for its path, to [CHAT_ID]; the deletion of the notice
    that was tracked for its path when it was called, and of no other
    message; and, with forwarding switched on, the calls of
    forward_message. It leaves the files as they were. *)
Theorem send_file_footprint (cfg : Config) (env : Env) fuel file_path caption
    part_number total_parts w evs w' out :
  send_file cfg env fuel file_path caption part_number total_parts w = (evs, w', out) ->
  fs w' = fs w
  /\ forall rq rp,
       Api rq rp ∈ evs ->
       may_request cfg env w file_path caption part_number total_parts rq.
Proof.
  intros Hrun. apply send_file_shape in Hrun as (Hf & Hmay & _). auto.
Qed.

Lemma send_file_footprint_witness :
  exists evs w' out,
    send_file test_config refusing_once_env 1 "/watch/a.txt" "File: a.txt" None None
      world_after_refusal = (evs, w', out)
    /\ fs w' = fs world_after_refusal
    /\ forall rq rp,
         Api rq rp ∈ evs ->
         may_request test_config refusing_once_env world_after_refusal "/watch/a.txt"
           "File: a.txt" None None rq.
Proof.
  do 3 eexists. split; [vm_compute; reflexivity |].
  eapply (send_file_footprint test_config refusing_once_env 1 "/watch/a.txt"
            "File: a.txt" None None world_after_refusal).
  vm_compute. reflexivity.
Defined.

(** ** The error boundary of split_and_send_zip *)

Lemma split_and_send_zip_handler cfg env base_name w evs w' (out : Outcome (bool * Z)) :
  (send_error_message cfg env base_name ;;; ret (false, 0)) w = (evs, w', out) ->
  exists rp,
    evs = [Api (SendMessage (CHAT_ID cfg) (processing_notice base_name)) rp]
    /\ w' = tick send_message w
    /\ rp = reply env send_message (calls w send_message)
    /\ out = match rp with
             | Ok _ => Ret (false, 0)
             | Fails e => Raise (TelegramErr e)
             end.
Proof.
  intros Hrun.
  unfold send_error_message, bind, api, ret, processing_notice in *. simpl in Hrun.
  destruct (reply env send_message (calls w send_message)) as [r | e] eqn:Hreply;
    injection Hrun as <- <- <-; eexists; repeat split; reflexivity.
Qed.

Lemma split_and_send_zip_raises cfg env fuel file_path skip_zip w evs w' exc :
  split_and_send_zip cfg env fuel file_path skip_zip w = (evs, w', Raise exc) ->
  exists e pre,
    exc = TelegramErr e
    /\ evs = pre ++ [Api (SendMessage (CHAT_ID cfg)
                            (processing_notice (basename file_path))) (Fails e)].
Proof.
  intros Hrun. unfold split_and_send_zip in Hrun.
  remember (Raise exc) as out eqn:Hout. minv Hrun.
  - apply split_and_send_zip_handler in Hh as (rp & -> & _ & _ & Hres).
    rewrite Hout in Hres. destruct rp as [r | e2]; [discriminate |].
    injection Hres as ->. eauto.
  - discriminate.
  - discriminate.
Qed.

(** X8. An exception never leaves split_and_send_zip, unless it is the
    [TelegramError] of its own notice: whatever is raised inside (a missing
    file, an error of the instructions, a failing notice of send_file) is
    answered by the notice [Error processing file: <base name>. Check logs.],
    and only the failure of that notice is raised to the caller. *)
Theorem split_and_send_zip_raises_only (cfg : Config) (env : Env) fuel file_path skip_zip
    w evs w' exc :
  split_and_send_zip cfg env fuel file_path skip_zip w = (evs, w', Raise exc) ->
  exists e pre,
    exc = TelegramErr e
    /\ evs = pre ++ [Api (SendMessage (CHAT_ID cfg)
                            (processing_notice (basename file_path))) (Fails e)].
Proof. apply split_and_send_zip_raises. Qed.

Lemma split_and_send_zip_raises_only_witness :
  exists e pre,
    TelegramErr bad_request = TelegramErr e
    /\ [Api (SendMessage 7 (processing_notice "gone.txt")) (Fails bad_request)]
       = pre ++ [Api (SendMessage (CHAT_ID test_config)
                        (processing_notice (basename "/watch/gone.txt"))) (Fails e)].
Proof.
  eapply (split_and_send_zip_raises_only test_config message_refusing_env 1
            "/watch/gone.txt" false world_with_file).
  vm_compute. reflexivity.
Defined.

(** X9. split_and_send_zip of a file that does not exist: nothing is
    archived or sent; the one request is the notice
    [Error processing file: <base name>. Check logs.] to [CHAT_ID], and the
    result is [(False, 0)] when the notice is accepted. *)
Theorem split_and_send_zip_missing_file (cfg : Config) (env : Env) fuel file_path skip_zip
    w notice :
  fs w !! file_path = None ->
  reply env send_message (calls w send_message) = Ok notice ->
  split_and_send_zip cfg env fuel file_path skip_zip w
  = ([Api (SendMessage (CHAT_ID cfg) (processing_notice (basename file_path)))
          (Ok notice)],
     tick send_message w, Ret (false, 0)).
Proof.
  intros Hfile Hnotice. unfold split_and_send_zip.
  assert (Htry : split_and_send_zip_try cfg env fuel file_path (basename file_path)
                   skip_zip w
                 = ([], w, Raise (FileNotFoundError file_path))).
  { unfold split_and_send_zip_try, getsize, read_file, bind. now rewrite Hfile. }
  rewrite (try_except_raise_run _ _ _ _ _ _ Htry).
  unfold send_error_message, bind, api, ret, processing_notice. simpl.
  now rewrite Hnotice.
Qed.

Lemma split_and_send_zip_missing_file_witness :
  split_and_send_zip test_config test_env 1 "/watch/gone.txt" false world_with_file
  = ([Api (SendMessage 7 (processing_notice "gone.txt")) (accepted 100)],
     tick send_message world_with_file, Ret (false, 0)).
Proof.
  apply (split_and_send_zip_missing_file test_config test_env 1 "/watch/gone.txt" false
           world_with_file {| id := 100; status := "member" |}); reflexivity.
Defined.

(** ** The size of the parts *)

Lemma chunks_from_bounds chunk_size :
  0 < chunk_size ->
  forall iters rest i chunk,
  chunks_from iters chunk_size rest !! i = Some chunk ->
  0 < Z.of_nat (length chunk) <= chunk_size
  /\ (is_Some (chunks_from iters chunk_size rest !! S i) ->
      Z.of_nat (length chunk) = chunk_size).
Proof.
  intros Hpos. induction iters as [| iters IH]; intros rest i chunk Hi.
  { simpl in Hi. now rewrite lookup_nil in Hi. }
  cbn [chunks_from] in Hi |- *. rewrite (read_cases _ _ Hpos) in Hi |- *.
  destruct (take (Z.to_nat chunk_size) rest) as [| b block] eqn:Htake.
  { now rewrite lookup_nil in Hi. }
  destruct i as [| i].
  - injection Hi as <-. rewrite <- Htake, length_take. split; [| intros Hnext].
    + assert (length (take (Z.to_nat chunk_size) rest) <> 0)%nat
        by (rewrite Htake; discriminate).
      rewrite length_take in H. lia.
    + simpl in Hnext. destruct iters as [| iters]; [now destruct Hnext |].
      cbn [chunks_from] in Hnext. rewrite (read_cases _ _ Hpos) in Hnext.
      destruct (take (Z.to_nat chunk_size) (drop (Z.to_nat chunk_size) rest))
        as [| b2 block2] eqn:Htake2; [now destruct Hnext |].
      assert (length (take (Z.to_nat chunk_size) (drop (Z.to_nat chunk_size) rest))
              <> 0)%nat by (rewrite Htake2; discriminate).
      rewrite length_take, length_drop in H. lia.
  - simpl in Hi. apply IH in Hi. exact Hi.
Qed.

(** X10. The parts of a split: with a part size [P > 0] every block the
    loop reads is non-empty and at most [P] bytes long, and every block but
    the last is exactly [P] bytes long. *)
Theorem parts_fill_the_part_size (chunk_size : Z) (data : bytes) (i : nat) (chunk : bytes) :
  0 < chunk_size ->
  chunks chunk_size data !! i = Some chunk ->
  0 < Z.of_nat (length chunk) <= chunk_size
  /\ ((S i < length (chunks chunk_size data))%nat ->
      Z.of_nat (length chunk) = chunk_size).
Proof.
  intros Hpos Hi. unfold chunks in *.
  destruct (chunks_from_bounds chunk_size Hpos _ _ _ _ Hi) as [Hsize Hfull].
  split; [exact Hsize |]. intros Hnext. apply Hfull.
  now apply lookup_lt_is_Some_2.
Qed.

Lemma parts_fill_the_part_size_witness :
  0 < Z.of_nat (length [Byte.x61; Byte.x62; Byte.x63; Byte.x64]) <= 4
  /\ ((1 < length (chunks 4 ten_bytes))%nat ->
      Z.of_nat (length [Byte.x61; Byte.x62; Byte.x63; Byte.x64]) = 4).
Proof.
  apply (parts_fill_the_part_size 4 ten_bytes 0
           [Byte.x61; Byte.x62; Byte.x63; Byte.x64]); [lia | reflexivity].
Defined.

(** ** The size of the documents *)

Lemma documents_app evs1 evs2 : documents (evs1 ++ evs2) = documents evs1 ++ documents evs2.
Proof. unfold documents. now rewrite omap_app. Qed.

Lemma quiet_documents evs : quiet evs -> documents evs = [].
Proof.
  unfold quiet. induction 1 as [| ev evs Hev _ IH]; [reflexivity |].
  destruct ev as [[] rp | | |]; simpl in *; try exact IH. now destruct Hev.
Qed.

Lemma within_limit_app cfg evs1 evs2 :
  within_limit cfg evs1 -> within_limit cfg evs2 -> within_limit cfg (evs1 ++ evs2).
Proof. unfold within_limit. rewrite documents_app. apply Forall_app_2. Qed.

Lemma within_limit_quiet cfg evs : quiet evs -> within_limit cfg evs.
Proof. intros H. unfold within_limit. rewrite (quiet_documents _ H). constructor. Qed.

(** Every document send_file hands over is the content of its file. *)
Lemma send_file_documents cfg env fuel file_path caption part_number total_parts
    w evs w' out :
  send_file cfg env fuel file_path caption part_number total_parts w = (evs, w', out) ->
  Forall (fun document => fs w !! file_path = Some document) (documents evs).
Proof.
  intros Hrun. apply send_file_shape in Hrun as (_ & Hmay & _).
  apply Forall_forall. intros document Hin.
  apply list_elem_of_omap in Hin as (ev & Hev & Hdoc).
  destruct ev as [[chat_id path d text | | | | |] rp | | |]; try discriminate.
  injection Hdoc as ->. now destruct (Hmay _ _ Hev) as (_ & _ & Hfile & _).
Qed.

Lemma split_loop_within_limit cfg env fuel temp_dir base_name chunk_size total_parts :
  0 < chunk_size ->
  forall iters zip_file file_number w evs w' out,
  split_loop cfg env iters fuel temp_dir base_name chunk_size total_parts
    zip_file file_number w = (evs, w', out) ->
  Forall (fun document => Z.of_nat (length document) <= chunk_size) (documents evs).
Proof.
  intros Hpos. induction iters as [| iters IH];
    intros zip_file file_number w evs w' out Hrun.
  { injection Hrun as <- <- <-. constructor. }
  cbn [split_loop] in Hrun. rewrite (read_cases _ _ Hpos) in Hrun.
  destruct (take (Z.to_nat chunk_size) zip_file) as [| b chunk] eqn:Htake.
  { minv Hrun. constructor. }
  rewrite (bind_silent_run _ _ _ _ _ (write_file_run _ _ _)) in Hrun.
  assert (Hsend : forall evs1 w1 r,
             send_file cfg env fuel (chunk_name temp_dir base_name file_number)
               (part_caption base_name file_number) (Some file_number) (Some total_parts)
               (set_fs (insert (chunk_name temp_dir base_name file_number) (b :: chunk)) w)
             = (evs1, w1, r) ->
             Forall (fun document => Z.of_nat (length document) <= chunk_size)
               (documents evs1)).
  { intros evs1 w1 r H. apply send_file_documents in H.
    eapply Forall_impl; [exact H |]. intros document Hdoc. simpl in Hdoc.
    rewrite lookup_insert_eq in Hdoc. injection Hdoc as <-.
    rewrite <- Htake, length_take. lia. }
  minv Hrun; try (now apply (Hsend _ _ _ Hm)).
  rewrite documents_app. apply Forall_app_2; [now apply (Hsend _ _ _ Hm) |].
  destruct a.
  - rewrite (bind_silent_run _ _ w0 (set_file_counter (Z.add 1) w0) tt eq_refl) in Hk.
    now apply IH in Hk.
  - minv Hk. constructor.
Qed.

Lemma split_and_send_zip_try_within_limit cfg env fuel file_path skip_zip w evs w' out :
  0 < MAX_FILE_SIZE cfg ->
  split_and_send_zip_try cfg env fuel file_path (basename file_path) skip_zip w
  = (evs, w', out) ->
  within_limit cfg evs.
Proof.
  intros Hpos Hrun.
  destruct (fs w !! file_path) as [content |] eqn:Hfile.
  2:{ unfold split_and_send_zip_try, getsize in Hrun.
      rewrite (bind_raise_run _ _ w [] w (FileNotFoundError file_path)) in Hrun.
      - injection Hrun as <- <- <-. constructor.
      - apply bind_raise_run. unfold read_file. now rewrite Hfile. }
  assert (Hnz : MAX_FILE_SIZE cfg <> 0) by lia.
  destruct (split_and_send_zip_try_cases _ _ _ _ _ _ _ _ _ _ Hfile Hnz Hrun)
    as (wz & evs_l & wl & exit & _ & _ & Hloop & Hexit).
  apply (split_loop_within_limit _ _ _ _ _ _ _ Hpos) in Hloop.
  destruct exit as [[last |] | e |].
  - destruct Hexit as (evs_t & wt & r & Hinstr & -> & _).
    apply send_reassembly_instructions_quiet in Hinstr.
    apply within_limit_app; [exact Hloop | now apply within_limit_quiet].
  - now destruct Hexit as (-> & _).
  - now destruct Hexit as (-> & _).
  - now destruct Hexit as (-> & _).
Qed.

Lemma split_and_send_zip_within_limit cfg env fuel file_path skip_zip w evs w' out :
  0 < MAX_FILE_SIZE cfg ->
  split_and_send_zip cfg env fuel file_path skip_zip w = (evs, w', out) ->
  within_limit cfg evs.
Proof.
  intros Hpos Hrun. unfold split_and_send_zip in Hrun. minv Hrun.
  - apply (split_and_send_zip_try_within_limit _ _ _ _ _ _ _ _ _ Hpos) in Hm.
    apply split_and_send_zip_handler in Hh as (rp & -> & _).
    apply within_limit_app; [exact Hm | constructor].
  - now apply (split_and_send_zip_try_within_limit _ _ _ _ _ _ _ _ _ Hpos) in Hm.
  - now apply (split_and_send_zip_try_within_limit _ _ _ _ _ _ _ _ _ Hpos) in Hm.
Qed.

Lemma send_artifact_within_limit cfg env fuel send_path base_name w evs w' out :
  0 < MAX_FILE_SIZE cfg ->
  send_artifact cfg env fuel send_path base_name w = (evs, w', out) ->
  within_limit cfg evs.
Proof.
  intros Hpos Hrun. unfold send_artifact in Hrun.
  destruct (fs w !! send_path) as [art |] eqn:Hfile.
  2:{ unfold getsize in Hrun.
      rewrite (bind_raise_run _ _ w [] w (FileNotFoundError send_path)) in Hrun.
      - injection Hrun as <- <- <-. constructor.
      - apply bind_raise_run. unfold read_file. now rewrite Hfile. }
  rewrite (bind_silent_run _ _ _ _ _ (getsize_run _ _ _ Hfile)) in Hrun.
  destruct (Z.of_nat (length art) >? MAX_FILE_SIZE cfg) eqn:Hbig.
  - assert (Hsplit : split_and_send_zip cfg env fuel send_path
                       (endswith (lower send_path) ".zip") w = (evs, w', out))
      by (destruct (endswith (lower send_path) ".zip"); exact Hrun).
    now apply split_and_send_zip_within_limit in Hsplit.
  - assert (Hsend : forall evs1 w1 r,
               send_file cfg env fuel send_path
                 ("File: " +:+ base_name +:+ nl +:+ encryption_status cfg) None None w
               = (evs1, w1, r) -> within_limit cfg evs1).
    { intros evs1 w1 r H. apply send_file_documents in H.
      eapply Forall_impl; [exact H |]. intros document Hdoc. simpl in Hdoc.
      rewrite Hfile in Hdoc. injection Hdoc as <-. lia. }
    minv Hrun; try (now apply (Hsend _ _ _ Hm)).
    apply within_limit_app; [now apply (Hsend _ _ _ Hm) |].
    apply within_limit_quiet.
    minv Hk.
    + apply getsize_quiet in Hm0. minv Hk0. now rewrite app_nil_r.
    + now apply getsize_quiet in Hm0.
    + now apply getsize_quiet in Hm0.
Qed.

Lemma process_file_within_limit cfg env fuel file_path w evs w' out :
  0 < MAX_FILE_SIZE cfg ->
  process_file cfg env fuel file_path w = (evs, w', out) ->
  within_limit cfg evs.
Proof.
  intros Hpos Hrun.
  apply process_file_cases in Hrun
    as [[-> _] | (content & send_path & wb & evs_s & ws & sent & _ & _ & _ & _ & _ & _
                  & _ & Hsend & _ & Hres)]; [constructor |].
  apply (send_artifact_within_limit _ _ _ _ _ _ _ _ _ Hpos) in Hsend.
  destruct sent as [[[|] sent_size] | e |].
  - destruct Hres as (-> & _). apply within_limit_app; [exact Hsend | constructor].
  - destruct Hres as (-> & _). apply within_limit_app; [exact Hsend | constructor].
  - now destruct Hres as (-> & _).
  - now destruct Hres as (-> & _).
Qed.

(** X11. No document larger than [MAX_FILE_SIZE] is ever handed to the
    transport: in every run of [main], over any number of cycles and
    whatever the transport answers, each document requested is at most
    [MAX_FILE_SIZE] bytes long. *)
Theorem no_document_exceeds_the_limit (cfg : Config) (env : Env) cycles fuel w evs w' out :
  0 < MAX_FILE_SIZE cfg ->
  main cfg env cycles fuel w = (evs, w', out) ->
  within_limit cfg evs.
Proof.
  intros Hpos Hrun. unfold main in Hrun.
  rewrite (bind_ret_run _ _ _ _ _ _ (startup_run cfg w)) in Hrun.
  destruct (main_loop cfg env cycles fuel _) as [[evs2 w2] r] eqn:Hloop.
  injection Hrun as <- <- <-.
  change (within_limit cfg evs2).
  revert Hloop.
  apply (keeps_main_loop (fun _ evs _ => within_limit cfg evs)); try (intros; constructor).
  - intros. now apply within_limit_app.
  - intros fuel' file_path w0 evs0 w0' out0.
    now apply process_file_within_limit.
Qed.

Lemma no_document_exceeds_the_limit_witness :
  exists evs w' out,
    main test_config test_env 1 3 world_with_new_file = (evs, w', out)
    /\ documents evs <> []
    /\ within_limit test_config evs.
Proof.
  do 3 eexists. split; [vm_compute; reflexivity |].
  split; [discriminate |].
  eapply (no_document_exceeds_the_limit test_config test_env 1 3 world_with_new_file).
  - reflexivity.
  - vm_compute. reflexivity.
Defined.

(** ** A split that succeeds *)

Lemma send_file_counter cfg env fuel file_path caption part_number total_parts :
  keeps (on_states (fun w w' => file_counter w' = file_counter w))
    (send_file cfg env fuel file_path caption part_number total_parts).
Proof. apply keeps_send_file; unfold on_states; simpl; intros; congruence. Qed.

Lemma send_reassembly_instructions_counter cfg env base_name file_number :
  keeps (on_states (fun w w' => file_counter w' = file_counter w))
    (send_reassembly_instructions cfg env base_name file_number).
Proof.
  apply keeps_send_reassembly_instructions; unfold on_states; simpl; intros; congruence.
Qed.

(** The loop counts the parts: it leaves by [break] with the counter and
    the part number advanced alike, and without a text message sent. *)
Lemma split_loop_break cfg env fuel temp_dir base_name chunk_size total_parts :
  forall iters zip_file file_number w evs w' last,
  split_loop cfg env iters fuel temp_dir base_name chunk_size total_parts
    zip_file file_number w = (evs, w', Ret (Break last)) ->
  file_counter w' = file_counter w + (last - file_number)
  /\ text_messages evs = [].
Proof.
  induction iters as [| iters IH]; intros zip_file file_number w evs w' last Hrun.
  { discriminate. }
  cbn [split_loop] in Hrun.
  destruct (read chunk_size zip_file) as [[| b chunk] rest].
  { unfold ret in Hrun. injection Hrun as <- <- <-. split; [lia | reflexivity]. }
  rewrite (bind_silent_run _ _ _ _ _ (write_file_run _ _ _)) in Hrun.
  remember (Ret (Break last)) as out eqn:Hout.
  minv Hrun; [| discriminate | discriminate].
  pose proof (send_file_counter _ _ _ _ _ _ _ _ _ _ _ Hm) as Hcount.
  unfold on_states in Hcount. simpl in Hcount.
  apply send_file_shape in Hm as (_ & _ & Hshape).
  destruct a.
  - rewrite (bind_silent_run _ _ w0 (set_file_counter (Z.add 1) w0) tt eq_refl) in Hk.
    rewrite Hout in Hk. apply IH in Hk as [Hk Htext]. simpl in Hk.
    destruct Hshape as [_ Htext1].
    split; [lia |]. now rewrite text_messages_app, Htext1, Htext.
  - unfold ret in Hk. injection Hk as _ _ Hk. rewrite Hout in Hk. discriminate.
Qed.

Lemma send_reassembly_instructions_returns cfg env base_name file_number w evs w' :
  send_reassembly_instructions cfg env base_name file_number w = (evs, w', Ret tt) ->
  text_messages evs = instruction_messages cfg base_name file_number
  /\ Forall (fun ev => exists rq r, ev = Api rq (Ok r)) evs.
Proof.
  unfold send_reassembly_instructions, instruction_messages, bind, api, ret. simpl.
  destruct (reply env send_message (calls w send_message)) as [r |]; [| discriminate].
  destruct (negb (FORWARD_CHAT_ID cfg =? 0) && ENABLE_FORWARD cfg)%bool; simpl.
  - destruct (reply env send_message _) as [r2 |]; [| discriminate].
    intros [= <- <-]. split; [reflexivity |]. repeat constructor; eauto.
  - intros [= <- <-]. split; [reflexivity |]. repeat constructor; eauto.
Qed.

Lemma remove_step_counter (remove : bool) zip_path w evs w' (out : Outcome unit) :
  (if remove then os_remove zip_path else ret tt) w = (evs, w', out) ->
  file_counter w' = file_counter w.
Proof.
  destruct remove; intros Hrun.
  - unfold os_remove, read_file, bind, modify in Hrun.
    destruct (fs w !! zip_path); now injection Hrun as _ <- _.
  - now minv Hrun.
Qed.

(** A split that returns [(True, size)], step by step. *)
Lemma split_and_send_zip_success cfg env fuel file_path skip_zip w evs w' size :
  split_and_send_zip cfg env fuel file_path skip_zip w = (evs, w', Ret (true, size)) ->
  exists content,
    fs w !! file_path = Some content
    /\ size = Z.of_nat (length content)
    /\ MAX_FILE_SIZE cfg <> 0
    /\ file_counter w'
       = file_counter w
         + Z.of_nat (length (chunks (MAX_FILE_SIZE cfg)
                               (split_input cfg env file_path skip_zip content)))
    /\ text_messages evs
       = instruction_messages cfg (basename file_path)
           (1 + Z.of_nat (length (chunks (MAX_FILE_SIZE cfg)
                                    (split_input cfg env file_path skip_zip content)))).
Proof.
  intros Hrun. unfold split_and_send_zip in Hrun.
  remember (Ret (true, size)) as out eqn:Hout. minv Hrun.
  { apply split_and_send_zip_handler in Hh as (rp & _ & _ & _ & Hres).
    rewrite Hout in Hres. destruct rp; discriminate. }
  2:{ discriminate. }
  injection Hout as ->.
  destruct (fs w !! file_path) as [content |] eqn:Hfile.
  2:{ unfold split_and_send_zip_try, getsize in Hm.
      rewrite (bind_raise_run _ _ w [] w (FileNotFoundError file_path)) in Hm.
      - discriminate.
      - apply bind_raise_run. unfold read_file. now rewrite Hfile. }
  exists content. split; [reflexivity |].
  set (archive := split_input cfg env file_path skip_zip content).
  set (temp_dir := mkdtemp env (temp_count w)).
  set (zip_path := if zips_here cfg file_path skip_zip
                   then path_join temp_dir (basename file_path +:+ ".zip")
                   else file_path).
  assert (Hcreate : exists wz,
             create_zip_archive cfg env file_path (basename file_path) temp_dir skip_zip
               (next_temp w) = ([], wz, Ret zip_path)
             /\ fs wz !! zip_path = Some archive
             /\ file_counter wz = file_counter w).
  { assert (Hfile' : fs (next_temp w) !! file_path = Some content) by exact Hfile.
    unfold create_zip_archive, zip_path, archive, split_input.
    destruct (zips_here cfg file_path skip_zip).
    - eexists. split.
      + now rewrite (bind_silent_run _ _ _ _ _
                       (write_zip_run cfg env _ _ (basename file_path) _ _ Hfile')).
      + simpl. split; [apply lookup_insert_eq | reflexivity].
    - exists (next_temp w). split; [reflexivity |]. split; [exact Hfile | reflexivity]. }
  destruct Hcreate as (wz & Hcreate & Hzip & Hcz).
  unfold split_and_send_zip_try in Hm.
  rewrite (bind_silent_run _ _ _ _ _ (getsize_run _ _ _ Hfile)) in Hm.
  apply with_temp_dir_inv in Hm as (w1 & Hbody & ->). fold temp_dir in Hbody.
  rewrite (bind_silent_run _ _ _ _ _ Hcreate) in Hbody.
  rewrite (bind_silent_run _ _ _ _ _ (getsize_run _ _ _ Hzip)) in Hbody.
  destruct (Z.eq_dec (MAX_FILE_SIZE cfg) 0) as [Hzero | Hnz].
  { rewrite (bind_raise_run _ _ wz [] wz ZeroDivisionError) in Hbody; [discriminate |].
    unfold count_parts. now rewrite Hzero. }
  rewrite (bind_silent_run _ _ _ _ _ (count_parts_run _ _ wz Hnz)) in Hbody.
  rewrite (bind_silent_run _ _ _ _ _ (read_file_run _ _ _ Hzip)) in Hbody.
  unfold bind at 1 in Hbody.
  destruct (split_loop cfg env _ fuel _ _ _ _ _ 1 wz) as [[evs_l wl] exit] eqn:Hloop.
  destruct exit as [[last |] | e |]; try discriminate.
  unfold bind at 1 in Hbody.
  destruct (send_reassembly_instructions cfg env (basename file_path) last wl)
    as [[evs_t wt] r] eqn:Hinstr.
  destruct r as [[] | e |]; try discriminate.
  unfold bind at 1 in Hbody.
  destruct ((if zips_here cfg file_path skip_zip then os_remove zip_path else ret tt) wt)
    as [[evs_r wr] rr] eqn:Hremove.
  pose proof (remove_step_silent _ _ _ _ _ _ Hremove) as ->.
  pose proof (remove_step_counter _ _ _ _ _ _ Hremove) as Hcr.
  destruct rr as [[] | e |]; try discriminate.
  unfold ret in Hbody. injection Hbody as <- <- <-.
  pose proof (send_reassembly_instructions_counter _ _ _ _ _ _ _ _ Hinstr) as Hct.
  unfold on_states in Hct. simpl in Hct.
  destruct (split_loop_break _ _ _ _ _ _ _ _ _ _ _ _ _ _ Hloop) as [Hcl Htext].
  apply split_loop_trace in Hloop as [_ Hbreak].
  destruct (Hbreak last eq_refl) as (_ & Hlast & _).
  rewrite chunks_from_enough in Hlast by lia.
  apply send_reassembly_instructions_returns in Hinstr as [Hinstr _].
  split; [reflexivity |]. split; [exact Hnz |].
  split.
  - simpl. fold archive. lia.
  - rewrite !app_nil_r, text_messages_app, Htext, Hinstr, Hlast. reflexivity.
Qed.

(** X12. The instructions state the number of parts. When
    split_and_send_zip returns success, the text messages of the run are
    the reassembly instructions and nothing else: one message to [CHAT_ID]
    and, with [FORWARD_CHAT_ID] set and forwarding switched on, the same
    text to the forward chat; the number of parts the text tells the user to
    download is the number of blocks the archive was read in. *)
Theorem instructions_state_the_number_of_parts (cfg : Config) (env : Env) fuel file_path
    skip_zip w evs w' size :
  split_and_send_zip cfg env fuel file_path skip_zip w = (evs, w', Ret (true, size)) ->
  exists content rest,
    fs w !! file_path = Some content
    /\ let parts := Z.of_nat (length (chunks (MAX_FILE_SIZE cfg)
                                        (split_input cfg env file_path skip_zip content))) in
       text_messages evs = instruction_messages cfg (basename file_path) (1 + parts)
       /\ reassembly_instructions cfg (basename file_path) (1 + parts)
          = "```" +:+ nl +:+ "To reassemble the file:" +:+ nl
            +:+ "1. Download all parts (" +:+ str parts +:+ " in total)" +:+ rest
       /\ (0 < MAX_FILE_SIZE cfg ->
           parts = total_parts_of
                     (Z.of_nat (length (split_input cfg env file_path skip_zip content)))
                     (MAX_FILE_SIZE cfg)).
Proof.
  intros Hrun.
  apply split_and_send_zip_success in Hrun as (content & Hfile & _ & _ & _ & Htext).
  exists content. eexists. split; [exact Hfile |]. cbv zeta.
  split; [exact Htext |]. split.
  - unfold reassembly_instructions.
    replace (1 + Z.of_nat (length (chunks (MAX_FILE_SIZE cfg)
                                     (split_input cfg env file_path skip_zip content))) - 1)
      with (Z.of_nat (length (chunks (MAX_FILE_SIZE cfg)
                                (split_input cfg env file_path skip_zip content))))
      by lia.
    reflexivity.
  - intros Hpos.
    rewrite (chunks_length _ Hpos _ _ eq_refl). symmetry.
    now apply total_parts_of_ceiling.
Qed.

Lemma instructions_state_the_number_of_parts_witness :
  exists content rest,
    fs world_with_archive !! "/watch/big.zip" = Some content
    /\ let parts := Z.of_nat (length (chunks (MAX_FILE_SIZE test_config)
                                        (split_input test_config test_env "/watch/big.zip"
                                           true content))) in
       text_messages
         (split_and_send_zip test_config test_env 1 "/watch/big.zip" true
            world_with_archive).1.1
       = instruction_messages test_config (basename "/watch/big.zip") (1 + parts)
       /\ reassembly_instructions test_config (basename "/watch/big.zip") (1 + parts)
          = "```" +:+ nl +:+ "To reassemble the file:" +:+ nl
            +:+ "1. Download all parts (" +:+ str parts +:+ " in total)" +:+ rest
       /\ (0 < MAX_FILE_SIZE test_config ->
           parts = total_parts_of
                     (Z.of_nat (length (split_input test_config test_env "/watch/big.zip"
                                          true content)))
                     (MAX_FILE_SIZE test_config)).
Proof.
  eapply (instructions_state_the_number_of_parts test_config test_env 1 "/watch/big.zip"
            true world_with_archive).
  vm_compute. reflexivity.
Defined.

(** ** The record of a delivery *)

Lemma build_send_path_counter cfg env file_path base_name temp_dir :
  keeps (on_states (fun w w' => file_counter w' = file_counter w))
    (build_send_path cfg env file_path base_name temp_dir).
Proof. apply keeps_build_send_path; unfold on_states; simpl; intros; congruence. Qed.

Lemma send_artifact_success cfg env fuel send_path base_name w evs ws sent_size :
  send_artifact cfg env fuel send_path base_name w = (evs, ws, Ret (true, sent_size)) ->
  exists art,
    fs w !! send_path = Some art
    /\ sent_size = Z.of_nat (length art)
    /\ file_counter ws
       = file_counter w
         + (if Z.of_nat (length art) >? MAX_FILE_SIZE cfg
            then Z.of_nat
                   (length (chunks (MAX_FILE_SIZE cfg)
                              (split_input cfg env send_path
                                 (endswith (lower send_path) ".zip") art)))
            else 0).
Proof.
  intros Hrun. unfold send_artifact in Hrun.
  destruct (fs w !! send_path) as [art |] eqn:Hfile.
  2:{ unfold getsize in Hrun.
      rewrite (bind_raise_run _ _ w [] w (FileNotFoundError send_path)) in Hrun.
      - discriminate.
      - apply bind_raise_run. unfold read_file. now rewrite Hfile. }
  rewrite (bind_silent_run _ _ _ _ _ (getsize_run _ _ _ Hfile)) in Hrun.
  exists art. split; [reflexivity |].
  destruct (Z.of_nat (length art) >? MAX_FILE_SIZE cfg) eqn:Hbig.
  - assert (Hsplit : split_and_send_zip cfg env fuel send_path
                       (endswith (lower send_path) ".zip") w
                     = (evs, ws, Ret (true, sent_size)))
      by (destruct (endswith (lower send_path) ".zip"); exact Hrun).
    apply split_and_send_zip_success in Hsplit
      as (content & Hcontent & -> & _ & Hcount & _).
    rewrite Hfile in Hcontent. injection Hcontent as <-. auto.
  - remember (Ret (true, sent_size)) as out eqn:Hout.
    minv Hrun; [| discriminate | discriminate].
    pose proof (send_file_same_files _ _ _ _ _ _ _ _ _ _ _ Hm) as Hfs.
    pose proof (send_file_counter _ _ _ _ _ _ _ _ _ _ _ Hm) as Hcount.
    unfold on_states, same_files in Hfs, Hcount. simpl in Hcount.
    rewrite <- Hfs in Hfile.
    rewrite (bind_silent_run _ _ _ _ _ (getsize_run _ _ _ Hfile)) in Hk.
    unfold ret in Hk. injection Hk as _ <- Hk. rewrite Hout in Hk.
    injection Hk as _ <-. split; [reflexivity | lia].
Qed.

(** A run of process_file that changes the history, in full. *)
Lemma process_file_success cfg env fuel file_path w evs w' out :
  process_file cfg env fuel file_path w = (evs, w', out) ->
  file_history w' <> file_history w ->
  exists content pre,
    fs w !! file_path = Some content
    /\ any_hash_match (file_history w) (md5 env content) = false
    /\ let art := artifact cfg env file_path content in
       let fid := file_counter w + parts_of cfg art + 1 in
       file_history w'
       = <[file_path := new_record cfg (md5 env content) fid
                          (Z.of_nat (length content)) (Z.of_nat (length art))]>
           (file_history w)
       /\ disk_history w' = file_history w'
       /\ file_counter w' = fid
       /\ evs = pre ++ [PostEvent "success" (basename file_path) fid (md5 env content)
                          (Z.of_nat (length content))]
       /\ out = Ret tt.
Proof.
  intros Hrun Hchanged.
  destruct (fs w !! file_path) as [content |] eqn:Hfile.
  2:{ unfold process_file, calculate_md5 in Hrun.
      rewrite (bind_raise_run _ _ w [] w (FileNotFoundError file_path)) in Hrun.
      - now injection Hrun as _ <- _.
      - apply bind_raise_run. unfold read_file. now rewrite Hfile. }
  rewrite (process_file_checks _ _ _ _ _ _ Hfile) in Hrun.
  destruct (any_hash_match (file_history w) (md5 env content)) eqn:Hdup.
  { now injection Hrun as _ <- _. }
  destruct (extension_rejected cfg (basename file_path)) eqn:Hext.
  { now injection Hrun as _ <- _. }
  apply with_temp_dir_inv in Hrun as (w1 & Hbody & ->).
  destruct (build_send_path_run cfg env file_path (mkdtemp env (temp_count w)) content
              (next_temp w) Hfile)
    as (send_path & wb & Hbuild & Hart & Hwb & _ & _ & Hnozip).
  pose proof (build_send_path_counter _ _ _ _ _ _ _ _ _ Hbuild) as Hcb.
  unfold on_states in Hcb. simpl in Hcb.
  rewrite (bind_silent_run _ _ _ _ _ Hbuild) in Hbody.
  rewrite (bind_silent_run _ _ wb wb (file_history wb) eq_refl) in Hbody.
  destruct Hwb as (Hh & Hd & _). simpl in Hh, Hd.
  assert (Hmiss : any_hash_match (file_history wb) (md5 env content) = false)
    by (rewrite Hh; exact Hdup).
  rewrite (global_miss_is_path_miss _ file_path _ Hmiss) in Hbody.
  apply deliver_cases in Hbody as (evs_s & ws & sent & Hsend & Hres).
  pose proof (send_artifact_history_untouched _ _ _ _ _ _ _ _ _ Hsend) as (Hh' & Hd' & _).
  simpl in Hchanged.
  destruct sent as [[[|] sent_size] | e |].
  2:{ destruct Hres as (_ & -> & _). congruence. }
  2:{ destruct Hres as (_ & -> & _). congruence. }
  2:{ destruct Hres as (_ & -> & _). congruence. }
  destruct Hres as (-> & (Hrec & Hdisk & Hcount) & _ & ->).
  apply send_artifact_success in Hsend as (art & Hart' & -> & Hcs).
  rewrite Hart in Hart'. injection Hart' as <-.
  unfold split_input in Hcs. rewrite Hnozip in Hcs.
  exists content, evs_s. split; [reflexivity |]. split; [exact Hdup |].
  cbv zeta. unfold parts_of. simpl.
  replace (file_counter w + (if Z.of_nat (length (artifact cfg env file_path content))
                                >? MAX_FILE_SIZE cfg
                             then Z.of_nat (length (chunks (MAX_FILE_SIZE cfg)
                                                      (artifact cfg env file_path content)))
                             else 0) + 1)
    with (file_counter ws + 1) by lia.
  rewrite Hrec, Hdisk, Hrec, Hh', Hh, Hcount. auto.
Qed.

(** X13. The record of a delivery, in full. A run of process_file that
    changes the history has found the file, has inserted for its path the
    record with the hash and size of the file, the size of the artifact,
    the encryption flags of the configuration and the id
    [counter + parts + 1], where [parts] is the number of parts of a split
    artifact and 0 for a single document; the counter has that value, the
    history file holds the new table, and the last event is the [success]
    event for the backend, with the base name of the file and the same id,
    hash and size. *)
Theorem delivery_record (cfg : Config) (env : Env) fuel file_path w evs w' out :
  process_file cfg env fuel file_path w = (evs, w', out) ->
  file_history w' <> file_history w ->
  exists content pre,
    fs w !! file_path = Some content
    /\ let art := artifact cfg env file_path content in
       let fid := file_counter w + parts_of cfg art + 1 in
       file_history w'
       = <[file_path := new_record cfg (md5 env content) fid
                          (Z.of_nat (length content)) (Z.of_nat (length art))]>
           (file_history w)
       /\ disk_history w' = file_history w'
       /\ file_counter w' = fid
       /\ evs = pre ++ [PostEvent "success" (basename file_path) fid (md5 env content)
                          (Z.of_nat (length content))]
       /\ out = Ret tt.
Proof.
  intros Hrun Hchanged.
  destruct (process_file_success _ _ _ _ _ _ _ _ Hrun Hchanged)
    as (content & pre & Hfile & _ & Hrest).
  exists content, pre. auto.
Qed.

Lemma delivery_record_witness :
  exists w' pre,
    process_file test_config test_env 3 "/watch/b.txt" world_with_new_file
    = (pre ++ [PostEvent "success" "b.txt" 5 "8:abcdefgh" 8], w', Ret tt)
    /\ file_history w'
       = <["/watch/b.txt" := new_record test_config "8:abcdefgh" 5 8 10]>
           (file_history world_with_new_file)
    /\ file_counter w' = 5.
Proof.
  destruct (process_file test_config test_env 3 "/watch/b.txt" world_with_new_file)
    as [[evs w'] out] eqn:Hrun.
  destruct (delivery_record test_config test_env 3 "/watch/b.txt" world_with_new_file
              evs w' out Hrun)
    as (content & pre & Hfile & Hhist & _ & Hcount & Hevs & Hout).
  - intros Heq. apply (f_equal (fun h => h !! "/watch/b.txt")) in Heq.
    replace w' with (snd (fst (process_file test_config test_env 3 "/watch/b.txt"
                                 world_with_new_file))) in Heq
      by now rewrite Hrun.
    vm_compute in Heq. discriminate Heq.
  - injection Hfile as <-. exists w', pre.
    rewrite Hevs, Hout. split; [reflexivity |]. split; [exact Hhist | exact Hcount].
Defined.

(** ** The extension filter *)

Lemma extension_rejected_skips cfg env fuel file_path content w :
  fs w !! file_path = Some content ->
  extension_rejected cfg (basename file_path) = true ->
  process_file cfg env fuel file_path w = ([], w, Ret tt).
Proof.
  intros Hfile Hext. rewrite (process_file_checks _ _ _ _ _ _ Hfile), Hext.
  now destruct (any_hash_match _ _).
Qed.

Lemma no_extension_matches cfg base_name :
  ALLOWED_EXTENSIONS cfg <> [] ->
  (forall ext, ext ∈ ALLOWED_EXTENSIONS cfg -> endswith (lower base_name) ext = false) ->
  extension_rejected cfg base_name = true.
Proof.
  unfold extension_rejected. intros Hsome Hnone.
  destruct (ALLOWED_EXTENSIONS cfg) as [| ext exts] eqn:Hexts; [contradiction |].
  apply negb_true_iff. apply not_true_is_false. intros Hex.
  apply existsb_exists in Hex as (ext' & Hin & Hends).
  apply list_elem_of_In in Hin. rewrite Hnone in Hends; [discriminate | exact Hin].
Qed.



Lemma lower_ascii_idem (c : ascii) : lower_ascii (lower_ascii c) = lower_ascii c.
Proof. destruct c as [[] [] [] [] [] [] [] []]; reflexivity. Qed.

Lemma lower_idem (s : string) : lower (lower s) = lower s.
Proof.
  induction s as [| c s IH]; [reflexivity |]. simpl. now rewrite lower_ascii_idem, IH.
Qed.

Lemma lower_substring (s : string) :
  forall k m, lower (substring k m s) = substring k m (lower s).
Proof.
  induction s as [| c s IH]; intros k m.
  - now destruct k, m.
  - destruct k as [| k]; [destruct m as [| m] |]; simpl; [reflexivity | | apply IH].
    now rewrite IH.
Qed.

(** A suffix of a lower-cased string is in lower case. *)
Lemma endswith_lower (s ext : string) :
  endswith (lower s) ext = true -> lower ext = ext.
Proof.
  unfold endswith. intros H. apply andb_true_iff in H as [_ H].
  apply String.eqb_eq in H. rewrite <- H at 1.
  now rewrite lower_substring, lower_idem.
Qed.

(** X15. Allowed extensions are compared as they are written, against the
    lower-cased name: an allowed extension with a capital letter in it
    matches no file, and when every allowed extension has one, process_file
    skips every file. *)
Theorem capitalised_extensions_match_nothing (cfg : Config) (env : Env) fuel file_path
    content w :
  fs w !! file_path = Some content ->
  ALLOWED_EXTENSIONS cfg <> [] ->
  (forall ext, ext ∈ ALLOWED_EXTENSIONS cfg -> lower ext <> ext) ->
  process_file cfg env fuel file_path w = ([], w, Ret tt).
Proof.
  intros Hfile Hsome Hcaps.
  apply (extension_rejected_skips _ _ _ _ _ _ Hfile).
  apply no_extension_matches; [exact Hsome |].
  intros ext Hin. apply not_true_is_false. intros Hends.
  apply endswith_lower in Hends. now apply (Hcaps ext).
Qed.

Lemma capitalised_extensions_match_nothing_witness :
  process_file capitals_config test_env 3 "/watch/B.TXT"
    (world_holding "/watch/B.TXT" abc)
  = ([], world_holding "/watch/B.TXT" abc, Ret tt).
Proof.
  apply (capitalised_extensions_match_nothing capitals_config test_env 3 "/watch/B.TXT"
           abc (world_holding "/watch/B.TXT" abc)).
  - reflexivity.
  - discriminate.
  - intros ext Hin. apply list_elem_of_singleton in Hin as ->. discriminate.
Defined.

(** ** The files the bot touches *)

Lemma prefix_append (a b : string) : String.prefix a (a +:+ b) = true.
Proof.
  induction a as [| c a IH]; [now destruct b |].
  change (String.prefix (String c a) (String c (a +:+ b)) = true).
  cbn [String.prefix]. now destruct (ascii_dec c c).
Qed.

Lemma slash_free_append (a b : string) :
  slash_free a -> slash_free b -> slash_free (a +:+ b).
Proof.
  unfold slash_free. intros Ha Hb. induction a as [| c a IH]; [exact Hb |].
  change (Forall (fun c => c <> "/"%char) (c :: list_ascii_of_string (a +:+ b))).
  simpl in Ha. apply Forall_cons in Ha as [Hc Ha]. apply Forall_cons. auto.
Qed.

Lemma basename_from_slash_free (p : string) :
  forall acc, slash_free acc -> slash_free (basename_from acc p).
Proof.
  induction p as [| c p IH]; intros acc Hacc; [exact Hacc |].
  simpl. destruct (Ascii.eqb_spec c "/") as [-> | Hc].
  - apply IH. constructor.
  - apply IH. apply slash_free_append; [exact Hacc |]. repeat constructor. exact Hc.
Qed.

Lemma basename_slash_free (p : string) : slash_free (basename p).
Proof. apply basename_from_slash_free. constructor. Qed.

(** The archive and the parts are written into the temporary directory. *)
Lemma written_under_temp env n (file_path rest : string) :
  tidy_temp env ->
  is_under (mkdtemp env n)
    (path_join (mkdtemp env n) (basename file_path +:+ String "." rest)).
Proof.
  intros Htidy. destruct (Htidy n) as [Hne Hslash].
  assert (Hrel : String.prefix "/" (basename file_path +:+ String "." rest) = false).
  { pose proof (basename_slash_free file_path) as Hfree.
    destruct (basename file_path) as [| c b]; [reflexivity |].
    change (String.prefix "/" (String c (b +:+ String "." rest)) = false).
    cbn [String.prefix]. destruct (ascii_dec "/" c) as [<- |]; [| reflexivity].
    unfold slash_free in Hfree. simpl in Hfree.
    apply Forall_cons in Hfree as [Hc _]. contradiction. }
  unfold path_join, is_under. rewrite Hrel, Hslash, orb_false_r.
  destruct (String.eqb_spec (mkdtemp env n) "") as [Hempty | _]; [contradiction |].
  rewrite <- append_assoc. apply prefix_append.
Qed.

(** A bind whose continuation may rely on what the first step returns. *)
Lemma keeps_bind_given (R : World -> list Event -> World -> Prop) {A B}
    (m : M A) (k : A -> M B) (P : A -> Prop) :
  (forall w1 evs1 w2 evs2 w3, R w1 evs1 w2 -> R w2 evs2 w3 -> R w1 (evs1 ++ evs2) w3) ->
  (forall w evs w' a, m w = (evs, w', Ret a) -> P a) ->
  keeps R m -> (forall a, P a -> keeps R (k a)) -> keeps R (bind m k).
Proof.
  intros R_app Hgiven Hm Hk w evs w' out Hrun. minv Hrun.
  - eapply R_app; [now apply (Hm _ _ _ _ Hm0) |].
    apply (Hk a (Hgiven _ _ _ _ Hm0) _ _ _ _ Hk0).
  - now apply (Hm _ _ _ _ Hm0).
  - now apply (Hm _ _ _ _ Hm0).
Qed.

Section Files.

Variable cfg : Config.
Variable env : Env.
Hypothesis Htidy : tidy_temp env.

Lemma confined_refl n w : confined env n w w.
Proof. split; auto. Qed.

Lemma confined_trans n w1 w2 w3 :
  confined env n w1 w2 -> confined env n w2 w3 -> confined env n w1 w3.
Proof.
  intros [Hnew1 Hout1] [Hnew2 Hout2]. split.
  - intros path content H. destruct (Hnew2 _ _ H) as [Hu | H2]; [now left |].
    now apply Hnew1.
  - intros path Hfree. now rewrite (Hout2 _ Hfree), (Hout1 _ Hfree).
Qed.

Lemma unlittered_refl w : unlittered env w w.
Proof. split; auto. Qed.

Lemma unlittered_trans w1 w2 w3 :
  unlittered env w1 w2 -> unlittered env w2 w3 -> unlittered env w1 w3.
Proof.
  intros [Hnew1 Hout1] [Hnew2 Hout2]. split.
  - intros path content H. now apply Hnew1, Hnew2.
  - intros path Hfree. now rewrite (Hout2 _ Hfree), (Hout1 _ Hfree).
Qed.

Lemma unlittered_confined n w w' : unlittered env w w' -> confined env n w w'.
Proof. intros [Hnew Hout]. split; [| exact Hout]. intros path content H. right. auto. Qed.

Lemma same_files_unlittered w w' : fs w' = fs w -> unlittered env w w'.
Proof.
  intros H. split.
  - intros path content Hlook. now rewrite <- H.
  - intros path _. now rewrite H.
Qed.

Lemma same_files_confined n w w' : fs w' = fs w -> confined env n w w'.
Proof. intros H. now apply unlittered_confined, same_files_unlittered. Qed.

Lemma keeps_unlittered_confined {A} n (m : M A) :
  keeps (on_states (unlittered env)) m -> keeps (on_states (confined env n)) m.
Proof. intros H w evs w' out Hrun. apply unlittered_confined. now apply (H w evs w' out). Qed.

Lemma keeps_same_files_unlittered {A} (m : M A) :
  keeps (on_states same_files) m -> keeps (on_states (unlittered env)) m.
Proof.
  intros H w evs w' out Hrun. apply same_files_unlittered. now apply (H w evs w' out).
Qed.

(** The steps of the side conditions of the [keeps] lemmas. *)
Lemma confined_app n :
  forall w1 (evs1 : list Event) w2 (evs2 : list Event) w3,
  on_states (confined env n) w1 evs1 w2 -> on_states (confined env n) w2 evs2 w3 ->
  on_states (confined env n) w1 (evs1 ++ evs2) w3.
Proof. intros w1 evs1 w2 evs2 w3. apply confined_trans. Qed.

Lemma unlittered_app :
  forall w1 (evs1 : list Event) w2 (evs2 : list Event) w3,
  on_states (unlittered env) w1 evs1 w2 -> on_states (unlittered env) w2 evs2 w3 ->
  on_states (unlittered env) w1 (evs1 ++ evs2) w3.
Proof. intros w1 evs1 w2 evs2 w3. apply unlittered_trans. Qed.

Lemma getsize_unlittered path : keeps (on_states (unlittered env)) (getsize path).
Proof. apply keeps_getsize; [intros; apply unlittered_refl | apply unlittered_app]. Qed.

Lemma read_file_unlittered path : keeps (on_states (unlittered env)) (read_file path).
Proof. apply keeps_read_file. intros. apply unlittered_refl. Qed.

Lemma write_file_confined n path content :
  is_under (mkdtemp env n) path ->
  keeps (on_states (confined env n)) (write_file path content).
Proof.
  intros Hunder. apply keeps_modify. intros w. split; simpl.
  - intros q c Hq. destruct (decide (q = path)) as [-> | Hne]; [now left |].
    right. now rewrite lookup_insert_ne in Hq.
  - intros q Hfree. apply lookup_insert_ne. intros <-. now apply (Hfree n).
Qed.

Lemma os_remove_confined n path :
  is_under (mkdtemp env n) path ->
  keeps (on_states (confined env n)) (os_remove path).
Proof.
  intros Hunder. apply keeps_bind; [apply confined_app | |].
  - apply keeps_unlittered_confined, read_file_unlittered.
  - intros _. apply keeps_modify. intros w. split; simpl.
    + intros q c Hq. right. apply lookup_delete_Some in Hq. tauto.
    + intros q Hfree. apply lookup_delete_ne. intros <-. now apply (Hfree n).
Qed.

Lemma write_zip_confined n zip_path file_path base_name :
  is_under (mkdtemp env n) zip_path ->
  keeps (on_states (confined env n)) (write_zip cfg env zip_path file_path base_name).
Proof.
  intros Hunder. apply keeps_bind; [apply confined_app | |].
  - apply keeps_unlittered_confined, read_file_unlittered.
  - intros content. now apply write_file_confined.
Qed.

Lemma send_file_unlittered fuel file_path caption part_number total_parts :
  keeps (on_states (unlittered env))
    (send_file cfg env fuel file_path caption part_number total_parts).
Proof. apply keeps_same_files_unlittered, send_file_same_files. Qed.

Lemma split_loop_confined n fuel file_path chunk_size total_parts :
  forall iters zip_file file_number,
  keeps (on_states (confined env n))
    (split_loop cfg env iters fuel (mkdtemp env n) (basename file_path) chunk_size
       total_parts zip_file file_number).
Proof.
  induction iters as [| iters IH]; intros zip_file file_number.
  { intros w evs w' out [= <- <- <-]. apply confined_refl. }
  cbn [split_loop]. destruct (read chunk_size zip_file) as [[| b chunk] rest].
  { apply keeps_ret. intros. apply confined_refl. }
  apply keeps_bind; [apply confined_app | |].
  { apply write_file_confined. unfold chunk_name.
    apply (written_under_temp env n file_path (format_03d file_number) Htidy). }
  intros _. apply keeps_bind; [apply confined_app | |].
  { apply keeps_unlittered_confined, send_file_unlittered. }
  intros [|].
  - apply keeps_bind; [apply confined_app | | intros _; apply IH].
    apply keeps_modify. intros w. now apply same_files_confined.
  - apply keeps_ret. intros. apply confined_refl.
Qed.

Lemma create_zip_archive_confined n file_path skip_zip :
  keeps (on_states (confined env n))
    (create_zip_archive cfg env file_path (basename file_path) (mkdtemp env n) skip_zip).
Proof.
  unfold create_zip_archive. destruct (zips_here cfg file_path skip_zip).
  - apply keeps_bind; [apply confined_app | |].
    + apply write_zip_confined.
      apply (written_under_temp env n file_path "zip" Htidy).
    + intros _. apply keeps_ret. intros. apply confined_refl.
  - apply keeps_ret. intros. apply confined_refl.
Qed.

Lemma instructions_unlittered base_name file_number :
  keeps (on_states (unlittered env))
    (send_reassembly_instructions cfg env base_name file_number).
Proof. apply keeps_same_files_unlittered, send_reassembly_instructions_same_files. Qed.

(** Leaving the temporary directory removes what was put there. *)
Lemma with_temp_dir_unlittered {A} (body : string -> M A) :
  (forall n, keeps (on_states (confined env n)) (body (mkdtemp env n))) ->
  keeps (on_states (unlittered env)) (with_temp_dir env body).
Proof.
  intros Hbody w evs w' out Hrun.
  apply with_temp_dir_inv in Hrun as (w1 & Hrun & ->).
  apply Hbody in Hrun as [Hnew Hout]. split; simpl.
  - intros path content H. apply map_lookup_filter_Some in H as [H Hnot]. simpl in Hnot.
    destruct (Hnew _ _ H) as [Hu | Hold]; [contradiction | exact Hold].
  - intros path Hfree. pose proof (Hout _ Hfree) as Hsame. simpl in Hsame.
    rewrite <- Hsame.
    destruct (fs w1 !! path) as [content |] eqn:Hlook.
    + apply map_lookup_filter_Some. split; [exact Hlook | apply Hfree].
    + apply map_lookup_filter_None. left. exact Hlook.
Qed.

Lemma split_and_send_zip_unlittered fuel file_path skip_zip :
  keeps (on_states (unlittered env)) (split_and_send_zip cfg env fuel file_path skip_zip).
Proof.
  unfold split_and_send_zip. apply keeps_try_except; [apply unlittered_app | |].
  - unfold split_and_send_zip_try.
    apply keeps_bind; [apply unlittered_app | apply getsize_unlittered |].
    intros original_size. apply with_temp_dir_unlittered. intros n.
    apply (keeps_bind_given _ _ _
             (fun zip_path =>
                zips_here cfg file_path skip_zip = true ->
                is_under (mkdtemp env n) zip_path));
      [apply confined_app | | apply create_zip_archive_confined |].
    { intros w evs w' zip_path Hrun Hz. unfold create_zip_archive in Hrun.
      rewrite Hz in Hrun.
      apply bind_inv in Hrun
        as [(evs1 & w1 & a & evs2 & _ & Hk & _) | [(e & _ & Hbad) | (_ & Hbad)]];
        [| discriminate | discriminate].
      unfold ret in Hk. injection Hk as _ _ <-.
      apply (written_under_temp env n file_path "zip" Htidy). }
    intros zip_path Hzip.
    apply keeps_bind;
      [apply confined_app | apply keeps_unlittered_confined, getsize_unlittered |].
    intros zip_size. apply keeps_bind; [apply confined_app | |].
    { apply keeps_count_parts. intros. apply confined_refl. }
    intros total_parts. apply keeps_bind;
      [apply confined_app | apply keeps_unlittered_confined, read_file_unlittered |].
    intros zip_file.
    apply keeps_bind; [apply confined_app | apply split_loop_confined |].
    intros [last |]; [| apply keeps_ret; intros; apply confined_refl].
    apply keeps_bind;
      [apply confined_app | apply keeps_unlittered_confined, instructions_unlittered |].
    intros _. apply keeps_bind; [apply confined_app | |].
    + destruct (zips_here cfg file_path skip_zip).
      * apply os_remove_confined. now apply Hzip.
      * apply keeps_ret. intros. apply confined_refl.
    + intros _. apply keeps_ret. intros. apply confined_refl.
  - intros e. apply keeps_bind; [apply unlittered_app | |].
    + apply keeps_same_files_unlittered.
      apply keeps_send_error_message; unfold on_states, same_files; simpl; intros;
        congruence.
    + intros _. apply keeps_ret. intros. apply unlittered_refl.
Qed.

Lemma send_artifact_unlittered fuel send_path base_name :
  keeps (on_states (unlittered env)) (send_artifact cfg env fuel send_path base_name).
Proof.
  unfold send_artifact.
  apply keeps_bind; [apply unlittered_app | apply getsize_unlittered |].
  intros send_size. destruct (send_size >? MAX_FILE_SIZE cfg).
  - destruct (endswith (lower send_path) ".zip"); apply split_and_send_zip_unlittered.
  - apply keeps_bind; [apply unlittered_app | apply send_file_unlittered |].
    intros success.
    apply keeps_bind; [apply unlittered_app | apply getsize_unlittered |].
    intros sent_size. apply keeps_ret. intros. apply unlittered_refl.
Qed.

Lemma build_send_path_confined n file_path :
  keeps (on_states (confined env n))
    (build_send_path cfg env file_path (basename file_path) (mkdtemp env n)).
Proof.
  unfold build_send_path. destruct (sent_as_is cfg file_path).
  - apply keeps_ret. intros. apply confined_refl.
  - apply keeps_bind; [apply confined_app | |].
    + apply write_zip_confined.
      apply (written_under_temp env n file_path "zip" Htidy).
    + intros _. apply keeps_ret. intros. apply confined_refl.
Qed.

Lemma deliver_unlittered fuel file_path send_path base_name file_hash original_size :
  keeps (on_states (unlittered env))
    (deliver cfg env fuel file_path send_path base_name file_hash original_size).
Proof.
  unfold deliver.
  apply keeps_bind; [apply unlittered_app | apply send_artifact_unlittered |].
  intros [[|] sent_size]; simpl.
  - unfold record_success, save_history, send_event_to_backend.
    repeat (apply keeps_bind; [apply unlittered_app | | intros ?]);
      first [ apply keeps_modify; intros; now apply same_files_unlittered
            | apply keeps_get; intros; apply unlittered_refl
            | apply keeps_emit; intros; apply unlittered_refl ].
  - unfold record_failure, send_event_to_backend.
    apply keeps_bind; [apply unlittered_app | |].
    + apply keeps_get. intros. apply unlittered_refl.
    + intros fid. apply keeps_emit. intros. apply unlittered_refl.
Qed.

Lemma process_file_unlittered fuel file_path :
  keeps (on_states (unlittered env)) (process_file cfg env fuel file_path).
Proof.
  unfold process_file, calculate_md5.
  apply keeps_bind; [apply unlittered_app | |].
  { apply keeps_bind; [apply unlittered_app | apply read_file_unlittered |].
    intros content. apply keeps_ret. intros. apply unlittered_refl. }
  intros file_hash.
  apply keeps_bind; [apply unlittered_app | apply getsize_unlittered |].
  intros original_size. apply keeps_bind; [apply unlittered_app | |].
  { apply keeps_get. intros. apply unlittered_refl. }
  intros history. destruct (any_hash_match history file_hash).
  { apply keeps_ret. intros. apply unlittered_refl. }
  destruct (extension_rejected cfg (basename file_path)).
  { apply keeps_ret. intros. apply unlittered_refl. }
  apply with_temp_dir_unlittered. intros n.
  apply keeps_bind; [apply confined_app | apply build_send_path_confined |].
  intros send_path. apply keeps_bind; [apply confined_app | |].
  { apply keeps_get. intros. apply confined_refl. }
  intros history'. destruct (new_or_modified history' file_path file_hash).
  - apply keeps_unlittered_confined, deliver_unlittered.
  - apply keeps_ret. intros. apply confined_refl.
Qed.


End Files.

Lemma two_dirs_env_tidy : tidy_temp two_dirs_env.
Proof. intros [| [| n]]; split; solve [discriminate | reflexivity]. Qed.



(** X17. A file is delivered once. After a run of process_file that has
    recorded the file, processing the same path again, with the file
    unchanged, does nothing at all: no request, no event, no change of
    state. *)
Theorem delivered_once (cfg : Config) (env : Env) fuel fuel' file_path w evs w' out :
  tidy_temp env ->
  temp_free env file_path ->
  process_file cfg env fuel file_path w = (evs, w', out) ->
  file_history w' <> file_history w ->
  process_file cfg env fuel' file_path w' = ([], w', Ret tt).
Proof.
  intros Htidy Hfree Hrun Hchanged.
  destruct (process_file_unlittered cfg env Htidy _ _ _ _ _ _ Hrun) as [_ Hkept].
  destruct (process_file_success _ _ _ _ _ _ _ _ Hrun Hchanged)
    as (content & pre & Hfile & _ & Hhist & _).
  cbv zeta in Hhist.
  assert (Hfile' : fs w' !! file_path = Some content) by now rewrite (Hkept _ Hfree).
  rewrite (process_file_checks _ _ _ _ _ _ Hfile').
  replace (any_hash_match (file_history w') (md5 env content)) with true; [reflexivity |].
  symmetry. apply any_hash_match_true.
  eexists file_path, _. split; [rewrite Hhist; apply lookup_insert_eq | reflexivity].
Qed.

Lemma delivered_once_witness :
  exists evs w' out,
    process_file test_config two_dirs_env 3 "/watch/b.txt" world_with_new_file
    = (evs, w', out)
    /\ process_file test_config two_dirs_env 1 "/watch/b.txt" w' = ([], w', Ret tt).
Proof.
  do 3 eexists. split; [vm_compute; reflexivity |].
  eapply (delivered_once test_config two_dirs_env 3 1 "/watch/b.txt" world_with_new_file).
  - exact two_dirs_env_tidy.
  - intros [| [| n]]; vm_compute; discriminate.
  - vm_compute. reflexivity.
  - intros Heq. apply (f_equal (fun h => h !! "/watch/b.txt")) in Heq.
    vm_compute in Heq. discriminate Heq.
Defined.

(** ** The size cache *)

Lemma dict_get_set_eq k v d : dict_get k (dict_set k v d) = Some v.
Proof.
  induction d as [| [k' v'] d IH]; simpl.
  - now rewrite String.eqb_refl.
  - destruct (String.eqb_spec k' k) as [-> | Hne]; simpl.
    + now rewrite String.eqb_refl.
    + destruct (String.eqb_spec k' k); [contradiction | exact IH].
Qed.

Lemma dict_get_set_ne k k' v d : k' <> k -> dict_get k' (dict_set k v d) = dict_get k' d.
Proof.
  intros Hne. induction d as [| [k0 v0] d IH]; simpl.
  - destruct (String.eqb_spec k k'); [congruence | reflexivity].
  - destruct (String.eqb_spec k0 k) as [-> | Hk]; simpl.
    + destruct (String.eqb_spec k k'); [congruence | reflexivity].
    + now rewrite IH.
Qed.

Lemma dict_set_keys k v d :
  (dict_set k v d).*1 = if decide (k ∈ d.*1) then d.*1 else d.*1 ++ [k].
Proof.
  induction d as [| [k0 v0] d IH]; [reflexivity |].
  cbn [dict_set]. destruct (String.eqb_spec k0 k) as [-> | Hk].
  - clear IH. cbn [fmap list_fmap fst].
    destruct (decide (k ∈ k :: d.*1)) as [_ | Hout]; [reflexivity |].
    exfalso. apply Hout. apply list_elem_of_here.
  - cbn [fmap list_fmap fst]. rewrite IH.
    destruct (decide (k ∈ d.*1)) as [Hin | Hout],
             (decide (k ∈ k0 :: d.*1)) as [Hin' | Hout']; try reflexivity.
    + exfalso. apply Hout'. now apply list_elem_of_further.
    + exfalso. apply elem_of_cons in Hin' as [-> | Hin']; contradiction.
Qed.

Lemma dict_set_NoDup k v d : NoDup d.*1 -> NoDup (dict_set k v d).*1.
Proof.
  intros Hd. rewrite dict_set_keys. destruct (decide (k ∈ d.*1)); [exact Hd |].
  apply NoDup_app. split; [exact Hd |]. split; [| apply NoDup_singleton].
  intros x Hx Hk. apply list_elem_of_singleton in Hk as ->. contradiction.
Qed.

(** The loop of build_file_size_cache over the paths still to be measured. *)
Lemma measure_loop (paths : list string) :
  forall w evs w' out,
  for_each paths (fun file_path =>
    size <- getsize file_path ;;
    modify (set_file_size_cache (dict_set file_path size))) w = (evs, w', out) ->
  evs = [] /\ fs w' = fs w /\ disk_size_cache w' = disk_size_cache w
  /\ file_history w' = file_history w /\ disk_history w' = disk_history w
  /\ file_counter w' = file_counter w
  /\ (NoDup (file_size_cache w).*1 -> NoDup (file_size_cache w').*1)
  /\ (forall path, path ∉ paths ->
        dict_get path (file_size_cache w') = dict_get path (file_size_cache w))
  /\ match out with
     | Ret _ =>
         forall path, path ∈ paths ->
           exists content,
             fs w !! path = Some content
             /\ dict_get path (file_size_cache w') = Some (Z.of_nat (length content))
     | Raise e =>
         exists path, path ∈ paths /\ fs w !! path = None /\ e = FileNotFoundError path
     | Diverge => False
     end.
Proof.
  induction paths as [| p paths IH]; intros w evs w' out Hrun.
  { simpl in Hrun. minv Hrun. repeat (split; [auto |]). intros path Hin. in_trace. }
  simpl in Hrun.
  destruct (fs w !! p) as [content |] eqn:Hfile.
  2:{ rewrite (bind_raise_run _ _ w [] w (FileNotFoundError p)) in Hrun.
      - injection Hrun as <- <- <-. repeat (split; [auto |]).
        exists p. split; [apply list_elem_of_here | auto].
      - apply bind_raise_run. unfold getsize.
        apply bind_raise_run. unfold read_file. now rewrite Hfile. }
  rewrite (bind_silent_run _ _ w
             (set_file_size_cache (dict_set p (Z.of_nat (length content))) w) tt) in Hrun.
  2:{ now rewrite (bind_silent_run _ _ _ _ _ (getsize_run _ _ _ Hfile)). }
  apply IH in Hrun as (-> & Hfs & Hdisk & Hh & Hd & Hc & Hnodup & Hother & Hout).
  simpl in *. repeat (split; [assumption || reflexivity |]).
  split; [intros Hnd; now apply Hnodup, dict_set_NoDup |].
  split.
  - intros path Hnot. apply not_elem_of_cons in Hnot as [Hne Hnot].
    rewrite (Hother _ Hnot). now apply dict_get_set_ne.
  - destruct out as [[] | e |]; [| | exact Hout].
    + intros path Hin. destruct (decide (path ∈ paths)) as [Hlater | Hnot].
      * now apply Hout.
      * apply elem_of_cons in Hin as [-> | Hin]; [| contradiction].
        exists content. split; [exact Hfile |].
        rewrite (Hother _ Hnot). apply dict_get_set_eq.
    + destruct Hout as (path & Hin & Hnone & ->).
      exists path. split; [now apply list_elem_of_further | auto].
Qed.

Lemma build_file_size_cache_run cfg env w evs w' out :
  build_file_size_cache cfg env w = (evs, w', out) ->
  evs = [] /\ fs w' = fs w
  /\ file_history w' = file_history w /\ disk_history w' = disk_history w
  /\ file_counter w' = file_counter w
  /\ (NoDup (file_size_cache w).*1 -> NoDup (file_size_cache w').*1)
  /\ (forall path, path ∉ walked cfg env w ->
        dict_get path (file_size_cache w') = dict_get path (file_size_cache w))
  /\ match out with
     | Ret _ =>
         disk_size_cache w' = file_size_cache w'
         /\ forall path, path ∈ walked cfg env w ->
              exists content,
                fs w !! path = Some content
                /\ dict_get path (file_size_cache w') = Some (Z.of_nat (length content))
     | Raise e =>
         disk_size_cache w' = disk_size_cache w
         /\ exists path,
              path ∈ walked cfg env w /\ fs w !! path = None
              /\ e = FileNotFoundError path
     | Diverge => False
     end.
Proof.
  intros Hrun. unfold build_file_size_cache, walk_folders in Hrun.
  rewrite (bind_silent_run _ _ w w (walked cfg env w)) in Hrun
    by (unfold walked; reflexivity).
  minv Hrun.
  - apply measure_loop in Hm as (-> & Hfs & Hdisk & Hh & Hd & Hc & Hnodup & Hother & Hout).
    minv Hk. simpl. repeat (split; [assumption || reflexivity |]).
    auto.
  - apply measure_loop in Hm as (-> & Hfs & Hdisk & Hh & Hd & Hc & Hnodup & Hother & Hout).
    repeat (split; [assumption || reflexivity |]). auto.
  - now apply measure_loop in Hm as (_ & _ & _ & _ & _ & _ & _ & _ & []).
Qed.

(** X18. build_file_size_cache, when it returns: every file the scan finds
    is in the cache with its present size; the entry of a path the scan
    does not find stays as it was, so the entry of a file that has been
    deleted is never dropped; the keys stay distinct; and the cache file
    holds the new cache. When it raises, a file of the scan has vanished,
    the exception is [FileNotFoundError] for it, and the cache file is not
    written. It asks nothing of the transport and changes neither the files
    nor the history. *)
Theorem size_cache_only_grows (cfg : Config) (env : Env) w evs w' out :
  build_file_size_cache cfg env w = (evs, w', out) ->
  evs = [] /\ fs w' = fs w /\ file_history w' = file_history w
  /\ (NoDup (file_size_cache w).*1 -> NoDup (file_size_cache w').*1)
  /\ (forall path, path ∉ walked cfg env w ->
        dict_get path (file_size_cache w') = dict_get path (file_size_cache w))
  /\ (out = Ret tt ->
      disk_size_cache w' = file_size_cache w'
      /\ forall path, path ∈ walked cfg env w ->
           exists content,
             fs w !! path = Some content
             /\ dict_get path (file_size_cache w') = Some (Z.of_nat (length content)))
  /\ (forall e, out = Raise e ->
      disk_size_cache w' = disk_size_cache w
      /\ exists path,
           path ∈ walked cfg env w /\ fs w !! path = None /\ e = FileNotFoundError path)
  /\ out <> Diverge.
Proof.
  intros Hrun.
  apply build_file_size_cache_run in Hrun
    as (-> & Hfs & Hh & _ & _ & Hnodup & Hother & Hout).
  repeat (split; [assumption || reflexivity |]).
  destruct out as [[] | e |]; [| | contradiction].
  - split; [auto |]. split; [discriminate | discriminate].
  - split; [discriminate |]. split; [| discriminate]. now intros e' [= <-].
Qed.

Lemma size_cache_only_grows_witness :
  exists w',
    build_file_size_cache test_config test_env world_with_stale_cache = ([], w', Ret tt)
    /\ dict_get "/watch/gone.txt" (file_size_cache w') = Some 1
    /\ dict_get "/watch/b.txt" (file_size_cache w') = Some 8
    /\ disk_size_cache w' = file_size_cache w'.
Proof.
  destruct (build_file_size_cache test_config test_env world_with_stale_cache)
    as [[evs w'] out] eqn:Hrun.
  assert (Hout : out = Ret tt) by (vm_compute in Hrun; now injection Hrun as _ _ <-).
  destruct (size_cache_only_grows test_config test_env world_with_stale_cache evs w' out
              Hrun)
    as (-> & _ & _ & _ & Hother & Hret & _).
  destruct (Hret Hout) as [Hdisk Hwalked].
  exists w'. rewrite Hout. split; [reflexivity |].
  split; [| split; [| exact Hdisk]].
  - rewrite (Hother "/watch/gone.txt"); [reflexivity |].
    let found := eval vm_compute in (walked test_config test_env world_with_stale_cache)
    in change (walked test_config test_env world_with_stale_cache) with found.
    intros Hin. apply list_elem_of_singleton in Hin. revert Hin.
    now apply String.eqb_neq.
  - destruct (Hwalked "/watch/b.txt") as (content & Hfile & Hget).
    + vm_compute. apply list_elem_of_here.
    + injection Hfile as <-. exact Hget.
Defined.

(** ** The order of a scan *)

Lemma insert_by_size_perm x l : insert_by_size x l ≡ₚ x :: l.
Proof.
  induction l as [| y l IH]; [reflexivity |]. simpl.
  destruct (x.2 <=? y.2); [reflexivity |]. rewrite IH. apply Permutation_swap.
Qed.

Lemma sort_by_size_perm l : sort_by_size l ≡ₚ l.
Proof.
  induction l as [| x l IH]; [reflexivity |].
  unfold sort_by_size in *. simpl. now rewrite insert_by_size_perm, IH.
Qed.

Lemma insert_by_size_sorted x l :
  StronglySorted by_size l -> StronglySorted by_size (insert_by_size x l).
Proof.
  induction 1 as [| y l Hl IH Hy]; simpl.
  { repeat constructor. }
  destruct (Z.leb_spec x.2 y.2) as [Hle | Hgt].
  - constructor; [now constructor |]. constructor; [exact Hle |].
    eapply Forall_impl; [exact Hy |]. unfold by_size. intros; simpl in *. lia.
  - constructor; [exact IH |].
    rewrite (insert_by_size_perm x l). constructor; [unfold by_size; lia | exact Hy].
Qed.

Lemma sort_by_size_sorted l : StronglySorted by_size (sort_by_size l).
Proof.
  induction l as [| x l IH]; [constructor |].
  unfold sort_by_size in *. simpl. now apply insert_by_size_sorted.
Qed.

Lemma insert_by_size_stable s x l :
  filter (fun e : string * Z => e.2 = s) (insert_by_size x l)
  = filter (fun e : string * Z => e.2 = s) (x :: l).
Proof.
  induction l as [| y l IH]; [reflexivity |]. simpl.
  destruct (Z.leb_spec x.2 y.2) as [Hle | Hgt]; [reflexivity |].
  rewrite (filter_cons _ y), IH, !filter_cons.
  destruct (decide (x.2 = s)), (decide (y.2 = s)); try reflexivity. lia.
Qed.

Lemma sort_by_size_stable s l :
  filter (fun e : string * Z => e.2 = s) (sort_by_size l)
  = filter (fun e : string * Z => e.2 = s) l.
Proof.
  induction l as [| x l IH]; [reflexivity |].
  unfold sort_by_size in *. simpl. rewrite insert_by_size_stable, !filter_cons.
  now rewrite IH.
Qed.

Lemma with_sizes_run (paths : list string) :
  forall w evs w' out,
  with_sizes paths w = (evs, w', out) ->
  evs = [] /\ w' = w
  /\ match out with
     | Ret sized => Forall2 (sized_as w) paths sized
     | Raise e =>
         exists path, path ∈ paths /\ fs w !! path = None /\ e = FileNotFoundError path
     | Diverge => False
     end.
Proof.
  induction paths as [| p paths IH]; intros w evs w' out Hrun.
  { simpl in Hrun. minv Hrun. repeat split. constructor. }
  simpl in Hrun.
  destruct (fs w !! p) as [content |] eqn:Hfile.
  2:{ rewrite (bind_raise_run _ _ w [] w (FileNotFoundError p)) in Hrun.
      - injection Hrun as <- <- <-. repeat split.
        exists p. split; [apply list_elem_of_here | auto].
      - unfold getsize. apply bind_raise_run. unfold read_file. now rewrite Hfile. }
  rewrite (bind_silent_run _ _ _ _ _ (getsize_run _ _ _ Hfile)) in Hrun.
  minv Hrun.
  - apply IH in Hm as (-> & -> & Hrest). minv Hk. repeat split.
    constructor; [| exact Hrest]. split; [reflexivity |]. eauto.
  - apply IH in Hm as (-> & -> & path & Hin & Hnone & ->). repeat split.
    exists path. split; [now apply list_elem_of_further | auto].
  - now apply IH in Hm as (_ & _ & []).
Qed.

Lemma sorted_files_run cfg env w evs w' files :
  sorted_files cfg env w = (evs, w', Ret files) ->
  evs = []
  /\ exists source,
       files = (sort_by_size source).*1
       /\ if ENABLE_CACHE cfg then source = file_size_cache w'
          else Forall2 (sized_as w) (walked cfg env w) source /\ w' = w.
Proof.
  intros Hrun. unfold sorted_files in Hrun.
  remember (Ret files) as out eqn:Hout.
  destruct (ENABLE_CACHE cfg).
  - minv Hrun; [| discriminate | discriminate].
    apply build_file_size_cache_run in Hm as (-> & _).
    unfold bind, get, ret in Hk. simpl in Hk. injection Hk as <- <- Hk.
    rewrite Hout in Hk. injection Hk as <-.
    split; [reflexivity |]. eexists. split; reflexivity.
  - unfold walk_folders in Hrun.
    rewrite (bind_silent_run _ _ w w (walked cfg env w)) in Hrun
      by (unfold walked; reflexivity).
    minv Hrun; [| discriminate | discriminate].
    apply with_sizes_run in Hm as (-> & -> & Hsized).
    unfold ret in Hk. injection Hk as <- <- Hk. rewrite Hout in Hk. injection Hk as <-.
    split; [reflexivity |]. exists a. auto.
Qed.

(** X19. The order of a scan. The list of files a cycle works through is
    sorted by size, smallest first, files of equal size staying in the order
    they were found; it holds the same entries as its source, each as often.
    With the cache switched on the source is the size cache as
    build_file_size_cache has left it, and the sizes are the cached ones;
    without it the source is what the scan of the folders finds, each file
    with its present size. *)
Theorem scan_is_smallest_first (cfg : Config) (env : Env) w evs w' files :
  sorted_files cfg env w = (evs, w', Ret files) ->
  evs = []
  /\ exists sized source,
       files = sized.*1
       /\ StronglySorted by_size sized
       /\ sized ≡ₚ source
       /\ (forall size, filter (fun e : string * Z => e.2 = size) sized
                        = filter (fun e : string * Z => e.2 = size) source)
       /\ if ENABLE_CACHE cfg then source = file_size_cache w'
          else Forall2 (sized_as w) (walked cfg env w) source /\ w' = w.
Proof.
  intros Hrun. apply sorted_files_run in Hrun as (-> & source & -> & Hsource).
  split; [reflexivity |]. exists (sort_by_size source), source.
  split; [reflexivity |]. split; [apply sort_by_size_sorted |].
  split; [apply sort_by_size_perm |]. split; [| exact Hsource].
  intros size. apply sort_by_size_stable.
Qed.

Lemma scan_is_smallest_first_witness :
  exists w' sized source,
    sorted_files test_config test_env world_with_stale_cache
    = ([], w', Ret ["/watch/gone.txt"; "/watch/b.txt"])
    /\ ["/watch/gone.txt"; "/watch/b.txt"] = sized.*1
    /\ StronglySorted by_size sized
    /\ sized ≡ₚ source
    /\ source = file_size_cache w'.
Proof.
  destruct (sorted_files test_config test_env world_with_stale_cache)
    as [[evs w'] out] eqn:Hrun.
  assert (Hout : out = Ret ["/watch/gone.txt"; "/watch/b.txt"])
    by (vm_compute in Hrun; now injection Hrun as _ _ <-).
  rewrite Hout in Hrun.
  destruct (scan_is_smallest_first test_config test_env world_with_stale_cache evs w'
              ["/watch/gone.txt"; "/watch/b.txt"] Hrun)
    as (-> & sized & source & Hfiles & Hsorted & Hperm & _ & Hsource).
  exists w', sized, source. rewrite Hout. simpl in Hsource. auto.
Defined.

(** ** clean_old_logs *)

Lemma clean_listed_spec deletion_time (listing : list string) :
  forall logs logs' failure,
  clean_listed deletion_time listing logs = (logs', failure) ->
  (forall path,
      logs' !! path = logs !! path
      \/ (logs' !! path = None /\ expired deletion_time listing logs path))
  /\ (failure = None ->
      forall path, expired deletion_time listing logs path -> logs' !! path = None)
  /\ (forall e, failure = Some e ->
      exists filename,
        filename ∈ listing /\ is_bot_log filename = true
        /\ e = LogNotFound (path_join "logs" filename)
        /\ logs' !! path_join "logs" filename = None).
Proof.
  induction listing as [| filename rest IH]; intros logs logs' failure Hrun.
  { injection Hrun as <- <-. split; [auto |]. split; [| discriminate].
    intros _ path (f & t & Hin & _). in_trace. }
  cbn [clean_listed] in Hrun.
  assert (Hskip : clean_listed deletion_time rest logs = (logs', failure) ->
                  (forall t, is_bot_log filename = true ->
                             logs !! path_join "logs" filename = Some t ->
                             ~ t < deletion_time) ->
                  (forall path,
                      logs' !! path = logs !! path
                      \/ (logs' !! path = None
                          /\ expired deletion_time (filename :: rest) logs path))
                  /\ (failure = None ->
                      forall path, expired deletion_time (filename :: rest) logs path ->
                                   logs' !! path = None)
                  /\ (forall e, failure = Some e ->
                      exists f,
                        f ∈ filename :: rest /\ is_bot_log f = true
                        /\ e = LogNotFound (path_join "logs" f)
                        /\ logs' !! path_join "logs" f = None)).
  { intros Hrest Hkeep. apply IH in Hrest as (Hsame & Hall & Hfail).
    split; [| split].
    - intros path. destruct (Hsame path) as [H | [H (f & t & Hin & Hrestf)]];
        [now left | right].
      split; [exact H |]. exists f, t. split; [now apply list_elem_of_further | exact Hrestf].
    - intros Hnone path (f & t & Hin & Hlog & -> & Hlook & Hold).
      apply elem_of_cons in Hin as [-> | Hin].
      + now destruct (Hkeep t Hlog Hlook).
      + apply (Hall Hnone). exists f, t. auto.
    - intros e He. destruct (Hfail e He) as (f & Hin & Hrestf).
      exists f. split; [now apply list_elem_of_further | exact Hrestf]. }
  destruct (is_bot_log filename) eqn:Hlog; [| apply Hskip; [exact Hrun | discriminate]].
  destruct (logs !! path_join "logs" filename) as [file_time |] eqn:Hlook.
  2:{ injection Hrun as <- <-. split; [auto |]. split; [discriminate |].
      intros e [= <-]. exists filename.
      split; [apply list_elem_of_here | auto]. }
  destruct (Z.ltb_spec file_time deletion_time) as [Hold | Hnew].
  2:{ apply Hskip; [exact Hrun |]. intros t _ [= <-]. lia. }
  apply IH in Hrun as (Hsame & Hall & Hfail).
  assert (Hmine : expired deletion_time (filename :: rest) logs
                    (path_join "logs" filename)).
  { exists filename, file_time. split; [apply list_elem_of_here | auto]. }
  assert (Hlift : forall path,
             expired deletion_time rest (delete (path_join "logs" filename) logs) path ->
             expired deletion_time (filename :: rest) logs path).
  { intros path (f & t & Hin & Hf & -> & Hl & Ht).
    apply lookup_delete_Some in Hl as [_ Hl].
    exists f, t. split; [now apply list_elem_of_further | auto]. }
  split; [| split].
  - intros path. destruct (decide (path = path_join "logs" filename)) as [-> | Hne].
    + right. split; [| exact Hmine].
      destruct (Hsame (path_join "logs" filename)) as [H | [H _]]; [| exact H].
      rewrite H. apply lookup_delete_eq.
    + destruct (Hsame path) as [H | [H Hexp]].
      * left. rewrite H. now apply lookup_delete_ne.
      * right. split; [exact H | now apply Hlift].
  - intros Hnone path (f & t & Hin & Hf & -> & Hl & Ht).
    destruct (decide (path_join "logs" f = path_join "logs" filename)) as [Heq | Hne].
    + rewrite Heq.
      destruct (Hsame (path_join "logs" filename)) as [H | [H _]]; [| exact H].
      rewrite H. apply lookup_delete_eq.
    + apply elem_of_cons in Hin as [-> | Hin]; [contradiction |].
      apply (Hall Hnone). exists f, t. split; [exact Hin |].
      split; [exact Hf |]. split; [reflexivity |].
      split; [| exact Ht]. rewrite lookup_delete_ne by auto. exact Hl.
  - intros e He. destruct (Hfail e He) as (f & Hin & Hrestf).
    exists f. split; [now apply list_elem_of_further | exact Hrestf].
Qed.

(** X20. clean_old_logs deletes the old logs of the bot and nothing else.
    With the deletion time [now - LOG_RETENTION_DAYS days]: every file of
    the log directory is either as it was or gone, and a file is gone only
    if it is listed, its name starts with [bot_log] and ends in [.txt], and
    it was created before the deletion time; when no exception is raised,
    every such file is gone. The exceptions: [OverflowError], raised before
    any file is looked at, when [timedelta] or the subtraction is out of
    range; and the error of a listed bot log that is not there. *)
Theorem clean_old_logs_deletes_only_old_bot_logs (retention now : Z)
    (listing : list string) (logs logs' : gmap string Z) (failure : option LogsError) :
  clean_old_logs retention now listing logs = (logs', failure) ->
  (failure = Some OverflowError ->
   logs' = logs
   /\ (999999999 < Z.abs retention
       \/ now - retention * 86400 * 1000000 < 0
       \/ MAX_DATETIME < now - retention * 86400 * 1000000))
  /\ (failure <> Some OverflowError ->
      let deletion_time := now - retention * 86400 * 1000000 in
      (forall path,
          logs' !! path = logs !! path
          \/ (logs' !! path = None /\ expired deletion_time listing logs path))
      /\ (failure = None ->
          forall path, expired deletion_time listing logs path -> logs' !! path = None)
      /\ (forall e, failure = Some e ->
          exists filename,
            filename ∈ listing /\ is_bot_log filename = true
            /\ e = LogNotFound (path_join "logs" filename)
            /\ logs' !! path_join "logs" filename = None)).
Proof.
  intros Hrun. unfold clean_old_logs, timedelta_days, datetime_sub in Hrun.
  destruct (Z.leb_spec (Z.abs retention) 999999999) as [Hdays | Hdays].
  2:{ injection Hrun as <- <-. split; [intros _; split; [reflexivity | now left] |].
      intros H. now destruct H. }
  cbv zeta in Hrun.
  destruct (Z.leb_spec 0 (now - retention * 86400 * 1000000)) as [Hlow | Hlow].
  2:{ injection Hrun as <- <-. split; [intros _; split; [reflexivity | auto] |].
      intros H. now destruct H. }
  destruct (Z.leb_spec (now - retention * 86400 * 1000000) MAX_DATETIME) as [Hhigh | Hhigh].
  2:{ injection Hrun as <- <-. split; [intros _; split; [reflexivity | auto] |].
      intros H. now destruct H. }
  cbn [andb] in Hrun. apply clean_listed_spec in Hrun as (Hsame & Hall & Hfail).
  split.
  - intros ->. destruct (Hfail _ eq_refl) as (f & _ & _ & Hbad & _). discriminate.
  - intros _. cbv zeta. auto.
Qed.

Lemma clean_old_logs_deletes_only_old_bot_logs_witness :
  exists logs',
    clean_old_logs 7 63900000100000000
      ["flask_backend_log.txt"; "bot_log_old.txt"; "bot_log.txt"] test_logs
    = (logs', None)
    /\ logs' !! "logs/bot_log_old.txt" = None
    /\ logs' !! "logs/bot_log.txt" = Some 63900000000000000
    /\ logs' !! "logs/flask_backend_log.txt" = Some 63700000000000000.
Proof.
  destruct (clean_old_logs 7 63900000100000000
              ["flask_backend_log.txt"; "bot_log_old.txt"; "bot_log.txt"] test_logs)
    as [logs' failure] eqn:Hrun.
  assert (Hnone : failure = None).
  { pose proof (f_equal snd Hrun) as H. vm_compute in H. now symmetry. }
  destruct (clean_old_logs_deletes_only_old_bot_logs 7 63900000100000000 _ _ _ _ Hrun)
    as [_ Hrest].
  destruct Hrest as (_ & Hall & _); [rewrite Hnone; discriminate |].
  exists logs'. rewrite Hnone. split; [reflexivity |].
  split.
  - apply (Hall Hnone). exists "bot_log_old.txt", 63800000000000000.
    split; [apply list_elem_of_further, list_elem_of_here |].
    repeat split; reflexivity.
  - pose proof (f_equal fst Hrun) as H. cbn [fst] in H. rewrite <- H.
    split; vm_compute; reflexivity.
Defined.

(** ** What ends a cycle early *)




(** ** Parts delivered, instructions refused *)

Lemma send_file_documents_taken cfg env fuel file_path caption part_number total_parts
    w content :
  documents_taken env ->
  fs w !! file_path = Some content ->
  exists evs w',
    send_file cfg env (S fuel) file_path caption part_number total_parts w
    = (evs, w', Ret true)
    /\ send_requests evs
       = [document_request cfg env file_path caption part_number total_parts content]
    /\ calls w' send_message = calls w send_message.
Proof.
  intros Htaken Hfile.
  destruct (Htaken send_document (calls w send_document)) as [msg Hreply]; [discriminate |].
  destruct (send_file_try_accepted cfg env file_path caption part_number total_parts
              w content msg Hfile Hreply)
    as (fevs & w1 & _ & Hr & _ & _ & _ & Hcalls & _ & _ & Htry).
  destruct (error_messages w !! file_path) as [notice |].
  - destruct (Htaken delete_message (calls w delete_message)) as [r Hdel]; [discriminate |].
    rewrite Hdel in Htry. simpl in Htry.
    do 2 eexists. split; [simpl; apply (try_except_ret_run _ _ _ _ _ _ Htry) |].
    change (Api ?x ?y :: fevs ++ ?l) with ([Api x y] ++ fevs ++ l).
    rewrite !send_requests_app, Hr. split; [reflexivity |].
    simpl. destruct (decide (send_message = delete_message)); [discriminate | exact Hcalls].
  - do 2 eexists. split; [simpl; apply (try_except_ret_run _ _ _ _ _ _ Htry) |].
    change (Api ?x ?y :: fevs) with ([Api x y] ++ fevs).
    rewrite !send_requests_app, Hr. split; [reflexivity | exact Hcalls].
Qed.

Lemma split_loop_documents_taken cfg env fuel temp_dir base_name chunk_size total_parts :
  documents_taken env ->
  forall iters zip_file file_number w,
  (length zip_file < iters)%nat ->
  exists evs w',
    split_loop cfg env iters (S fuel) temp_dir base_name chunk_size total_parts
      zip_file file_number w
    = (evs, w', Ret (Break (file_number
                            + Z.of_nat (length (chunks chunk_size zip_file)))))
    /\ send_requests evs
       = part_requests cfg env temp_dir base_name total_parts file_number
           (chunks chunk_size zip_file)
    /\ calls w' send_message = calls w send_message.
Proof.
  intros Htaken.
  induction iters as [| iters IH]; intros zip_file file_number w Hlen; [lia |].
  rewrite chunks_unfold. cbn [split_loop].
  destruct (read chunk_size zip_file) as [[| b chunk] rest] eqn:Hread.
  - exists [], w. simpl. rewrite Z.add_0_r. auto.
  - apply read_shrinks in Hread as [_ Hshort].
    rewrite (bind_silent_run _ _ _ _ _ (write_file_run _ _ _)).
    destruct (send_file_documents_taken cfg env fuel
                (chunk_name temp_dir base_name file_number)
                (part_caption base_name file_number) (Some file_number)
                (Some total_parts)
                (set_fs (insert (chunk_name temp_dir base_name file_number) (b :: chunk)) w)
                (b :: chunk) Htaken)
      as (evs1 & w1 & Hsend & Hreq1 & Hcalls1).
    { simpl. apply lookup_insert_eq. }
    rewrite (bind_ret_run _ _ _ _ _ _ Hsend).
    rewrite (bind_silent_run _ _ w1 (set_file_counter (Z.add 1) w1) tt eq_refl).
    destruct (IH rest (file_number + 1) (set_file_counter (Z.add 1) w1))
      as (evs2 & w2 & Hloop & Hreq2 & Hcalls2); [lia |].
    rewrite Hloop. exists (evs1 ++ evs2), w2.
    split; [f_equal; f_equal; f_equal; simpl length; lia |].
    rewrite send_requests_app, Hreq1, Hreq2.
    split; [reflexivity |]. rewrite Hcalls2. exact Hcalls1.
Qed.

(** X22. A split whose parts are all taken still fails when the message
    with the reassembly instructions is refused: every part has been
    requested, the refusal is answered by the notice
    [Error processing file: <base name>. Check logs.], and the caller is
    told [(False, 0)], as if nothing had been sent. *)
Theorem refused_instructions_fail_the_split (cfg : Config) (env : Env) fuel file_path
    skip_zip w content e notice :
  documents_taken env ->
  MAX_FILE_SIZE cfg <> 0 ->
  fs w !! file_path = Some content ->
  reply env send_message (calls w send_message) = Fails e ->
  reply env send_message (S (calls w send_message)) = Ok notice ->
  let archive := split_input cfg env file_path skip_zip content in
  exists pre w',
    split_and_send_zip cfg env (S fuel) file_path skip_zip w
    = (pre ++ [Api (SendMessage (CHAT_ID cfg)
                      (reassembly_instructions cfg (basename file_path)
                         (1 + Z.of_nat (length (chunks (MAX_FILE_SIZE cfg) archive)))))
                 (Fails e);
               Api (SendMessage (CHAT_ID cfg) (processing_notice (basename file_path)))
                 (Ok notice)],
       w', Ret (false, 0))
    /\ send_requests pre
       = part_requests cfg env (mkdtemp env (temp_count w)) (basename file_path)
           (total_parts_of (Z.of_nat (length archive)) (MAX_FILE_SIZE cfg)) 1
           (chunks (MAX_FILE_SIZE cfg) archive).
Proof.
  intros Htaken Hnz Hfile Hrefused Hnotice archive.
  set (temp_dir := mkdtemp env (temp_count w)).
  set (zip_path := if zips_here cfg file_path skip_zip
                   then path_join temp_dir (basename file_path +:+ ".zip")
                   else file_path).
  assert (Hcreate : exists wz,
             create_zip_archive cfg env file_path (basename file_path) temp_dir skip_zip
               (next_temp w) = ([], wz, Ret zip_path)
             /\ fs wz !! zip_path = Some archive
             /\ calls wz = calls w).
  { assert (Hfile' : fs (next_temp w) !! file_path = Some content) by exact Hfile.
    unfold create_zip_archive, zip_path, archive, split_input.
    destruct (zips_here cfg file_path skip_zip).
    - eexists. split; [| split].
      + now rewrite (bind_silent_run _ _ _ _ _
                       (write_zip_run cfg env _ _ (basename file_path) _ _ Hfile')).
      + simpl. apply lookup_insert_eq.
      + reflexivity.
    - exists (next_temp w). split; [reflexivity | split; [exact Hfile | reflexivity]]. }
  destruct Hcreate as (wz & Hcreate & Hzip & Hcalls_z).
  destruct (split_loop_documents_taken cfg env fuel temp_dir (basename file_path)
              (MAX_FILE_SIZE cfg)
              (total_parts_of (Z.of_nat (length archive)) (MAX_FILE_SIZE cfg))
              Htaken (S (length archive)) archive 1 wz)
    as (evs_l & wl & Hloop & Hreq & Hcalls_l); [lia |].
  rewrite Hcalls_z in Hcalls_l.
  set (instructions := reassembly_instructions cfg (basename file_path)
                         (1 + Z.of_nat (length (chunks (MAX_FILE_SIZE cfg) archive)))).
  assert (Hinstr : send_reassembly_instructions cfg env (basename file_path)
                     (1 + Z.of_nat (length (chunks (MAX_FILE_SIZE cfg) archive))) wl
                   = ([Api (SendMessage (CHAT_ID cfg) instructions) (Fails e)],
                      tick send_message wl, Raise (TelegramErr e))).
  { unfold send_reassembly_instructions, bind, api. simpl.
    now rewrite Hcalls_l, Hrefused. }
  exists evs_l. eexists. split; [| exact Hreq].
  unfold split_and_send_zip.
  erewrite try_except_raise_run.
  2:{ unfold split_and_send_zip_try.
      rewrite (bind_silent_run _ _ _ _ _ (getsize_run _ _ _ Hfile)).
      apply with_temp_dir_run. fold temp_dir.
      rewrite (bind_silent_run _ _ _ _ _ Hcreate).
      rewrite (bind_silent_run _ _ _ _ _ (getsize_run _ _ _ Hzip)).
      rewrite (bind_silent_run _ _ _ _ _ (count_parts_run _ _ wz Hnz)).
      rewrite (bind_silent_run _ _ _ _ _ (read_file_run _ _ _ Hzip)).
      rewrite (bind_ret_run _ _ _ _ _ _ Hloop).
      rewrite (bind_raise_run _ _ _ _ _ _ Hinstr). reflexivity. }
  unfold send_error_message, bind, api, ret, processing_notice. simpl.
  destruct (decide (send_message = send_message)); [| congruence].
  rewrite Hcalls_l, Hnotice. rewrite <- app_assoc. reflexivity.
Qed.

Lemma refused_instructions_fail_the_split_witness :
  exists pre w',
    split_and_send_zip test_config instructions_refusing_env 1 "/watch/big.zip" true
      (world_holding "/watch/big.zip" abcdefgh)
    = (pre ++ [Api (SendMessage 7
                      (reassembly_instructions test_config "big.zip" 3))
                 (Fails bad_request);
               Api (SendMessage 7 (processing_notice "big.zip")) (accepted 101)],
       w', Ret (false, 0))
    /\ length (send_requests pre) = 2%nat.
Proof.
  destruct (refused_instructions_fail_the_split test_config instructions_refusing_env 0
              "/watch/big.zip" true (world_holding "/watch/big.zip" abcdefgh) abcdefgh
              bad_request {| id := 101; status := "member" |})
    as (pre & w' & Hrun & Hreq).
  - intros m n Hm. destruct m; try (eexists; reflexivity). congruence.
  - discriminate.
  - reflexivity.
  - reflexivity.
  - reflexivity.
  - exists pre, w'. split; [exact Hrun |]. now rewrite Hreq.
Defined.

